(* ===== verification/_CoqProject ===== *)
-Q . S2P
Prelude.v
Labeler.v
Traversal.v
LabelPass.v
Geometry.v
Temporal.v
SpatialIndex.v
NeighborGraph.v
Interface.v
Engine.v
HexColor.v
Script.v
ScriptLemmas.v
ScriptProps.v
SessionSpec.v
Page.v
Draws.v
System.v
