(* ===== verification/Prelude.v ===== *)
(** * Verification of st-clustering-app

    The program is one Streamlit script, src/app.py.  Streamlit runs it
    from top to bottom on every interaction; what survives between runs
    is [st.session_state], which holds the last clustering result (key
    "clustered") and a colour per cluster id (key "colors").  A run reads
    an uploaded GeoJSON file, derives the parameters from its widgets
    (lines 46-80), on Reset pops both keys (89-91), on Run calls the
    engine [cluster_polygons] of the library st_polygoncluster (93-100),
    and when a result is stored shows it on a map, noise dropped and each
    cluster filled with a random colour kept per id (103-149, helper
    [get_color] at 12-18).

    The engine is not part of the repository.  It is modelled from the
    specification (spec.md): a Geometry Overlap Evaluator, a Temporal
    Proximity Evaluator, a Spatial Index, a Neighbor Graph Builder and a
    Cluster Labeler, composed by [cluster_polygons].  The app is proved
    against an interface of the engine; the engine model is an instance
    of it; System.v composes the two.

    ** Files, in dependency order
    - Prelude.v (this file): the [result] type of fallible code with its
      [let*] notation in [clus_scope], the tactics [invc] and
      [bool_to_prop], the hint database [clus], generic lemmas on lists,
      sets and relations.
    - Labeler.v (spec 4.5): marks [Unvisited | Visited | Labeled id] per
      feature, a breadth-first [bfs] with fuel, [component], the pass
      [label_pass] over the features in input order, and [cluster_labels],
      which first checks the neighbor relation ([check_graph]).
    - Traversal.v: the traversal invariant [bfs_inv] and the correctness
      and fuel bound of [bfs]/[component].
    - LabelPass.v: the loop invariant [loop_inv] of the labeling pass,
      the precondition check, and the properties of [cluster_labels].
    - Geometry.v (spec 4.1): the class [Geometry] (bounding box, doubled
      areas, centroid) with its laws [GeometryLaws], the IoU [overlap] in
      Q, and an instance for axis-aligned rectangles [rect].
    - Temporal.v (spec 4.2): [close] and [time_compatible].
    - SpatialIndex.v (spec 4.3): sort-and-sweep on bounding boxes,
      [build_index] and [query].
    - NeighborGraph.v (spec 4.4): [neighbor_graph], candidates [j > i]
      from the index, filtered by overlap and time, stored both ways.
    - Interface.v: the data the app and the engine exchange (cell
      [value]s, [row]s, [frame]s with typed [column]s), the engine's
      errors, and the interface: the class [ClusterEngine] (the function
      [cluster_polygons]) and its laws [ClusterEngineLaws] (every row
      kept in order with one more attribute [cluster_id], -1 or >= 0).
    - Engine.v (spec 2, 6, 7): [run_engine], parameter checks first, then
      features, graph, labeler and the [cluster_id] column; the instances
      [spec_engine] and [spec_engine_laws].
    - HexColor.v (line 17): Python's ['#{:06x}'] formatting of a draw,
      its parser, and a fixed-width reference formatter [hex_split].
    - Script.v (src/app.py): the session as the record [session] inside
      [world] (which also counts the draws of [random.randint]); the
      widgets [selectbox], [number_input], [slider]; one function per
      block of the script ([get_color], [widget_values], [reset_handler],
      [run_handler], [drop_noise], [style_fn], [style_all],
      [show_results]); [app_run], one run of the script, in a Section
      over any [ClusterEngine]; and the sessions reachable by runs,
      [app_reachable].  Exceptions the script raises are [Raised] values
      of its [outcome]: a [KeyError], an engine error, or folium's
      tooltip assertion ([missing_field]: a tooltip field that is not a
      property of the GeoJSON features, [geojson_keys], raises when
      [st_folium] renders the map, after the styles are computed).
    - ScriptLemmas.v, ScriptProps.v: the lemmas on the script (styling,
      the datetime cast, means, the session under the engine laws) and
      its properties, with examples on frames of [unit] geometries.
    - SessionSpec.v: an abstract machine of the session (stored result
      and colour table, steps rerun / reset / run) and the simulation
      showing that [app_run] refines it.
    - Page.v (lines 8-160): the page a rerun writes, as [element]s in
      script order with the exact static texts ([page_header], [preview],
      [controls], [results_page], [finish]), and the uncaught exception
      that ends it ([page], a writer with an exception); [script_page] is
      the whole script with its output, around the handlers of Script.v.
    - Draws.v: the calls of [random.randint] made by [get_color], counted
      per rerun, and the invariant [draw_indexed] tying each stored colour
      to its own draw.
    - System.v: [app_run] with [spec_engine]; the clusters a Run stores,
      in terms of the uploaded frame alone.

    ** What is proved
    - Labeler: the traversal terminates within [S (length m)] steps and
      returns exactly the component of the seed (the fuel bound is the
      number of unvisited features plus one, since every step of the
      traversal marks a fresh feature or ends); a loop invariant of the
      labeling pass ([loop_inv]) gives that two features share an id
      [>= 0] iff they are connected, that a feature is noise iff its
      component is smaller than [min_cluster_size], that ids are dense
      and issued in seed order, and that a malformed relation is an error.
    - Geometry, SpatialIndex, NeighborGraph: overlap is symmetric, in
      [0, 1] and 0 on disjoint boxes; the index query returns exactly the
      intersecting boxes; the builder's adjacency is exactly the neighbor
      relation and passes the labeler's check.
    - Engine: [spec_engine] meets [ClusterEngineLaws].
    - Script, against any engine: the stored colours are well-formed
      ['#rrggbb'] strings keyed by non-negative ids in every reachable
      session and survive every run without Reset; the map draws exactly
      the non-noise rows, one colour per id; Reset pops the result and
      the colours; a run without Run keeps the stored result; a Run stores
      the engine's output on the widget values, whose bounds are proved;
      Reset with Run leaves exactly the colours of the drawn clusters;
      two new clusters get the same colour whenever their draws
      coincide.  Against an engine meeting the laws, the stored rows are
      the uploaded rows with their [cluster_id], and a run in a reachable
      session never raises a [KeyError]: only the engine's errors, or
      folium's assertion on the geometry column.  After a Run the engine
      was called with the selected column, the period value times the
      unit's seconds, the minimum size and the raw overlap percentage, in
      closed form from the widget entries.
    - Script: the cast of lines 112-115 leaves no datetime column and
      changes only the datetime cells, all into strings ("NaT" for a
      missing one); the map centre lies
      within the range of the drawn centroids.
    - SessionSpec: every reachable session is reachable in the abstract
      machine (refinement by a one-step simulation, [app_run_step]).
    - Page: the footer ends the page iff the rerun raised nothing; the
      page layer changes the session as [app_run] and stops at its
      exception.
    - Draws: a rerun calls [randint] exactly once per distinct cluster id
      it styles that had no colour yet (the memoisation is exact); in
      every reachable session each colour is the colour of one earlier
      draw, different ids owning different draws.
    - HexColor: ['#{:06x}'] of a draw in [0, 0xFFFFFF] is ['#'] and six
      lowercase hex digits that parse back to the draw; the computed
      formatting equals the fixed-width split; the digit loop has
      finished within its fuel.
    - System: after a Run, two rows share a cluster iff a chain of rows
      with intersecting bounding boxes and close timestamps links them;
      noise iff fewer linked rows than [min_cluster_size]; ids dense and
      in seed order; every Run with the overlap slider off 0 fails,
      since the app passes the percentage where the engine expects a
      ratio in [0, 1]; so on the default widgets any two rows with
      intersecting bounding boxes and close timestamps share a cluster,
      even squares that only share an edge.  From any session a Run on a
      non-empty upload with the default widgets stores the engine's
      result and raises at most folium's assertion, which happens exactly
      when the default time column is the geometry column and some
      cluster is drawn; the stored result then makes every later rerun
      raise it again.

    ** Bounds and fuel
    The BFS fuel is [S (length m)], proved sufficient and stable under
    more fuel ([component_terminates]).  [hex_rev] gets [log2 n + 1]
    digits of fuel, the number of hexadecimal digits of [n] bounded by
    that of its binary ones; more fuel changes nothing
    ([hex_lower_terminates]).  Integers are Z: Python's integers do not
    wrap; the 24-bit range of a draw is the hypothesis [Hrand].

    ** Not modelled
    File reading ([gpd.read_file]): the parsed frame is an input of a
    run; the layout of [st.columns], which places widgets but writes
    nothing; folium's and st_folium's HTML rendering beyond the map
    element (centre, styled features, tooltip fields), the styling calls,
    which are modelled because [get_color] changes the session, and the
    tooltip's field assertion; folium's one extra validation call of
    [style_fn] on the first feature (harmless: [get_color] is
    idempotent); polygon geometry beyond rectangles (the engine
    is generic in the class [Geometry]); the engine's invalid-geometry
    error and timezone normalisation (timestamps are integer seconds). *)

From stdpp Require Export base gmap sets list strings sorting.
From Stdlib Require Export ZArith Lia.
From Stdlib Require Import QArith.

(** ** Results: the error values of fallible code *)

Inductive result (A E : Type) : Type :=
| Ok (a : A)
| Err (e : E).
Arguments Ok {A E} a.
Arguments Err {A E} e.

Declare Scope clus_scope.
Delimit Scope clus_scope with clus.
Open Scope clus_scope.

Notation "'let*' x ':=' c 'in' k" :=
  (match c with Ok x => k | Err e => Err e end)
  (at level 10, x name, c at level 100, k at level 200) : clus_scope.

Definition is_ok {A E} (r : result A E) : bool :=
  match r with Ok _ => true | Err _ => false end.

(** ** Tactics shared by the development *)

Ltac invc H := inversion H; subst; clear H.

(** Turn the boolean tests of the code into propositions. *)
Ltac bool_to_prop :=
  repeat match goal with
  | H : (_ && _)%bool = true |- _ => apply andb_prop in H as [? ?]
  | H : (_ <=? _)%Z = true |- _ => apply Z.leb_le in H
  | H : (_ <=? _)%Z = false |- _ => apply Z.leb_gt in H
  | H : (_ <? _)%Z = true |- _ => apply Z.ltb_lt in H
  | H : (_ <? _)%Z = false |- _ => apply Z.ltb_ge in H
  | H : (_ =? _)%Z = true |- _ => apply Z.eqb_eq in H
  | H : (_ =? _)%Z = false |- _ => apply Z.eqb_neq in H
  | H : (_ <=? _)%nat = true |- _ => apply Nat.leb_le in H
  | H : (_ <=? _)%nat = false |- _ => apply Nat.leb_gt in H
  | H : (_ <? _)%nat = true |- _ => apply Nat.ltb_lt in H
  | H : (_ <? _)%nat = false |- _ => apply Nat.ltb_ge in H
  | H : Qle_bool _ _ = true |- _ => apply Qle_bool_iff in H
  end.

Create HintDb clus.

(** ** Generic lemmas *)

Lemma Z_abs_sub_comm (a b : Z) : Z.abs (a - b) = Z.abs (b - a).
Proof. rewrite <- Z.abs_opp. f_equal. lia. Qed.

#[export] Hint Resolve Z_abs_sub_comm : clus.

Lemma NoDup_snoc {A} (l : list A) (x : A) :
  NoDup l -> x ∉ l -> NoDup (l ++ [x]).
Proof.
  intros Hnd Hx. apply NoDup_app. split; [done|]. split; [|apply NoDup_singleton].
  intros y Hy ->%list_elem_of_singleton. done.
Qed.

(** A set with the members of a duplicate-free list has its length. *)
Lemma size_gset_list (C : gset nat) (l : list nat) :
  NoDup l -> (forall x, x ∈ C <-> x ∈ l) -> size C = length l.
Proof.
  intros Hnd HC. rewrite <- (size_list_to_set (C:=gset nat) l Hnd). f_equal.
  apply set_eq. intros x. rewrite elem_of_list_to_set. apply HC.
Qed.

(** Reflexive-transitive closures of two relations that agree coincide. *)
Lemma rtc_iff_rel {A} (R S : relation A) (x y : A) :
  (forall a b, R a b <-> S a b) -> rtc R x y <-> rtc S x y.
Proof.
  intros HRS. split; induction 1; [done| |done|];
    eapply rtc_l; [apply HRS; eassumption|done|apply HRS; eassumption|done].
Qed.
