(* ===== verification/Traversal.v ===== *)
(** * Correctness of the labeler's breadth-first traversal

    The traversal [Labeler.bfs] from a seed, run by [Labeler.component]:
    an invariant [bfs_inv] on the queue, the marks and the members,
    preserved by each dequeue ([bfs_inv_step]); the fuel [S (length m)]
    is enough because each step turns an [Unvisited] mark into [Visited]
    ([count_unvisited] decreases); at the end the members are exactly
    the features reachable from the seed ([component_spec]). *)

From S2P Require Import Prelude Labeler.

(** ** Invariants of the proofs *)

(** The number of features still [Unvisited]: the measure of the traversal. *)
Definition count_unvisited (m : list fstate) : nat :=
  length (filter (fun s => s = Unvisited) m).

Section Invariants.
Context (adj : graph) (m0 : list fstate) (s : nat).

(** The traversal invariant: the members are exactly the [Visited]
    marks, all reachable from the seed; the members that left the
    queue have all their neighbors among the members. *)
Definition bfs_inv (q : list nat) (m : list fstate) (mem : list nat) : Prop :=
  length m = length m0 /\
  (forall j, m !! j = Some Visited <-> j ∈ mem) /\
  (forall j, j ∉ mem -> m !! j = m0 !! j) /\
  NoDup mem /\
  (forall j, j ∈ mem -> reach adj s j) /\
  s ∈ mem /\
  exists finished, mem = finished ++ q /\
    forall u v, u ∈ finished -> edge adj u v -> v ∈ mem.
End Invariants.

(** ** Lemmas on marks *)

Lemma count_unvisited_le (m : list fstate) : count_unvisited m <= length m.
Proof. apply length_filter. Qed.

Lemma count_unvisited_visit (m : list fstate) (w : nat) :
  m !! w = Some Unvisited ->
  S (count_unvisited (<[w := Visited]> m)) = count_unvisited m.
Proof.
  unfold count_unvisited. revert w.
  induction m as [|s m IH]; intros [|w] Hw; simplify_eq/=.
  - by rewrite !filter_cons; repeat case_decide; simplify_eq/=.
  - rewrite !filter_cons. case_decide; simpl; auto.
Qed.

(** The effect of the inner loop: the neighbors that were [Unvisited]
    become [Visited], and are appended, once each, to the queue and to
    the members. *)
Lemma visit_nbrs_spec (ws : list nat) (m : list fstate) (q mem : list nat)
    (m' : list fstate) (q' mem' : list nat) :
  (forall j, m !! j = Some Visited <-> j ∈ mem) -> NoDup mem ->
  visit_nbrs ws m q mem = (m', q', mem') ->
  exists new,
    q' = q ++ new /\ mem' = mem ++ new /\ NoDup mem' /\
    (forall j, m' !! j = Some Visited <-> j ∈ mem') /\
    (forall j, j ∉ new -> m' !! j = m !! j) /\
    (forall w, w ∈ new -> w ∈ ws /\ m !! w = Some Unvisited) /\
    (forall w, w ∈ ws -> m !! w = Some Unvisited -> w ∈ new) /\
    length m' = length m /\
    count_unvisited m' + length new = count_unvisited m.
Proof.
  revert m q mem.
  induction ws as [|w ws IH]; intros m q mem Hvis Hnd Heq; simpl in Heq.
  - simplify_eq. exists []. rewrite !app_nil_r.
    split_and!; auto; intros; set_solver.
  - case_decide as Hw.
    + assert (Hlt : w < length m) by (apply lookup_lt_Some in Hw; done).
      assert (Hnot : w ∉ mem).
      { intros Hin. apply Hvis in Hin. congruence. }
      assert (Hvis1 : forall j, <[w := Visited]> m !! j = Some Visited <-> j ∈ mem ++ [w]).
      { intros j. destruct (decide (j = w)) as [->|Hne].
        - rewrite list_lookup_insert_eq by done. set_solver.
        - rewrite list_lookup_insert_ne by congruence. rewrite Hvis. set_solver. }
      destruct (IH _ _ _ Hvis1 (NoDup_snoc _ _ Hnd Hnot) Heq)
        as (new & -> & -> & Hnd' & Hvis' & Hsame & Hnew & Hall & Hlen & Hcnt).
      exists (w :: new). rewrite <- !app_assoc in *. simpl in *.
      split_and!; [done|done|done|done|..].
      * intros j Hj. rewrite Hsame by set_solver.
        rewrite list_lookup_insert_ne; set_solver.
      * intros x Hx. apply elem_of_cons in Hx as [->|Hx]; [set_solver|].
        destruct (Hnew x Hx) as [Hin Hu]. split; [set_solver|].
        destruct (decide (x = w)) as [->|Hne].
        { rewrite list_lookup_insert_eq in Hu by done. done. }
        by rewrite list_lookup_insert_ne in Hu by congruence.
      * intros x Hx Hu. apply elem_of_cons in Hx as [->|Hx]; [set_solver|].
        destruct (decide (x = w)) as [->|Hne]; [set_solver|].
        apply elem_of_cons. right. apply Hall; [done|]. by rewrite list_lookup_insert_ne by congruence.
      * by rewrite Hlen, length_insert.
      * pose proof (count_unvisited_visit m w Hw). lia.
    + destruct (IH _ _ _ Hvis Hnd Heq)
        as (new & -> & -> & Hnd' & Hvis' & Hsame & Hnew & Hall & Hlen & Hcnt).
      exists new. split_and!; auto.
      * intros x Hx. destruct (Hnew x Hx). split; [set_solver|done].
      * intros x Hx Hu. apply elem_of_cons in Hx as [->|Hx]; [done|]. auto.
Qed.

(** ** Reachability lemmas *)

Lemma reach_closed (adj : graph) (S : list nat) (s : nat) :
  s ∈ S -> (forall u v, u ∈ S -> edge adj u v -> v ∈ S) ->
  forall j, reach adj s j -> j ∈ S.
Proof.
  intros Hs Hcl j Hr. induction Hr as [|x y z Hxy _ IH]; [done|].
  apply IH. eauto.
Qed.

(** ** Correctness of the traversal *)

Section Traversal.
Context (adj : graph) (m0 : list fstate) (s : nat).
Local Abbreviation bfs_inv := (bfs_inv adj m0 s).

(** What the traversal needs of the marks it starts from. *)
Hypothesis Hpre : forall j, reach adj s j -> m0 !! j = Some Unvisited.

Lemma bfs_inv_step (v : nat) (q : list nat) (m : list fstate) (mem : list nat)
    (m' : list fstate) (q' mem' : list nat) :
  bfs_inv (v :: q) m mem ->
  visit_nbrs (nbrs adj v) m q mem = (m', q', mem') ->
  bfs_inv q' m' mem' /\
  S (count_unvisited m' + length q') = count_unvisited m + length (v :: q).
Proof.
  intros (Hlen & Hvis & Hrest & Hnd & Hreach & Hs & fin & -> & Hcl) Hv.
  destruct (visit_nbrs_spec _ _ _ _ _ _ _ Hvis Hnd Hv)
    as (new & -> & -> & Hnd' & Hvis' & Hsame & Hnew & Hall & Hlen' & Hcnt).
  assert (Hrv : reach adj s v) by (apply Hreach; set_solver).
  split; [|rewrite length_app; simpl; lia].
  unfold Traversal.bfs_inv. split_and!; [lia|done| |done| | |].
  - intros j Hj. rewrite Hsame by set_solver. apply Hrest. set_solver.
  - intros j Hj. apply elem_of_app in Hj as [Hj|Hj]; [by apply Hreach|].
    destruct (Hnew j Hj) as [Hin _]. eapply rtc_r; [exact Hrv|exact Hin].
  - set_solver.
  - exists (fin ++ [v]). split; [by rewrite <- !app_assoc|].
    intros u w Hu Huw. apply elem_of_app in Hu as [Hu|Hu];
      [|apply list_elem_of_singleton in Hu; subst u].
    + specialize (Hcl u w Hu Huw). set_solver.
    + destruct (decide (w ∈ fin ++ v :: q)) as [Hin|Hnin]; [set_solver|].
      apply elem_of_app. right. apply Hall; [done|].
      rewrite Hrest by done. apply Hpre. eapply rtc_r; [exact Hrv|exact Huw].
Qed.

(** Termination: a fuel above [count_unvisited m + length q] empties
    the queue, since every dequeue lowers that measure by one. *)
Lemma bfs_fuel_enough (fuel : nat) (q : list nat) (m : list fstate)
    (mem : list nat) (mf : list fstate) (memf : list nat) :
  bfs_inv q m mem -> count_unvisited m + length q < fuel ->
  bfs adj fuel q m mem = (mf, memf) -> bfs_inv [] mf memf.
Proof.
  revert q m mem. induction fuel as [|fuel IH]; intros q m mem Hinv Hlt Hb;
    [lia|].
  destruct q as [|v q]; simpl in Hb; [injection Hb as <- <-; exact Hinv|].
  destruct (visit_nbrs (nbrs adj v) m q mem) as [[m' q'] mem'] eqn:Hv.
  destruct (bfs_inv_step _ _ _ _ _ _ _ Hinv Hv) as [Hinv' Hdec].
  eapply IH; [exact Hinv'| |exact Hb]. simpl in *. lia.
Qed.

(** When the queue is empty the members are the whole component. *)
Lemma bfs_inv_done (mf : list fstate) (memf : list nat) :
  bfs_inv [] mf memf -> forall j, j ∈ memf <-> reach adj s j.
Proof.
  intros (_ & _ & _ & _ & Hreach & Hs & fin & Heq & Hcl) j.
  rewrite app_nil_r in Heq. subst. split; [by apply Hreach|].
  apply reach_closed; auto.
Qed.
End Traversal.

(** The traversal invariant holds at the start of [component]. *)
Lemma bfs_inv_init (adj : graph) (m0 : list fstate) (s : nat) :
  (forall j, m0 !! j <> Some Visited) ->
  (forall j, reach adj s j -> m0 !! j = Some Unvisited) ->
  bfs_inv adj m0 s [s] (<[s := Visited]> m0) [s].
Proof.
  intros Hnov Hpre.
  assert (Hlt : s < length m0) by (eapply lookup_lt_Some, Hpre; constructor).
  split_and!.
  - by rewrite length_insert.
  - intros j. destruct (decide (j = s)) as [->|Hne].
    + rewrite list_lookup_insert_eq by done. set_solver.
    + rewrite list_lookup_insert_ne by congruence.
      split; [by intros ?%Hnov|set_solver].
  - intros j Hj. rewrite list_lookup_insert_ne; set_solver.
  - apply NoDup_singleton.
  - intros j ->%list_elem_of_singleton. constructor.
  - set_solver.
  - exists []. split; [done|set_solver].
Qed.

(** [component] returns the seed's connected component, each member
    once, marked [Visited], the other marks untouched. *)
Lemma component_spec (adj : graph) (m0 : list fstate) (s : nat)
    (m' : list fstate) (members : list nat) :
  (forall j, m0 !! j <> Some Visited) ->
  (forall j, reach adj s j -> m0 !! j = Some Unvisited) ->
  component adj m0 s = (m', members) ->
  (forall j, j ∈ members <-> reach adj s j) /\ NoDup members /\
  length m' = length m0 /\
  (forall j, m' !! j = Some Visited <-> j ∈ members) /\
  (forall j, j ∉ members -> m' !! j = m0 !! j).
Proof.
  intros Hnov Hpre Hc.
  assert (Hs : m0 !! s = Some Unvisited) by (apply Hpre; constructor).
  assert (Hlt : s < length m0) by (by eapply lookup_lt_Some).
  pose proof (bfs_inv_init adj m0 s Hnov Hpre) as Hinv.
  pose proof (count_unvisited_visit m0 s Hs).
  pose proof (count_unvisited_le m0).
  unfold component in Hc.
  assert (Hfin : bfs_inv adj m0 s [] m' members).
  { eapply bfs_fuel_enough; [done|exact Hinv| |exact Hc]. simpl. lia. }
  pose proof (bfs_inv_done adj m0 s _ _ Hfin) as Hmem.
  destruct Hfin as (? & ? & ? & ? & _).
  by split_and!.
Qed.

Lemma length_assign (members : list nat) (lab : Z) (m : list fstate) :
  length (assign members lab m) = length m.
Proof.
  unfold assign. revert m.
  induction members as [|v vs IH]; intros m; simpl; [done|].
  by rewrite IH, length_insert.
Qed.

Lemma assign_lookup (members : list nat) (lab : Z) (m : list fstate) (j : nat) :
  (forall v, v ∈ members -> v < length m) ->
  assign members lab m !! j =
    if decide (j ∈ members) then Some (Labeled lab) else m !! j.
Proof.
  unfold assign. revert m.
  induction members as [|v vs IH]; intros m Hlt; simpl.
  - try rewrite decide_False by set_solver; done.
  - rewrite IH by (intros u Hu; rewrite length_insert; apply Hlt; set_solver).
    destruct (decide (j = v)) as [->|Hne].
    + rewrite list_lookup_insert_eq by (apply Hlt; set_solver).
      repeat case_decide; try done; set_solver.
    + rewrite list_lookup_insert_ne by congruence.
      repeat case_decide; set_solver.
Qed.
