(* ===== verification/LabelPass.v ===== *)
(** * Correctness of the labeling pass and of the precondition check

    The loop invariant [loop_inv] of [Labeler.label_pass] after the seeds
    [0 .. i-1], its preservation by [Labeler.label_seed] (a new component
    or a skipped feature), the precondition check [Labeler.check_graph],
    and the properties of [Labeler.cluster_labels] they give: same
    cluster iff connected, noise iff a small component, total labeling,
    ids dense and in seed order, errors exactly on malformed relations,
    and the traversal's fuel bound. *)

From S2P Require Import Prelude Labeler Traversal.

(** ** The loop invariant *)

Section LoopInvariant.
Context (adj : graph) (min_size : nat).

(** The invariant after the seeds [0 .. i-1] have been processed. *)
Record loop_inv (i : nat) (st : lstate) : Prop := {
  li_len : length (marks st) = length adj;
  li_novis : forall j, marks st !! j <> Some Visited;
  li_unvisited : forall j k,
    marks st !! j = Some Unvisited -> reach adj j k -> i <= k;
  li_labeled : forall j z,
    marks st !! j = Some (Labeled z) -> exists k, k < i /\ reach adj j k;
  li_same : forall j j' z z',
    marks st !! j = Some (Labeled z) -> marks st !! j' = Some (Labeled z') ->
    (0 <= z)%Z -> (z = z' <-> reach adj j j');
  li_noise : forall j z (C : gset nat),
    marks st !! j = Some (Labeled z) -> (forall x, x ∈ C <-> reach adj j x) ->
    (z = -1)%Z <-> size C < min_size;
  li_range : forall j z,
    marks st !! j = Some (Labeled z) -> (z = -1 \/ 0 <= z < next_id st)%Z;
  li_dense : forall z, (0 <= z < next_id st)%Z ->
    exists j, marks st !! j = Some (Labeled z);
  li_order : forall j j' z z',
    marks st !! j = Some (Labeled z) -> marks st !! j' = Some (Labeled z') ->
    (0 <= z < z')%Z -> exists a, reach adj j a /\ forall b, reach adj j' b -> a < b;
  li_next : (0 <= next_id st)%Z
}.
End LoopInvariant.

(** ** Correctness of the labeling pass *)

Section Labeling.
Context (adj : graph) (min_size : nat).

(** The neighbor relation the labeler accepts: known ids, symmetric. *)
Hypothesis Hwf : forall u v, edge adj u v -> v < length adj.
Hypothesis Hsym : forall u v, edge adj u v -> edge adj v u.
Local Abbreviation loop_inv := (loop_inv adj min_size).

Lemma reach_sym (u v : nat) : reach adj u v -> reach adj v u.
Proof.
  induction 1 as [|x y z Hxy _ IH]; [constructor|].
  eapply rtc_r; [exact IH|]. by apply Hsym.
Qed.

Lemma reach_trans (u v w : nat) : reach adj u v -> reach adj v w -> reach adj u w.
Proof. apply rtc_trans. Qed.

Lemma reach_lt (u v : nat) : u < length adj -> reach adj u v -> v < length adj.
Proof. intros Hu Hr. induction Hr as [|x y z Hxy _ IH]; eauto. Qed.

Lemma loop_inv_init :
  loop_inv 0 (mk_lstate (replicate (length adj) Unvisited) 0).
Proof.
  split; simpl; intros *; rewrite ?lookup_replicate;
    try (intros [? ?]; congruence); try lia.
  by rewrite length_replicate.
Qed.

Lemma loop_inv_marks (i : nat) (st : lstate) (j : nat) :
  loop_inv i st -> j < length adj ->
  marks st !! j = Some Unvisited \/ exists z, marks st !! j = Some (Labeled z).
Proof.
  intros Hinv Hj. rewrite <- (li_len _ _ _ _ Hinv) in Hj.
  apply lookup_lt_is_Some in Hj as [[| |z] Hz]; eauto.
  exfalso. by apply (li_novis _ _ _ _ Hinv j).
Qed.

(** A seed already labeled is skipped. *)
Lemma loop_inv_skip (i : nat) (st : lstate) (z : Z) :
  loop_inv i st -> marks st !! i = Some (Labeled z) -> loop_inv (S i) st.
Proof.
  intros Hinv Hi. destruct Hinv. split; auto.
  - intros j k Hj Hr. pose proof (li_unvisited0 j k Hj Hr).
    destruct (decide (k = i)) as [->|]; [|lia].
    destruct (li_labeled0 _ _ Hi) as (k' & Hk' & Hr').
    pose proof (li_unvisited0 j k' Hj (reach_trans _ _ _ Hr Hr')). lia.
  - intros j z' Hj. destruct (li_labeled0 _ _ Hj) as (k & ? & ?).
    exists k. split; [lia|done].
Qed.

(** A seed still [Unvisited] starts a new component. *)
Section NewComponent.
Context (i : nat) (st : lstate) (m1 : list fstate) (members : list nat).
Hypothesis Hinv : loop_inv i st.
Hypothesis Hi : marks st !! i = Some Unvisited.
Hypothesis Hc : component adj (marks st) i = (m1, members).

Lemma nc_pre (x : nat) : reach adj i x -> marks st !! x = Some Unvisited.
Proof.
  intros Hx. assert (Hlt : x < length adj).
  { eapply reach_lt; [|exact Hx]. rewrite <- (li_len _ _ _ _ Hinv).
    by eapply lookup_lt_Some. }
  destruct (loop_inv_marks _ _ _ Hinv Hlt) as [?|[z Hz]]; [done|].
  destruct (li_labeled _ _ _ _ Hinv _ _ Hz) as (k & Hk & Hr).
  pose proof (li_unvisited _ _ _ _ Hinv i k Hi (reach_trans _ _ _ Hx Hr)). lia.
Qed.

Lemma nc_component :
  (forall j, j ∈ members <-> reach adj i j) /\ NoDup members /\
  length m1 = length (marks st) /\
  (forall j, m1 !! j = Some Visited <-> j ∈ members) /\
  (forall j, j ∉ members -> m1 !! j = marks st !! j).
Proof. apply component_spec; [apply (li_novis _ _ _ _ Hinv)|exact nc_pre|exact Hc]. Qed.

Lemma nc_lookup (lab : Z) (j : nat) :
  assign members lab m1 !! j =
    if decide (j ∈ members) then Some (Labeled lab) else marks st !! j.
Proof.
  destruct nc_component as (_ & _ & _ & Hvis & Hrest).
  rewrite assign_lookup.
  - case_decide; [done|]. by apply Hrest.
  - intros v Hv. apply Hvis in Hv. by eapply lookup_lt_Some.
Qed.

Lemma nc_old_not_member (j : nat) (z : Z) :
  marks st !! j = Some (Labeled z) -> j ∉ members.
Proof.
  intros Hj Hm. destruct nc_component as (Hmem & _).
  apply Hmem, nc_pre in Hm. congruence.
Qed.

(** The new component gets [lab]; [next'] is the next id after it. *)
Context (lab next' : Z).
Hypothesis Hlab :
  (min_size <= length members /\ lab = next_id st /\ next' = (next_id st + 1)%Z) \/
  (length members < min_size /\ lab = (-1)%Z /\ next' = next_id st).

Lemma nc_lab_nonneg :
  (0 <= lab)%Z ->
  lab = next_id st /\ next' = (next_id st + 1)%Z /\ min_size <= length members.
Proof.
  pose proof (li_next _ _ _ _ Hinv). intros.
  destruct Hlab as [(? & ? & ?)|(? & ? & ?)]; [done|lia].
Qed.

Lemma nc_member_reach (j j' : nat) :
  j ∈ members -> (reach adj j j' <-> j' ∈ members).
Proof.
  destruct nc_component as (Hmem & _). rewrite !Hmem. intros Hj.
  split; intros Hr; [by eapply reach_trans|].
  eapply reach_trans; [apply reach_sym|]; eauto.
Qed.

Lemma nc_same (j j' : nat) (z z' : Z) :
  assign members lab m1 !! j = Some (Labeled z) ->
  assign members lab m1 !! j' = Some (Labeled z') -> (0 <= z)%Z ->
  (z = z' <-> reach adj j j').
Proof.
  rewrite !nc_lookup. intros Hj Hj' Hz.
  destruct (decide (j ∈ members)) as [Hm|Hm], (decide (j' ∈ members)) as [Hm'|Hm'];
    cbn in Hj, Hj'.
  - injection Hj as <-. injection Hj' as <-. by rewrite nc_member_reach.
  - injection Hj as <-. destruct (nc_lab_nonneg Hz) as [-> _].
    pose proof (li_range _ _ _ _ Hinv _ _ Hj'). rewrite nc_member_reach by done.
    split; intros; [lia|done].
  - injection Hj' as <-. pose proof (li_range _ _ _ _ Hinv _ _ Hj).
    split; [intros; destruct Hlab as [(? & ? & ?)|(? & ? & ?)]; lia|].
    intros Hr. exfalso. apply Hm. rewrite <- (nc_member_reach j' j Hm'). by apply reach_sym.
  - by apply (li_same _ _ _ _ Hinv).
Qed.

Lemma nc_noise (j : nat) (z : Z) (C : gset nat) :
  assign members lab m1 !! j = Some (Labeled z) ->
  (forall x, x ∈ C <-> reach adj j x) -> ((z = -1)%Z <-> size C < min_size).
Proof.
  rewrite nc_lookup. intros Hj HC.
  destruct (decide (j ∈ members)) as [Hm|Hm]; cbn in Hj;
    [|by apply (li_noise _ _ _ _ Hinv j)].
  injection Hj as <-. destruct nc_component as (_ & Hnd & _).
  rewrite (size_gset_list C members Hnd)
    by (intros x; rewrite HC; by apply nc_member_reach).
  pose proof (li_next _ _ _ _ Hinv).
  destruct Hlab as [(? & ? & ?)|(? & ? & ?)]; split; lia.
Qed.

Lemma nc_range (j : nat) (z : Z) :
  assign members lab m1 !! j = Some (Labeled z) -> (z = -1 \/ 0 <= z < next')%Z.
Proof.
  rewrite nc_lookup. intros Hj. pose proof (li_next _ _ _ _ Hinv).
  destruct (decide (j ∈ members)); cbn in Hj.
  - injection Hj as <-. destruct Hlab as [(? & ? & ?)|(? & ? & ?)]; lia.
  - pose proof (li_range _ _ _ _ Hinv _ _ Hj).
    destruct Hlab as [(? & ? & ?)|(? & ? & ?)]; lia.
Qed.

Lemma nc_dense (z : Z) :
  (0 <= z < next')%Z -> exists j, assign members lab m1 !! j = Some (Labeled z).
Proof.
  intros Hz. destruct (decide (z < next_id st)%Z) as [Hlt|Hge].
  - destruct (li_dense _ _ _ _ Hinv z ltac:(lia)) as [j Hj]. exists j.
    rewrite nc_lookup. pose proof (nc_old_not_member j z Hj).
    by rewrite decide_False.
  - destruct Hlab as [(? & -> & ->)|(? & ? & ->)]; [|lia].
    exists i. rewrite nc_lookup, decide_True; [f_equal; f_equal; lia|].
    destruct nc_component as (Hmem & _). apply Hmem. constructor.
Qed.

Lemma nc_order (j j' : nat) (z z' : Z) :
  assign members lab m1 !! j = Some (Labeled z) ->
  assign members lab m1 !! j' = Some (Labeled z') -> (0 <= z < z')%Z ->
  exists a, reach adj j a /\ forall b, reach adj j' b -> a < b.
Proof.
  rewrite !nc_lookup. intros Hj Hj' Hz.
  destruct (decide (j ∈ members)) as [Hm|Hm], (decide (j' ∈ members)) as [Hm'|Hm'];
    cbn in Hj, Hj'.
  - injection Hj as <-. injection Hj' as <-. lia.
  - injection Hj as <-. destruct (nc_lab_nonneg ltac:(lia)) as [-> _].
    pose proof (li_range _ _ _ _ Hinv _ _ Hj'). lia.
  - injection Hj' as <-. destruct (li_labeled _ _ _ _ Hinv _ _ Hj) as (k & Hk & Hr).
    exists k. split; [done|]. intros b Hb.
    destruct nc_component as (Hmem & _). apply Hmem in Hm'.
    pose proof (li_unvisited _ _ _ _ Hinv i b Hi (reach_trans _ _ _ Hm' Hb)). lia.
  - by apply (li_order _ _ _ _ Hinv j j' z z').
Qed.

Lemma loop_inv_new : loop_inv (S i) (mk_lstate (assign members lab m1) next').
Proof.
  destruct nc_component as (Hmem & _ & Hlen & _).
  split; simpl.
  - by rewrite length_assign, Hlen, (li_len _ _ _ _ Hinv).
  - intros j. rewrite nc_lookup. case_decide; [congruence|apply (li_novis _ _ _ _ Hinv)].
  - intros j k Hj Hr. rewrite nc_lookup in Hj. case_decide as Hm; [congruence|].
    pose proof (li_unvisited _ _ _ _ Hinv j k Hj Hr).
    destruct (decide (k = i)) as [->|]; [|lia].
    exfalso. apply Hm, Hmem, reach_sym, Hr.
  - intros j z Hj. rewrite nc_lookup in Hj. case_decide as Hm.
    + exists i. split; [lia|]. by apply reach_sym, Hmem.
    + destruct (li_labeled _ _ _ _ Hinv _ _ Hj) as (k & ? & ?). exists k. split; [lia|done].
  - apply nc_same.
  - apply nc_noise.
  - apply nc_range.
  - apply nc_dense.
  - apply nc_order.
  - pose proof (li_next _ _ _ _ Hinv). destruct Hlab as [(? & ? & ?)|(? & ? & ?)]; lia.
Qed.
End NewComponent.

Lemma label_seed_inv (i : nat) (st : lstate) :
  loop_inv i st -> i < length adj -> loop_inv (S i) (label_seed adj min_size st i).
Proof.
  intros Hinv Hi. unfold label_seed.
  destruct (loop_inv_marks _ _ _ Hinv Hi) as [Hu|[z Hz]]; [rewrite Hu|rewrite Hz].
  - destruct (component adj (marks st) i) as [m1 members] eqn:Hc.
    case_decide; apply (loop_inv_new i st m1 members Hinv Hu Hc).
    + left. split_and!; auto.
    + right. split_and!; auto; lia.
  - by eapply loop_inv_skip.
Qed.

Lemma label_pass_inv : loop_inv (length adj) (label_pass adj min_size).
Proof.
  unfold label_pass.
  assert (Hgen : forall k i st, loop_inv i st -> i + k = length adj ->
    loop_inv (length adj) (foldl (label_seed adj min_size) st (seq i k))).
  { induction k as [|k IH]; intros i st Hinv Hik; simpl.
    - by replace (length adj) with i by lia.
    - apply IH; [apply label_seed_inv; [done|lia]|lia]. }
  apply Hgen; [apply loop_inv_init|lia].
Qed.

(** After the pass no feature is [Unvisited] or [Visited]. *)
Lemma label_pass_labeled (j : nat) :
  j < length adj -> exists z, marks (label_pass adj min_size) !! j = Some (Labeled z).
Proof.
  intros Hj. pose proof label_pass_inv as Hinv.
  destruct (loop_inv_marks _ _ _ Hinv Hj) as [Hu|?]; [|done].
  pose proof (li_unvisited _ _ _ _ Hinv j j Hu ltac:(constructor)). lia.
Qed.
End Labeling.

(** ** The precondition check *)

Lemma check_nbrs_ok (adj : graph) (v : nat) (ws : list nat) :
  check_nbrs adj v ws = Ok tt <->
  forall w, w ∈ ws -> w < length adj /\ v ∈ nbrs adj w.
Proof.
  induction ws as [|w ws IH]; simpl.
  - split; [intros _ w Hw; set_solver|done].
  - case_decide as Hge.
    + split; [discriminate|]. intros Hall. destruct (Hall w) as [? _]; [set_solver|lia].
    + case_decide as Hin.
      * rewrite IH. split.
        -- intros Hall x Hx. apply elem_of_cons in Hx as [->|Hx]; [split; [lia|done]|auto].
        -- intros Hall x Hx. apply Hall. set_solver.
      * split; [discriminate|]. intros Hall. destruct (Hall w) as [_ ?]; [set_solver|done].
Qed.

Lemma check_graph_from_ok (adj : graph) (v : nat) (rest : list (list nat)) :
  check_graph_from adj v rest = Ok tt <->
  forall k ws w, rest !! k = Some ws -> w ∈ ws ->
    w < length adj /\ (v + k) ∈ nbrs adj w.
Proof.
  revert v. induction rest as [|ws rest IH]; intros v; simpl; [split; [done|intros; done]|].
  destruct (check_nbrs adj v ws) as [[]|e] eqn:Hc.
  - rewrite IH. pose proof (proj1 (check_nbrs_ok adj v ws) Hc) as Hws. split.
    + intros H [|k] ws' w Hk Hw; simpl in Hk.
      * injection Hk as <-. rewrite Nat.add_0_r. by apply Hws.
      * replace (v + S k) with (S v + k) by lia. by apply (H k ws' w).
    + intros H k ws' w Hk Hw. replace (S v + k) with (v + S k) by lia.
      by apply (H (S k) ws' w).
  - split; [discriminate|]. intros H. exfalso.
    assert (check_nbrs adj v ws = Ok tt) as Hok; [|congruence].
    apply check_nbrs_ok. intros w Hw. rewrite <- (Nat.add_0_r v). by apply (H 0 ws w).
Qed.

Lemma check_graph_ok (adj : graph) :
  check_graph adj = Ok tt <->
  forall u v, edge adj u v -> v < length adj /\ edge adj v u.
Proof.
  unfold check_graph. rewrite check_graph_from_ok. unfold edge, nbrs. split.
  - intros H u v Huv. destruct (adj !! u) as [ws|] eqn:Hu; simpl in Huv; [|set_solver].
    exact (H u ws v Hu Huv).
  - intros H k ws w Hk Hw. apply (H k w). by rewrite Hk.
Qed.

(** Once the queue is empty, more fuel changes nothing. *)
Lemma bfs_fuel_stable (adj : graph) (m0 : list fstate) (s : nat)
    (fuel fuel' : nat) (q : list nat) (m : list fstate) (mem : list nat) :
  (forall j, reach adj s j -> m0 !! j = Some Unvisited) ->
  bfs_inv adj m0 s q m mem -> count_unvisited m + length q < fuel -> fuel <= fuel' ->
  bfs adj fuel' q m mem = bfs adj fuel q m mem.
Proof.
  intros Hpre. revert fuel' q m mem.
  induction fuel as [|fuel IH]; intros [|fuel'] q m mem Hinv Hlt Hle; try lia.
  destruct q as [|v q]; simpl; [done|].
  destruct (visit_nbrs (nbrs adj v) m q mem) as [[m' q'] mem'] eqn:Hv.
  destruct (bfs_inv_step adj m0 s Hpre _ _ _ _ _ _ _ Hinv Hv) as [Hinv' Hdec].
  apply IH; [done| |lia]. simpl in *. lia.
Qed.

(** ** Properties of the labeling *)

Section Output.
Context (adj : graph) (min_size : nat) (l : list Z).
Hypothesis Hok : cluster_labels adj min_size = Ok l.

Lemma cluster_labels_graph :
  (forall u v, edge adj u v -> v < length adj) /\
  (forall u v, edge adj u v -> edge adj v u).
Proof.
  unfold cluster_labels in Hok. destruct (check_graph adj) as [[]|] eqn:Hc; [|done].
  pose proof (proj1 (check_graph_ok adj) Hc) as Hg. split; intros u v Huv; apply (Hg u v Huv).
Qed.

Lemma cluster_labels_lookup (j : nat) (z : Z) :
  l !! j = Some z <-> marks (label_pass adj min_size) !! j = Some (Labeled z).
Proof.
  destruct cluster_labels_graph as [Hwf Hsym].
  unfold cluster_labels in Hok. destruct (check_graph adj) as [[]|]; [|done].
  injection Hok as <-. rewrite list_lookup_fmap.
  destruct (marks (label_pass adj min_size) !! j) as [st|] eqn:Hj; simpl;
    [|split; discriminate].
  assert (Hlt : j < length adj).
  { rewrite <- (li_len adj min_size _ _ (label_pass_inv adj min_size Hwf Hsym)).
    by eapply lookup_lt_Some. }
  destruct (label_pass_labeled adj min_size Hwf Hsym j Hlt) as [z' Hz'].
  rewrite Hz' in Hj. injection Hj as <-. simpl. split; congruence.
Qed.

Lemma cluster_labels_inv : loop_inv adj min_size (length adj) (label_pass adj min_size).
Proof.
  destruct cluster_labels_graph as [Hwf Hsym]. by apply label_pass_inv.
Qed.
End Output.

(** Reachability on a concrete graph is decided by the traversal. *)
Lemma reach_members (adj : graph) (s : nat) :
  s < length adj -> (forall u v, edge adj u v -> v < length adj) ->
  forall x, reach adj s x <-> x ∈ (component adj (replicate (length adj) Unvisited) s).2.
Proof.
  intros Hs Hwf x.
  destruct (component adj (replicate (length adj) Unvisited) s) as [m' mem] eqn:Hc.
  destruct (component_spec adj (replicate (length adj) Unvisited) s m' mem)
    as [Hmem _]; [| |exact Hc|by rewrite Hmem].
  - intros j. rewrite lookup_replicate. intros [? ?]; congruence.
  - intros j Hj. apply lookup_replicate_2. by eapply reach_lt.
Qed.

(** Two features carry the same non-negative cluster
    id exactly when they are connected in the neighbor relation. *)
Theorem cluster_labels_same_cluster (adj : graph) (min_size : nat) (l : list Z)
    (i j : nat) (zi zj : Z) :
  cluster_labels adj min_size = Ok l ->
  l !! i = Some zi -> l !! j = Some zj -> (0 <= zi)%Z ->
  (zi = zj <-> reach adj i j).
Proof.
  intros Hok Hi Hj Hz. rewrite (cluster_labels_lookup _ _ _ Hok) in Hi, Hj.
  exact (li_same _ _ _ _ (cluster_labels_inv _ _ _ Hok) i j zi zj Hi Hj Hz).
Qed.

Lemma cluster_labels_same_cluster_witness :
  reach [[1]; [0; 2]; [1]; []; [5]; [4]] 0 2.
Proof.
  apply (cluster_labels_same_cluster [[1]; [0; 2]; [1]; []; [5]; [4]] 2
           [0; 0; 0; -1; 1; 1]%Z 0 2 0 0); try reflexivity; lia.
Defined.

(** A feature is labeled -1 exactly when its connected
    component has fewer than [min_size] members; a component of exactly
    [min_size] members is a cluster. *)
Theorem cluster_labels_noise (adj : graph) (min_size : nat) (l : list Z)
    (i : nat) (z : Z) (C : gset nat) :
  cluster_labels adj min_size = Ok l -> l !! i = Some z ->
  (forall x, x ∈ C <-> reach adj i x) ->
  ((z = -1)%Z <-> size C < min_size).
Proof.
  intros Hok Hi HC. rewrite (cluster_labels_lookup _ _ _ Hok) in Hi.
  exact (li_noise _ _ _ _ (cluster_labels_inv _ _ _ Hok) i z C Hi HC).
Qed.

Lemma cluster_labels_noise_witness :
  ((0 = -1)%Z <-> size ({[0; 1]} : gset nat) < 2).
Proof.
  apply (cluster_labels_noise [[1]; [0]] 2 [0; 0]%Z 0 0 {[0; 1]});
    [reflexivity|reflexivity|].
  intros x. rewrite reach_members by (simpl; try lia; intros u v Huv;
    destruct u as [|[|]]; unfold edge, nbrs in Huv; simpl in Huv; set_solver).
  change ((component [[1]; [0]] (replicate 2 Unvisited) 0).2) with [0; 1].
  set_solver.
Defined.

(** Every feature receives exactly one label, which is -1
    or a non-negative cluster id. *)
Theorem cluster_labels_total (adj : graph) (min_size : nat) (l : list Z) :
  cluster_labels adj min_size = Ok l ->
  length l = length adj /\ forall j z, l !! j = Some z -> (z = -1 \/ 0 <= z)%Z.
Proof.
  intros Hok. pose proof (cluster_labels_inv _ _ _ Hok) as Hinv. split.
  - unfold cluster_labels in Hok. destruct (check_graph adj) as [[]|]; [|done].
    injection Hok as <-. by rewrite length_fmap, (li_len _ _ _ _ Hinv).
  - intros j z Hj. rewrite (cluster_labels_lookup _ _ _ Hok) in Hj.
    destruct (li_range _ _ _ _ Hinv j z Hj); lia.
Qed.

Lemma cluster_labels_total_witness :
  length ([0; 1]%Z) = length ([[]; []] : graph) /\
  forall j z, [0; 1]%Z !! j = Some z -> (z = -1 \/ 0 <= z)%Z.
Proof. apply (cluster_labels_total [[]; []] 1). reflexivity. Defined.

(** Cluster ids are issued in the order of the
    lowest-indexed feature of each cluster: a smaller id belongs to a
    cluster holding a feature below every feature of the larger one. *)
Theorem cluster_labels_seed_order (adj : graph) (min_size : nat) (l : list Z)
    (i j : nat) (zi zj : Z) :
  cluster_labels adj min_size = Ok l ->
  l !! i = Some zi -> l !! j = Some zj -> (0 <= zi < zj)%Z ->
  exists a, reach adj i a /\ forall b, reach adj j b -> a < b.
Proof.
  intros Hok Hi Hj Hz. rewrite (cluster_labels_lookup _ _ _ Hok) in Hi, Hj.
  exact (li_order _ _ _ _ (cluster_labels_inv _ _ _ Hok) i j zi zj Hi Hj Hz).
Qed.

Lemma cluster_labels_seed_order_witness :
  exists a, reach [[1]; [0; 2]; [1]; []; [5]; [4]] 0 a /\
    forall b, reach [[1]; [0; 2]; [1]; []; [5]; [4]] 4 b -> a < b.
Proof.
  apply (cluster_labels_seed_order [[1]; [0; 2]; [1]; []; [5]; [4]] 2
           [0; 0; 0; -1; 1; 1]%Z 0 4 0 1); try reflexivity; lia.
Defined.

(** Cluster ids are dense from 0: below every issued id,
    every non-negative id is issued to some feature. *)
Theorem cluster_labels_dense (adj : graph) (min_size : nat) (l : list Z)
    (i : nat) (z z' : Z) :
  cluster_labels adj min_size = Ok l -> l !! i = Some z -> (0 <= z' <= z)%Z ->
  exists j, l !! j = Some z'.
Proof.
  intros Hok Hi Hz. pose proof (cluster_labels_inv _ _ _ Hok) as Hinv.
  rewrite (cluster_labels_lookup _ _ _ Hok) in Hi.
  destruct (li_range _ _ _ _ Hinv i z Hi) as [->|Hr]; [lia|].
  destruct (li_dense _ _ _ _ Hinv z' ltac:(lia)) as [j Hj].
  exists j. by apply (cluster_labels_lookup _ _ _ Hok).
Qed.

Lemma cluster_labels_dense_witness :
  exists j, ([0; 0; 0; -1; 1; 1]%Z : list Z) !! j = Some 0%Z.
Proof.
  apply (cluster_labels_dense [[1]; [0; 2]; [1]; []; [5]; [4]] 2
           [0; 0; 0; -1; 1; 1]%Z 4 1 0); try reflexivity; lia.
Defined.

(** The labeler fails exactly on a malformed neighbor
    relation: an unknown neighbor id or an edge without its reverse. *)
Theorem cluster_labels_malformed (adj : graph) (min_size : nat) :
  is_ok (cluster_labels adj min_size) = true <->
  forall u v, edge adj u v -> v < length adj /\ edge adj v u.
Proof.
  rewrite <- check_graph_ok. unfold cluster_labels.
  destruct (check_graph adj) as [[]|e]; simpl; split; congruence.
Qed.

(** The breadth-first traversal from a seed
    whose component is unvisited finishes within [S (length m)]
    dequeues: any larger fuel gives the same result. *)
Theorem component_terminates (adj : graph) (m : list fstate) (s extra : nat) :
  (forall j, m !! j <> Some Visited) ->
  (forall j, reach adj s j -> m !! j = Some Unvisited) ->
  bfs adj (S (length m) + extra) [s] (<[s := Visited]> m) [s] = component adj m s.
Proof.
  intros Hnov Hpre. unfold component.
  assert (Hs : m !! s = Some Unvisited) by (apply Hpre; constructor).
  pose proof (count_unvisited_visit m s Hs). pose proof (count_unvisited_le m).
  eapply bfs_fuel_stable; [exact Hpre| |simpl; lia|lia].
  by apply bfs_inv_init.
Qed.

Lemma component_terminates_witness :
  bfs [[1]; [0]; []] (S 3 + 5) [0] (<[0 := Visited]> (replicate 3 Unvisited)) [0] =
  component [[1]; [0]; []] (replicate 3 Unvisited) 0.
Proof.
  apply (component_terminates [[1]; [0]; []] (replicate 3 Unvisited) 0 5).
  - intros j. rewrite lookup_replicate. intros [? ?]; congruence.
  - intros j Hj. apply lookup_replicate_2.
    apply (reach_lt [[1]; [0]; []]) with (u := 0); [|simpl; lia|exact Hj].
    intros u v Huv. destruct u as [|[|[|u]]]; unfold edge, nbrs in Huv;
      simpl in *; set_solver.
Defined.
