(* ===== verification/Geometry.v ===== *)
(** * Geometry Overlap Evaluator (spec section 4.1)

    The engine compares polygons through a polygon library (shapely in
    the Python ecosystem); this file states what the evaluator needs of
    one as the class [Geometry] with its laws [GeometryLaws]: twice the
    area of a polygon, twice the area of the intersection of two, the
    bounding box, the centroid.  Areas are doubled so that polygons with
    integer vertices have integer areas.  The overlap score is the
    intersection over the union, in [Q], and 0 when the union is empty
    (a degenerate pair).  [rect] is an instance: axis-aligned
    rectangles with integer corners. *)

From S2P Require Import Prelude.
From Stdlib Require Import QArith.
Local Close Scope Q_scope.
Local Open Scope Z_scope.

(** ** Bounding boxes *)

Record box : Type := mk_box { bx_minx : Z; bx_miny : Z; bx_maxx : Z; bx_maxy : Z }.

Definition box_intersects (a b : box) : bool :=
  (bx_minx a <=? bx_maxx b) && (bx_minx b <=? bx_maxx a) &&
  (bx_miny a <=? bx_maxy b) && (bx_miny b <=? bx_maxy a).

(** ** The polygon interface *)

Class Geometry (G : Type) : Type := {
  geom_bbox : G -> box;
  geom_area2 : G -> Z;
  geom_inter2 : G -> G -> Z;
  geom_centroid : G -> Q * Q
}.

Class GeometryLaws (G : Type) `{Geometry G} : Prop := {
  area2_nonneg : forall a, 0 <= geom_area2 a;
  inter2_comm : forall a b, geom_inter2 a b = geom_inter2 b a;
  inter2_nonneg : forall a b, 0 <= geom_inter2 a b;
  inter2_le_area : forall a b, geom_inter2 a b <= geom_area2 a;
  inter2_disjoint : forall a b,
    box_intersects (geom_bbox a) (geom_bbox b) = false -> geom_inter2 a b = 0
}.

Section Overlap.
Context {G : Type} `{Geometry G}.

(** Intersection over union; 0 for an empty union. *)
Definition overlap (a b : G) : Q :=
  let i := geom_inter2 a b in
  let u := geom_area2 a + geom_area2 b - i in
  if u <=? 0 then 0%Q else Qmake i (Z.to_pos u).

(** A polygon of zero area: its comparisons are reported as warnings. *)
Definition degenerate (a : G) : bool := geom_area2 a =? 0.

(** [overlap(A, B) >= overlap_threshold] *)
Definition overlaps (thr : Q) (a b : G) : bool := Qle_bool thr (overlap a b).
End Overlap.

(** ** Axis-aligned rectangles *)

Record rect : Type := mk_rect { rx1 : Z; ry1 : Z; rx2 : Z; ry2 : Z }.

(** The length of [[lo1, hi1]] inside [[lo2, hi2]], 0 when they miss. *)
Definition seg_inter (lo1 hi1 lo2 hi2 : Z) : Z := Z.max 0 (Z.min hi1 hi2 - Z.max lo1 lo2).

#[export] Instance rect_geometry : Geometry rect := {
  geom_bbox r := mk_box (rx1 r) (ry1 r) (rx2 r) (ry2 r);
  geom_area2 r := 2 * (Z.max 0 (rx2 r - rx1 r) * Z.max 0 (ry2 r - ry1 r));
  geom_inter2 a b := 2 * (seg_inter (rx1 a) (rx2 a) (rx1 b) (rx2 b) *
                          seg_inter (ry1 a) (ry2 a) (ry1 b) (ry2 b));
  geom_centroid r := (Qmake (rx1 r + rx2 r) 2, Qmake (ry1 r + ry2 r) 2)
}.

#[export] Instance rect_geometry_laws : GeometryLaws rect.
Proof.
  split; intros; simpl; unfold seg_inter.
  - nia.
  - f_equal. rewrite (Z.min_comm (rx2 b)), (Z.max_comm (rx1 b)),
      (Z.min_comm (ry2 b)), (Z.max_comm (ry1 b)). reflexivity.
  - nia.
  - apply Z.mul_le_mono_nonneg_l; [lia|].
    apply Z.mul_le_mono_nonneg; lia.
  - unfold box_intersects in *. simpl in *.
    repeat rewrite andb_false_iff in *. rewrite !Z.leb_gt in *. nia.
Qed.

Example rect_overlap_half :
  (overlap (mk_rect 0 0 2 2) (mk_rect 1 0 3 2) == Qmake 1 3)%Q.
Proof. reflexivity. Qed.

(** ** Properties of the evaluator *)

Section OverlapLemmas.
Context {G : Type} `{GeometryLaws G}.

Lemma overlap_comm (a b : G) : overlap a b = overlap b a.
Proof. unfold overlap. by rewrite inter2_comm, (Z.add_comm (geom_area2 a)). Qed.

Lemma overlaps_comm (thr : Q) (a b : G) : overlaps thr a b = overlaps thr b a.
Proof. unfold overlaps. by rewrite overlap_comm. Qed.

Lemma overlap_bounds (a b : G) : (0 <= overlap a b <= 1)%Q.
Proof.
  unfold overlap. pose proof (inter2_nonneg a b). pose proof (inter2_le_area a b).
  pose proof (inter2_le_area b a) as Hb. rewrite (inter2_comm b a) in Hb.
  destruct (_ <=? 0) eqn:Hu; bool_to_prop; [split; discriminate|].
  unfold Qle; simpl; rewrite Z2Pos.id by lia; split; lia.
Qed.

Lemma overlap_disjoint (a b : G) :
  box_intersects (geom_bbox a) (geom_bbox b) = false -> (overlap a b == 0)%Q.
Proof.
  intros Hd. unfold overlap. rewrite (inter2_disjoint a b Hd).
  destruct (_ <=? 0); reflexivity.
Qed.

Lemma overlaps_disjoint (thr : Q) (a b : G) :
  (0 < thr)%Q -> box_intersects (geom_bbox a) (geom_bbox b) = false ->
  overlaps thr a b = false.
Proof.
  intros Hthr Hd. unfold overlaps. apply not_true_iff_false. rewrite Qle_bool_iff.
  rewrite (overlap_disjoint a b Hd). apply Qlt_not_le, Hthr.
Qed.
(** At threshold zero every pair of geometries overlaps. *)
Lemma overlaps_zero (a b : G) : overlaps 0 a b = true.
Proof. unfold overlaps. apply Qle_bool_iff, overlap_bounds. Qed.
End OverlapLemmas.

Lemma box_intersects_comm (a b : box) : box_intersects a b = box_intersects b a.
Proof. unfold box_intersects. destruct (bx_minx a <=? _), (bx_minx b <=? _), (bx_miny a <=? _), (bx_miny b <=? _); reflexivity. Qed.
