(* ===== verification/Temporal.v ===== *)
(** * Temporal Proximity Evaluator (spec section 4.2)

    Timestamps are integer seconds on one absolute time line (the
    normalisation to one reference that the spec requires happens when a
    datetime is read).  Two timestamps are close when they differ by at
    most the threshold; a feature without a timestamp is close to every
    other one. *)

From S2P Require Import Prelude.
Local Open Scope Z_scope.

(** [close(t1, t2, threshold)] *)
Definition close (t1 t2 thr : Z) : bool := Z.abs (t1 - t2) <=? thr.

(** The temporal filter with optional timestamps. *)
Definition time_compatible (o1 o2 : option Z) (thr : Z) : bool :=
  match o1, o2 with
  | Some t1, Some t2 => close t1 t2 thr
  | _, _ => true
  end.

Lemma close_comm (t1 t2 thr : Z) : close t1 t2 thr = close t2 t1 thr.
Proof. unfold close. by rewrite Z_abs_sub_comm. Qed.

Lemma time_compatible_comm (o1 o2 : option Z) (thr : Z) :
  time_compatible o1 o2 thr = time_compatible o2 o1 thr.
Proof. destruct o1, o2; simpl; auto using close_comm. Qed.

(** A zero threshold accepts equal timestamps only. *)
Lemma close_zero (t1 t2 : Z) : close t1 t2 0 = true <-> t1 = t2.
Proof. unfold close. rewrite Z.leb_le. lia. Qed.

Lemma close_spec (t1 t2 thr : Z) : close t1 t2 thr = true <-> t1 - thr <= t2 <= t1 + thr.
Proof. unfold close. rewrite Z.leb_le. lia. Qed.
