(* ===== verification/SpatialIndex.v ===== *)
(** * Spatial Index (spec section 4.3)

    A sort-and-sweep index on the bounding boxes: the entries
    [(box, id)] sorted by the left edge of the box.  A query walks the
    entries in that order, keeps the boxes that meet the query box, and
    stops at the first box that starts right of it: every later box does
    too.  The contract the spec asks for is that no true candidate is
    missed; this index returns exactly the boxes that meet the query. *)

From S2P Require Import Prelude Geometry.
Local Open Scope Z_scope.

Definition entry : Type := box * nat.

Definition minx_le (e1 e2 : entry) : Prop := bx_minx e1.1 <= bx_minx e2.1.

#[export] Instance minx_le_dec : RelDecision minx_le.
Proof. intros e1 e2. unfold minx_le. apply _. Defined.

(** Build once: entry [i] is the box of feature [i]. *)
Definition build_index (bs : list box) : list entry :=
  merge_sort minx_le (imap (fun i b => (b, i)) bs).

(** Walk the sorted entries, stop past the query's right edge. *)
Fixpoint sweep (q : box) (idx : list entry) : list nat :=
  match idx with
  | [] => []
  | (b, i) :: rest =>
      if bx_maxx q <? bx_minx b then []
      else if box_intersects b q then i :: sweep q rest else sweep q rest
  end.

Definition query (idx : list entry) (q : box) : list nat := sweep q idx.

(** The reference: test every box. *)
Definition query_all (bs : list box) (q : box) : list nat :=
  filter (fun i => (match bs !! i with Some b => box_intersects b q | None => false end) = true)
    (seq 0 (length bs)).

#[export] Instance minx_le_trans : Transitive minx_le.
Proof. intros x y z. unfold minx_le. lia. Qed.

#[export] Instance minx_le_total : Total minx_le.
Proof. intros x y. unfold minx_le. lia. Qed.

Lemma box_intersects_minx (b q : box) :
  bx_maxx q < bx_minx b -> box_intersects b q = false.
Proof.
  intros H. unfold box_intersects. rewrite (proj2 (Z.leb_gt _ _) H).
  by rewrite !andb_false_l.
Qed.

Lemma sweep_spec (q : box) (idx : list entry) (i : nat) :
  StronglySorted minx_le idx ->
  i ∈ sweep q idx <-> exists b, (b, i) ∈ idx /\ box_intersects b q = true.
Proof.
  induction idx as [|[b j] rest IH]; intros Hs; simpl.
  - split; [set_solver|]. intros (b & Hb & _). set_solver.
  - apply StronglySorted_inv in Hs as [Hs Hall].
    destruct (bx_maxx q <? bx_minx b) eqn:Hstop; bool_to_prop.
    + split; [set_solver|]. intros (b' & Hb' & Hi).
      apply elem_of_cons in Hb' as [[= -> ->]|Hb'].
      * by rewrite box_intersects_minx in Hi.
      * rewrite Forall_forall in Hall.
        specialize (Hall _ Hb'). unfold minx_le in Hall. simpl in Hall.
        rewrite box_intersects_minx in Hi by lia. discriminate.
    + destruct (box_intersects b q) eqn:Hbq.
      * rewrite elem_of_cons, IH by done. split.
        -- intros [->|(b' & ? & ?)]; [exists b; split; [set_solver|done]|].
           exists b'. split; [set_solver|done].
        -- intros (b' & Hb' & Hi). apply elem_of_cons in Hb' as [[= -> ->]|Hb'];
             [by left|right; eauto].
      * rewrite IH by done. split.
        -- intros (b' & ? & ?). exists b'. split; [set_solver|done].
        -- intros (b' & Hb' & Hi). apply elem_of_cons in Hb' as [[= -> ->]|Hb'];
             [congruence|eauto].
Qed.

Lemma build_index_entries (bs : list box) (b : box) (i : nat) :
  (b, i) ∈ build_index bs <-> bs !! i = Some b.
Proof.
  unfold build_index. rewrite (merge_sort_Permutation _ _), elem_of_lookup_imap.
  split; [intros (j & b' & [= -> ->] & Hj); done|intros Hb; eauto].
Qed.

(** The index answers a query with exactly the features whose box meets
    the query box: no candidate is missed and none is invented. *)
Lemma query_spec (bs : list box) (q : box) (i : nat) :
  i ∈ query (build_index bs) q <-> exists b, bs !! i = Some b /\ box_intersects b q = true.
Proof.
  unfold query. rewrite sweep_spec by (apply StronglySorted_merge_sort; apply _).
  setoid_rewrite build_index_entries. done.
Qed.

(** The sweep agrees with testing every box. *)
Lemma query_query_all (bs : list box) (q : box) (i : nat) :
  i ∈ query (build_index bs) q <-> i ∈ query_all bs q.
Proof.
  rewrite query_spec. unfold query_all. rewrite list_elem_of_filter, elem_of_seq.
  split.
  - intros (b & Hb & Hi). rewrite Hb. split; [done|]. apply lookup_lt_Some in Hb. lia.
  - intros [Hi Hlt]. destruct (bs !! i) as [b|] eqn:Hb; [eauto|done].
Qed.

(** ** Example *)

Example query_ex :
  query (build_index [mk_box 5 0 6 1; mk_box 0 0 2 2; mk_box 1 1 3 3]) (mk_box 2 2 4 4) = [1; 2]%nat.
Proof. reflexivity. Qed.
