(* ===== verification/NeighborGraph.v ===== *)
(** * Neighbor Graph Builder (spec section 4.4)

    For each feature [i], the builder queries the spatial index with the
    bounding box of [i], keeps the candidates [j > i] whose polygon
    overlaps that of [i] at least as much as the threshold and whose
    timestamp is close, and records the edge [(i, j)].  The adjacency
    lists the labeler reads get [j] appended to the list of [i] and [i]
    to the list of [j], edge by edge. *)

From S2P Require Import Prelude Labeler LabelPass Geometry Temporal SpatialIndex.
From Stdlib Require Import QArith.
Local Close Scope Q_scope.

Record feature (G : Type) : Type := mk_feature { ft_geom : G; ft_time : option Z }.
Arguments mk_feature {G} _ _.
Arguments ft_geom {G} _.
Arguments ft_time {G} _.

Section Builder.
Context {G : Type} `{Geometry G}.

(** Both filters of the neighbor relation (spec section 3). *)
Definition is_neighbor (time_thr : Z) (ov_thr : Q) (a b : feature G) : bool :=
  overlaps ov_thr (ft_geom a) (ft_geom b) && time_compatible (ft_time a) (ft_time b) time_thr.

Definition feature_bbox (f : feature G) : box := geom_bbox (ft_geom f).

(** The edges found from feature [i]. *)
Definition edges_from (fs : list (feature G)) (idx : list entry) (time_thr : Z) (ov_thr : Q)
    (i : nat) (fi : feature G) : list (nat * nat) :=
  omap (fun j =>
          if decide (i < j) then
            match fs !! j with
            | Some fj => if is_neighbor time_thr ov_thr fi fj then Some (i, j) else None
            | None => None
            end
          else None)
       (query idx (feature_bbox fi)).

(** The edge list, discovered feature by feature in input order. *)
Definition neighbor_edges (fs : list (feature G)) (time_thr : Z) (ov_thr : Q)
    : list (nat * nat) :=
  let idx := build_index (feature_bbox <$> fs) in
  mjoin (imap (edges_from fs idx time_thr ov_thr) fs).

Definition add_edge (adj : graph) (e : nat * nat) : graph :=
  let '(i, j) := e in alter (fun l => l ++ [i]) j (alter (fun l => l ++ [j]) i adj).

Definition adjacency (n : nat) (es : list (nat * nat)) : graph :=
  foldl add_edge (replicate n []) es.

Definition neighbor_graph (fs : list (feature G)) (time_thr : Z) (ov_thr : Q) : graph :=
  adjacency (length fs) (neighbor_edges fs time_thr ov_thr).

(** The neighbor relation the builder computes, as a predicate. *)
Definition neighbor_rel (fs : list (feature G)) (time_thr : Z) (ov_thr : Q) (i j : nat) : Prop :=
  i <> j /\ exists fi fj, fs !! i = Some fi /\ fs !! j = Some fj /\
    box_intersects (feature_bbox fi) (feature_bbox fj) = true /\
    is_neighbor time_thr ov_thr fi fj = true.
End Builder.

Example neighbor_graph_ex :
  neighbor_graph [mk_feature (mk_rect 0 0 2 2) (Some 0%Z); mk_feature (mk_rect 1 0 3 2) (Some 10%Z);
                  mk_feature (mk_rect 2 0 4 2) (Some 20%Z)] 10 (1 # 4) = [[1]; [0; 2]; [1]].
Proof. reflexivity. Qed.

(** ** Lemmas *)

Section BuilderLemmas.
Context {G : Type} `{GeometryLaws G}.

Lemma is_neighbor_comm (tthr : Z) (othr : Q) (a b : feature G) :
  is_neighbor tthr othr a b = is_neighbor tthr othr b a.
Proof. unfold is_neighbor. by rewrite overlaps_comm, time_compatible_comm. Qed.

Lemma neighbor_edges_spec (fs : list (feature G)) (tthr : Z) (othr : Q) (i j : nat) :
  (i, j) ∈ neighbor_edges fs tthr othr <->
  i < j /\ exists fi fj, fs !! i = Some fi /\ fs !! j = Some fj /\
    box_intersects (feature_bbox fi) (feature_bbox fj) = true /\
    is_neighbor tthr othr fi fj = true.
Proof.
  unfold neighbor_edges. rewrite list_elem_of_join. split.
  - intros (l & Hin & Hl). apply elem_of_lookup_imap in Hl as (i' & fi & -> & Hfi).
    unfold edges_from in Hin. apply list_elem_of_omap in Hin as (j' & Hq & Hj').
    case_decide; [|done]. destruct (fs !! j') as [fj|] eqn:Hfj; [|done].
    destruct (is_neighbor tthr othr fi fj) eqn:Hn; [|done]. injection Hj' as <- <-.
    apply query_spec in Hq as (b & Hb & Hbi).
    rewrite list_lookup_fmap, Hfj in Hb. injection Hb as <-.
    split; [done|]. exists fi, fj. rewrite box_intersects_comm. done.
  - intros (Hlt & fi & fj & Hfi & Hfj & Hbox & Hn).
    exists (edges_from fs (build_index (feature_bbox <$> fs)) tthr othr i fi). split.
    + apply list_elem_of_omap. exists j. split.
      * apply query_spec. exists (feature_bbox fj).
        rewrite list_lookup_fmap, Hfj, box_intersects_comm. done.
      * rewrite decide_True by done. by rewrite Hfj, Hn.
    + by apply elem_of_lookup_imap_2.
Qed.

Lemma nbrs_alter_snoc (adj : graph) (i x u v : nat) :
  i < length adj ->
  v ∈ nbrs (alter (fun l => l ++ [x]) i adj) u <-> v ∈ nbrs adj u \/ (u = i /\ v = x).
Proof.
  intros Hi. unfold nbrs. rewrite list_lookup_alter. case_decide as Hu; [subst u|naive_solver].
  apply lookup_lt_is_Some in Hi as [l Hl]. rewrite Hl. simpl. set_solver.
Qed.

Lemma nbrs_foldl_add_edge (adj : graph) (es : list (nat * nat)) (u v : nat) :
  (forall i j, (i, j) ∈ es -> i < length adj /\ j < length adj) ->
  v ∈ nbrs (foldl add_edge adj es) u <->
  v ∈ nbrs adj u \/ (u, v) ∈ es \/ (v, u) ∈ es.
Proof.
  revert adj. induction es as [|[i j] es IH]; intros adj Hes; simpl; [set_solver|].
  destruct (Hes i j ltac:(set_solver)) as [Hi Hj].
  rewrite IH.
  - unfold add_edge. rewrite nbrs_alter_snoc by (by rewrite length_alter).
    rewrite nbrs_alter_snoc by done. set_solver.
  - intros i' j' Hin. unfold add_edge. rewrite !length_alter. apply Hes. set_solver.
Qed.

Lemma nbrs_empty (n u : nat) : nbrs (replicate n []) u = [].
Proof.
  unfold nbrs. destruct (replicate n [] !! u) eqn:E; [|done].
  by apply lookup_replicate in E as [-> _].
Qed.

Lemma adjacency_spec (n : nat) (es : list (nat * nat)) (u v : nat) :
  (forall i j, (i, j) ∈ es -> i < n /\ j < n) ->
  edge (adjacency n es) u v <-> (u, v) ∈ es \/ (v, u) ∈ es.
Proof.
  intros Hes. unfold edge, adjacency. rewrite nbrs_foldl_add_edge, nbrs_empty.
  - set_solver.
  - intros i j Hin. rewrite length_replicate. by apply Hes.
Qed.

Lemma neighbor_rel_sym (fs : list (feature G)) (tthr : Z) (othr : Q) (i j : nat) :
  neighbor_rel fs tthr othr i j -> neighbor_rel fs tthr othr j i.
Proof.
  intros (Hne & fi & fj & Hi & Hj & Hb & Hn). split; [done|].
  exists fj, fi. rewrite box_intersects_comm, is_neighbor_comm. done.
Qed.

(** The adjacency lists hold exactly the neighbor relation. *)
Lemma neighbor_graph_edge (fs : list (feature G)) (tthr : Z) (othr : Q) (u v : nat) :
  edge (neighbor_graph fs tthr othr) u v <-> neighbor_rel fs tthr othr u v.
Proof.
  unfold neighbor_graph. rewrite adjacency_spec, !neighbor_edges_spec.
  - split.
    + intros [(Hlt & Hrel)|(Hlt & Hrel)]; [split; [lia|done]|].
      apply neighbor_rel_sym. split; [lia|done].
    + intros Hrel. destruct (Nat.lt_total u v) as [Hlt|[->|Hlt]];
        [|by destruct Hrel|].
      * left. destruct Hrel as (_ & Hrel). by split.
      * right. destruct (neighbor_rel_sym _ _ _ _ _ Hrel) as (_ & Hrel'). by split.
  - intros i j (_ & fi & fj & Hi & Hj & _)%neighbor_edges_spec.
    split; by eapply lookup_lt_Some.
Qed.

Lemma length_adjacency (n : nat) (es : list (nat * nat)) : length (adjacency n es) = n.
Proof.
  unfold adjacency. rewrite <- (length_replicate n ([] : list nat)) at 2.
  generalize (replicate n ([] : list nat)). induction es as [|[i j] es IH]; intros adj; simpl;
    [done|]. by rewrite IH, !length_alter.
Qed.

(** The builder's graph passes the labeler's precondition check. *)
Lemma neighbor_graph_check (fs : list (feature G)) (tthr : Z) (othr : Q) :
  check_graph (neighbor_graph fs tthr othr) = Ok tt.
Proof.
  apply check_graph_ok. intros u v Huv. apply neighbor_graph_edge in Huv.
  split.
  - unfold neighbor_graph. rewrite length_adjacency.
    destruct Huv as (_ & _ & fj & _ & Hj & _). by eapply lookup_lt_Some.
  - by apply neighbor_graph_edge, neighbor_rel_sym.
Qed.
End BuilderLemmas.

Lemma length_neighbor_graph {G : Type} `{Geometry G} (fs : list (feature G)) (tthr : Z) (othr : Q) :
  length (neighbor_graph fs tthr othr) = length fs.
Proof. apply length_adjacency. Qed.
