(* ===== verification/Interface.v ===== *)
(** * The data the app and the clustering engine exchange

    The app reads a GeoDataFrame ([gpd.read_file], src/app.py line 39),
    hands it to [cluster_polygons] (lines 94-100) and displays the
    returned frame.  This file models the frame (columns with their
    dtype kind, rows with a geometry and a property dict), the values
    the app inspects, the engine's errors (spec section 7), and the
    interface [ClusterEngine] that states what the app relies on from
    the engine; Engine.v implements it. *)

From S2P Require Import Prelude.
From Stdlib Require Import Ascii QArith.
Local Close Scope Q_scope.

(** ** Values and frames *)

(** A cell value: an integer, a string, a datetime or a timedelta (in
    seconds, numpy kinds ['M'] and ['m']), or a missing value. *)
Inductive value : Type :=
| VInt (z : Z)
| VStr (s : string)
| VTime (t : Z)
| VDelta (d : Z)
| VNull.

#[export] Instance value_eq_dec : EqDecision value.
Proof. solve_decision. Defined.

#[export] Instance value_countable : Countable value.
Proof.
  refine (inj_countable'
    (fun v => match v with
              | VInt z => inl (inl (inl z)) | VStr s => inl (inl (inr s))
              | VTime t => inl (inr (inl t)) | VDelta d => inl (inr (inr d))
              | VNull => inr tt end)
    (fun x => match x with
              | inl (inl (inl z)) => VInt z | inl (inl (inr s)) => VStr s
              | inl (inr (inl t)) => VTime t | inl (inr (inr d)) => VDelta d
              | inr _ => VNull end) _).
  by intros [].
Defined.

(** A column: its name and [dtype.kind], one character. *)
Record column : Type := mk_column { col_name : string; col_kind : ascii }.

(** A row: its geometry and its properties by column name. *)
Record row (G : Type) : Type := mk_row { row_geom : G; row_props : gmap string value }.
Arguments mk_row {G} _ _.
Arguments row_geom {G} _.
Arguments row_props {G} _.

Record frame (G : Type) : Type := mk_frame { fr_columns : list column; fr_rows : list (row G) }.
Arguments mk_frame {G} _ _.
Arguments fr_columns {G} _.
Arguments fr_rows {G} _.

(** [dict.get(key, default)] on the properties of a row. *)
Definition prop_get {G} (r : row G) (key : string) (dflt : value) : value :=
  default dflt (row_props r !! key).

Definition has_column {G} (f : frame G) (name : string) : bool :=
  bool_decide (name ∈ col_name <$> fr_columns f).

(** ** The engine's contract *)

(** Spec section 7: structural input errors and parameter errors abort
    the run before any labeling. *)
Inductive engine_error : Type :=
| EmptyInput
| InvalidGeometry (i : nat)
| BadMinClusterSize (m : Z)
| BadOverlapThreshold (o : Q)
| BadTimeThreshold (t : Z)
| MalformedRelation.

(** [cluster_polygons(gdf, time_key, time_threshold, min_cluster_size,
    overlap_threshold)]: the overlap threshold arrives as the number the
    caller passes. *)
Class ClusterEngine (G : Type) : Type :=
  cluster_polygons : frame G -> option string -> Z -> Z -> Q -> result (frame G) engine_error.

(** What the app may rely on: the rows come back in order, unchanged but
    for a [cluster_id] property holding -1 or a non-negative id, and the
    frame has a [cluster_id] column of integers. *)
Class ClusterEngineLaws (G : Type) `{ClusterEngine G} : Prop := {
  ce_rows : forall f tk thr mcs ov f',
    cluster_polygons f tk thr mcs ov = Ok f' ->
    Forall2 (fun r r' => exists z, (z = -1 \/ 0 <= z)%Z /\ row_geom r' = row_geom r /\
               row_props r' = <["cluster_id" := VInt z]> (row_props r))
            (fr_rows f) (fr_rows f');
  ce_column : forall f tk thr mcs ov f',
    cluster_polygons f tk thr mcs ov = Ok f' -> has_column f' "cluster_id" = true
}.
