(* ===== verification/Engine.v ===== *)
(** * The clustering engine [cluster_polygons] (spec sections 2, 6, 7)

    Composition of the components: the run parameters are checked first
    (a bad one aborts the run, spec section 7), the rows become features
    (geometry and the timestamp in column [time_key], absent when the
    column is not a datetime), the neighbor graph is built through the
    spatial index, the labeler assigns the ids, and each row gets its
    [cluster_id].  [spec_engine] is the instance of the interface
    [ClusterEngine] the app is proved against. *)

From S2P Require Import Prelude Labeler LabelPass Geometry Temporal NeighborGraph Interface.
From Stdlib Require Import Ascii QArith.
Local Close Scope Q_scope.

Section Engine.
Context {G : Type} `{Geometry G}.

(** The timestamp of a row in column [time_key]. *)
Definition row_time (time_key : option string) (r : row G) : option Z :=
  match time_key with
  | Some k => match row_props r !! k with Some (VTime t) => Some t | _ => None end
  | None => None
  end.

Definition features_of (f : frame G) (time_key : option string) : list (feature G) :=
  (fun r => mk_feature (row_geom r) (row_time time_key r)) <$> fr_rows f.

(** Parameter errors, then the empty input (spec section 7). *)
Definition check_params (f : frame G) (thr mcs : Z) (ov : Q) : result unit engine_error :=
  if (mcs <? 1)%Z then Err (BadMinClusterSize mcs)
  else if negb (Qle_bool 0 ov && Qle_bool ov 1) then Err (BadOverlapThreshold ov)
  else if (thr <? 0)%Z then Err (BadTimeThreshold thr)
  else if fr_rows f is [] then Err EmptyInput
  else Ok tt.

Definition cluster_id_column : column := mk_column "cluster_id" "i"%char.

(** The input frame with one more attribute per row. *)
Definition with_labels (f : frame G) (labels : list Z) : frame G :=
  mk_frame (if has_column f "cluster_id" then fr_columns f else fr_columns f ++ [cluster_id_column])
           (zip_with (fun r z => mk_row (row_geom r) (<["cluster_id"%string := VInt z]> (row_props r)))
                     (fr_rows f) labels).

Definition run_engine (f : frame G) (time_key : option string) (thr mcs : Z) (ov : Q)
    : result (frame G) engine_error :=
  let* _ := check_params f thr mcs ov in
  let adj := neighbor_graph (features_of f time_key) thr ov in
  match cluster_labels adj (Z.to_nat mcs) with
  | Ok labels => Ok (with_labels f labels)
  | Err _ => Err MalformedRelation
  end.

(** The degenerate polygons, reported as warnings (spec section 7). *)
Definition geometry_warnings (f : frame G) : list nat :=
  omap (fun '(i, r) => if degenerate (row_geom r) then Some i else None)
       (imap pair (fr_rows f)).

#[export] Instance spec_engine : ClusterEngine G := run_engine.

(** The labeling the engine attaches, once the parameters pass. *)
Definition engine_labels (f : frame G) (time_key : option string) (thr mcs : Z) (ov : Q)
    : list Z :=
  label_of <$> marks (label_pass (neighbor_graph (features_of f time_key) thr ov) (Z.to_nat mcs)).
End Engine.

(** ** Lemmas *)

Section EngineLemmas.
Context {G : Type} `{GeometryLaws G}.

Lemma cluster_labels_neighbor_graph (f : frame G) (tk : option string) (thr mcs : Z) (ov : Q) :
  cluster_labels (neighbor_graph (features_of f tk) thr ov) (Z.to_nat mcs) =
  Ok (engine_labels f tk thr mcs ov).
Proof. unfold cluster_labels. by rewrite neighbor_graph_check. Qed.

Lemma run_engine_spec (f : frame G) (tk : option string) (thr mcs : Z) (ov : Q) :
  run_engine f tk thr mcs ov =
  match check_params f thr mcs ov with
  | Ok _ => Ok (with_labels f (engine_labels f tk thr mcs ov))
  | Err e => Err e
  end.
Proof.
  unfold run_engine. destruct (check_params f thr mcs ov); [|done].
  by rewrite cluster_labels_neighbor_graph.
Qed.

(** The parameters accepted by the engine. *)
Lemma check_params_ok (f : frame G) (thr mcs : Z) (ov : Q) :
  check_params f thr mcs ov = Ok tt <->
  (1 <= mcs)%Z /\ (0 <= ov <= 1)%Q /\ (0 <= thr)%Z /\ fr_rows f <> [].
Proof.
  unfold check_params.
  destruct (mcs <? 1)%Z eqn:Hm, (Qle_bool 0 ov) eqn:Hlo, (Qle_bool ov 1) eqn:Hhi,
    (thr <? 0)%Z eqn:Ht, (fr_rows f); simpl; bool_to_prop;
    split; try discriminate; try (intros; split_and!; done || lia);
    intros (? & [? ?] & ? & ?); try lia; try done;
    match goal with H : Qle_bool _ _ = false |- _ =>
      apply not_true_iff_false in H; by rewrite Qle_bool_iff in H end.
Qed.

Lemma length_features_of (f : frame G) (tk : option string) :
  length (features_of f tk) = length (fr_rows f).
Proof. apply length_fmap. Qed.

Lemma length_engine_labels (f : frame G) (tk : option string) (thr mcs : Z) (ov : Q) :
  length (engine_labels f tk thr mcs ov) = length (fr_rows f).
Proof.
  destruct (cluster_labels_total _ _ _ (cluster_labels_neighbor_graph f tk thr mcs ov)) as [Hl _].
  by rewrite Hl, length_neighbor_graph, length_features_of.
Qed.

Lemma with_labels_lookup (f : frame G) (labels : list Z) (i : nat) :
  fr_rows (with_labels f labels) !! i =
    match fr_rows f !! i, labels !! i with
    | Some r, Some z => Some (mk_row (row_geom r) (<["cluster_id"%string := VInt z]> (row_props r)))
    | _, _ => None
    end.
Proof.
  unfold with_labels. simpl. rewrite lookup_zip_with.
  destruct (fr_rows f !! i), (labels !! i); reflexivity.
Qed.

Lemma engine_labels_range (f : frame G) (tk : option string) (thr mcs : Z) (ov : Q)
    (i : nat) (z : Z) :
  engine_labels f tk thr mcs ov !! i = Some z -> (z = -1 \/ 0 <= z)%Z.
Proof.
  apply (cluster_labels_total _ _ _ (cluster_labels_neighbor_graph f tk thr mcs ov)).
Qed.

(** The [cluster_id] a labeled row carries is its entry of the labeling. *)
Lemma with_labels_label (f : frame G) (labels : list Z) (i : nat) (r : row G) (z : Z) :
  fr_rows (with_labels f labels) !! i = Some r ->
  row_props r !! "cluster_id"%string = Some (VInt z) -> labels !! i = Some z.
Proof.
  rewrite with_labels_lookup.
  destruct (fr_rows f !! i), (labels !! i); intros Hr; try discriminate.
  injection Hr as <-. simpl. rewrite lookup_insert_eq. congruence.
Qed.

(** Every entry of a full labeling is carried by a row of the output. *)
Lemma with_labels_row (f : frame G) (labels : list Z) (j : nat) (z : Z) :
  length labels = length (fr_rows f) -> labels !! j = Some z ->
  exists r, fr_rows (with_labels f labels) !! j = Some r /\
    row_props r !! "cluster_id"%string = Some (VInt z).
Proof.
  intros Hlen Hj. rewrite with_labels_lookup, Hj.
  destruct (lookup_lt_is_Some_2 (fr_rows f) j) as [r Hr];
    [rewrite <- Hlen; eapply lookup_lt_Some; eassumption|].
  rewrite Hr. eexists. split; [reflexivity|]. simpl. by rewrite lookup_insert_eq.
Qed.

Lemma with_labels_has_column (f : frame G) (labels : list Z) :
  has_column (with_labels f labels) "cluster_id" = true.
Proof.
  unfold with_labels, has_column. simpl. apply bool_decide_eq_true.
  destruct (bool_decide_reflect ("cluster_id"%string ∈ col_name <$> fr_columns f)) as [Hin|Hnin].
  - done.
  - rewrite fmap_app. apply elem_of_app. right. by left.
Qed.
End EngineLemmas.

#[export] Instance spec_engine_laws {G : Type} `{GeometryLaws G} : ClusterEngineLaws G.
Proof.
  split.
  - intros f tk thr mcs ov f' Hok. unfold cluster_polygons, spec_engine in Hok.
    rewrite run_engine_spec in Hok. destruct (check_params _ _ _ _); [|done].
    injection Hok as <-. apply Forall2_lookup. intros i. rewrite with_labels_lookup.
    pose proof (length_engine_labels f tk thr mcs ov) as Hlen.
    destruct (fr_rows f !! i) as [r|] eqn:Hr.
    + destruct (engine_labels f tk thr mcs ov !! i) as [z|] eqn:Hz.
      * constructor. exists z. split; [by eapply engine_labels_range|done].
      * apply lookup_ge_None in Hz. apply lookup_lt_Some in Hr. lia.
    + constructor.
  - intros f tk thr mcs ov f' Hok. unfold cluster_polygons, spec_engine in Hok.
    rewrite run_engine_spec in Hok. destruct (check_params _ _ _ _); [|done].
    injection Hok as <-. apply with_labels_has_column.
Qed.

(** ** Example *)

Example run_engine_ex :
  match run_engine (mk_frame [] [mk_row (mk_rect 0 0 2 2) ∅; mk_row (mk_rect 1 0 3 2) ∅;
                                  mk_row (mk_rect 9 9 10 10) ∅]) None 0 2 (1 # 4) with
  | Ok f => (fun r => row_props r !! "cluster_id"%string) <$> fr_rows f
  | Err _ => []
  end = [Some (VInt 0); Some (VInt 0); Some (VInt (-1))].
Proof. reflexivity. Qed.
