(* ===== verification/HexColor.v ===== *)
(** * The colour strings of [get_color] (src/app.py, line 17)

    [get_color] stores ["#{:06x}".format(random.randint(0, 0xFFFFFF))]:
    a literal ['#'] and the draw in lowercase hexadecimal, zero padded to
    width 6.  This file models Python's [x] format with width 6 and zero
    fill, a parser for the colour strings, and proves the round trip on
    the range of the draw. *)

From S2P Require Import Prelude.
From Stdlib Require Import Ascii.
From Stdlib Require String.
Local Open Scope Z_scope.

(** ** Formatting *)

(** One lowercase hexadecimal digit, [0 <= d < 16]. *)
Definition hex_digit (d : Z) : ascii :=
  ascii_of_nat (Z.to_nat (if d <? 10 then 48 + d else 87 + d)).

(** The digits of [n > 0], least significant first; [fuel] bounds the
    number of digits. *)
Fixpoint hex_rev (fuel : nat) (n : Z) : list ascii :=
  match fuel with
  | O => []
  | S fuel' => if n <=? 0 then [] else hex_digit (n mod 16) :: hex_rev fuel' (n / 16)
  end.

(** Python's [format(n, 'x')] for [n >= 0]; [n] has at most
    [log2 n + 1] digits. *)
Definition hex_lower (n : Z) : list ascii :=
  if n =? 0 then ["0"%char] else rev (hex_rev (S (Z.to_nat (Z.log2 n))) n).

Definition zero_pad (width : nat) (s : list ascii) : list ascii :=
  replicate (width - length s)%nat "0"%char ++ s.

(** Python's ['{:06x}'.format(n)]: sign-aware zero padding to width 6. *)
Definition format_06x (n : Z) : list ascii :=
  if n <? 0 then "-"%char :: zero_pad 5 (hex_lower (- n)) else zero_pad 6 (hex_lower n).

(** ["#{:06x}".format(n)] *)
Definition color_of_draw (n : Z) : string :=
  String.string_of_list_ascii ("#"%char :: format_06x n).

(** ** Parsing a colour back *)

Definition digit_val (c : ascii) : option Z :=
  let k := nat_of_ascii c in
  if ((48 <=? k) && (k <=? 57))%nat then Some (Z.of_nat k - 48)
  else if ((97 <=? k) && (k <=? 102))%nat then Some (Z.of_nat k - 87)
  else None.

Fixpoint hex_value (acc : Z) (cs : list ascii) : option Z :=
  match cs with
  | [] => Some acc
  | c :: cs' => d ← digit_val c; hex_value (16 * acc + d) cs'
  end.

Definition parse_color (s : string) : option Z :=
  match String.list_ascii_of_string s with
  | c :: ds => if (Ascii.eqb c "#"%char && (length ds =? 6)%nat)%bool then hex_value 0 ds else None
  | [] => None
  end.

Definition valid_color (s : string) : bool :=
  match parse_color s with Some _ => true | None => false end.

(** ** A reference: fixed-width digits *)

(** The [k] lowest hexadecimal digits of [n], most significant first,
    each position computed on its own (the digit of weight [16 ^ i] is
    [n / 16 ^ i mod 16]), as a fixed-width split does. *)
Fixpoint hex_split (k : nat) (n : Z) : list ascii :=
  match k with
  | O => []
  | S k' => hex_split k' (n / 16) ++ [hex_digit (n mod 16)]
  end.

Example color_of_draw_ex : color_of_draw 0xff00 = "#00ff00"%string.
Proof. reflexivity. Qed.

Example format_06x_neg : String.string_of_list_ascii (format_06x (-5)) = "-00005"%string.
Proof. reflexivity. Qed.

(** ** Lemmas *)

Lemma digit_val_hex_digit (d : Z) : 0 <= d < 16 -> digit_val (hex_digit d) = Some d.
Proof.
  intros Hd. rewrite <- (Z2Nat.id d) by lia.
  assert (Hk : (Z.to_nat d < 16)%nat) by lia.
  generalize (Z.to_nat d) Hk. clear. intros k Hk.
  do 16 (destruct k as [|k]; [reflexivity|]). lia.
Qed.

Lemma hex_value_app (acc : Z) (xs ys : list ascii) :
  hex_value acc (xs ++ ys) = hex_value acc xs ≫= fun a => hex_value a ys.
Proof.
  revert acc. induction xs as [|c xs IH]; intros acc; simpl; [done|].
  destruct (digit_val c); simpl; [apply IH|done].
Qed.

Lemma hex_value_zeros (acc : Z) (k : nat) :
  hex_value acc (replicate k "0"%char) = Some (16 ^ Z.of_nat k * acc).
Proof.
  revert acc. induction k as [|k IH]; intros acc; simpl; [f_equal; simpl; lia|].
  change (Z.of_nat (nat_of_ascii "0") - 48) with 0.
  rewrite IH. f_equal. rewrite Nat2Z.inj_succ, Z.pow_succ_r by lia. lia.
Qed.

Lemma hex_rev_spec (fuel : nat) (n acc : Z) :
  0 <= n < 16 ^ Z.of_nat fuel ->
  hex_value acc (rev (hex_rev fuel n)) =
    Some (acc * 16 ^ Z.of_nat (length (hex_rev fuel n)) + n).
Proof.
  revert n acc. induction fuel as [|fuel IH]; intros n acc Hn; simpl.
  - simpl in Hn. f_equal. lia.
  - destruct (n <=? 0) eqn:Hle; bool_to_prop; simpl; [f_equal; lia|].
    rewrite Nat2Z.inj_succ, Z.pow_succ_r in Hn by lia.
    pose proof (Z.mod_pos_bound n 16 ltac:(lia)).
    pose proof (Z.div_mod n 16 ltac:(lia)).
    rewrite hex_value_app, IH by (split; [apply Z.div_pos|apply Z.div_lt_upper_bound]; lia).
    simpl. rewrite digit_val_hex_digit by lia. simpl. f_equal.
    rewrite Nat2Z.inj_succ, Z.pow_succ_r by lia. lia.
Qed.

Lemma length_hex_rev (fuel k : nat) (n : Z) :
  0 <= n < 16 ^ Z.of_nat k -> (length (hex_rev fuel n) <= k)%nat.
Proof.
  revert n k. induction fuel as [|fuel IH]; intros n k Hn; simpl; [lia|].
  destruct (n <=? 0) eqn:Hle; bool_to_prop; simpl; [lia|].
  destruct k as [|k]; [simpl in Hn; lia|].
  rewrite Nat2Z.inj_succ, Z.pow_succ_r in Hn by lia.
  apply le_n_S, IH. split; [apply Z.div_pos|apply Z.div_lt_upper_bound]; lia.
Qed.

Lemma hex_lower_spec (n : Z) :
  0 <= n < 16 ^ 6 ->
  (length (hex_lower n) <= 6)%nat /\ hex_value 0 (hex_lower n) = Some n.
Proof.
  intros Hn. unfold hex_lower. destruct (n =? 0) eqn:Hz; bool_to_prop; [subst; split; [simpl; lia|reflexivity]|].
  assert (Hfuel : n < 16 ^ Z.of_nat (S (Z.to_nat (Z.log2 n)))).
  { pose proof (Z.log2_spec n ltac:(lia)) as [_ Hlt].
    rewrite Nat2Z.inj_succ, Z2Nat.id by (apply Z.log2_nonneg).
    eapply Z.lt_le_trans; [exact Hlt|]. apply Z.pow_le_mono_l. lia. }
  rewrite length_rev, hex_rev_spec by lia. split; [|f_equal; lia].
  apply (length_hex_rev _ 6). lia.
Qed.

Lemma format_06x_spec (n : Z) :
  0 <= n <= 0xFFFFFF ->
  length (format_06x n) = 6%nat /\ hex_value 0 (format_06x n) = Some n.
Proof.
  intros Hn. unfold format_06x. rewrite (proj2 (Z.ltb_ge n 0)) by lia.
  destruct (hex_lower_spec n ltac:(lia)) as [Hlen Hval]. unfold zero_pad. split.
  - rewrite length_app, length_replicate. lia.
  - rewrite hex_value_app, hex_value_zeros. simpl. by rewrite Z.mul_0_r.
Qed.

(** More fuel than the digits of [n] changes nothing. *)
Lemma hex_rev_fuel (fuel extra : nat) (n : Z) :
  n < 16 ^ Z.of_nat fuel -> hex_rev (fuel + extra) n = hex_rev fuel n.
Proof.
  revert n. induction fuel as [|fuel IH]; intros n Hn; simpl.
  - simpl in Hn. destruct extra; simpl; [done|]. by rewrite (proj2 (Z.leb_le n 0)) by lia.
  - destruct (n <=? 0) eqn:Hle; [done|]. bool_to_prop. f_equal. apply IH.
    rewrite Nat2Z.inj_succ, Z.pow_succ_r in Hn by lia. apply Z.div_lt_upper_bound; lia.
Qed.

(** The fuel [hex_lower] gives: [log2 n + 1] digits cover [n]. *)
Lemma hex_lower_fuel_enough (n : Z) :
  0 < n -> n < 16 ^ Z.of_nat (S (Z.to_nat (Z.log2 n))).
Proof.
  intros Hn. pose proof (Z.log2_spec n Hn) as [_ Hlt].
  rewrite Nat2Z.inj_succ, Z2Nat.id by (apply Z.log2_nonneg).
  eapply Z.lt_le_trans; [exact Hlt|]. apply Z.pow_le_mono_l. lia.
Qed.

(** Zero padding of the digits found by the loop is the fixed-width split. *)
Lemma zero_pad_hex_rev (k fuel : nat) (n : Z) :
  0 <= n < 16 ^ Z.of_nat k -> n < 16 ^ Z.of_nat fuel ->
  replicate (k - length (hex_rev fuel n)) "0"%char ++ rev (hex_rev fuel n) = hex_split k n.
Proof.
  revert n fuel. induction k as [|k IH]; intros n fuel Hk Hf.
  - simpl in Hk. assert (n = 0) as -> by lia. destruct fuel; reflexivity.
  - rewrite Nat2Z.inj_succ, Z.pow_succ_r in Hk by lia. simpl.
    assert (Hq : 0 <= n / 16 < 16 ^ Z.of_nat k)
      by (split; [apply Z.div_pos|apply Z.div_lt_upper_bound]; lia).
    destruct (Z.eq_dec n 0) as [->|Hn].
    + change (0 / 16) with 0. rewrite <- (IH 0 fuel) by lia.
      assert (hex_rev fuel 0 = []) as -> by (destruct fuel; reflexivity).
      cbn [length rev]. rewrite !Nat.sub_0_r, !app_nil_r, replicate_S_end. reflexivity.
    + destruct fuel as [|fuel]; [simpl in Hf; lia|].
      rewrite Nat2Z.inj_succ, Z.pow_succ_r in Hf by lia. simpl.
      rewrite (proj2 (Z.leb_gt n 0)) by lia. simpl.
      rewrite app_assoc, (IH (n / 16) fuel); [done|lia|].
      apply Z.div_lt_upper_bound; lia.
Qed.

(** C18 (color_roundtrip). Every colour [get_color] can store, the
    formatting of a draw of [randint(0, 0xFFFFFF)], parses back to that
    draw: the colour is ['#'] and exactly six hexadecimal digits. *)
Theorem color_of_draw_roundtrip (n : Z) :
  0 <= n <= 0xFFFFFF -> parse_color (color_of_draw n) = Some n.
Proof.
  intros Hn. unfold parse_color, color_of_draw.
  rewrite String.list_ascii_of_string_of_list_ascii. simpl.
  destruct (format_06x_spec n Hn) as [-> ->]. reflexivity.
Qed.

Lemma color_of_draw_roundtrip_witness :
  parse_color (color_of_draw 0xab01cd) = Some 0xab01cd.
Proof. apply color_of_draw_roundtrip. lia. Defined.

(** Python's ['{:06x}'] as the model computes it
    (the digits found by the division loop, reversed, zero padded to
    width 6) is the fixed-width split of the draw: position [i] from the
    right holds the digit [n / 16 ^ i mod 16]. *)
Theorem format_06x_hex_split (n : Z) :
  0 <= n < 16 ^ 6 -> format_06x n = hex_split 6 n.
Proof.
  intros Hn. unfold format_06x, zero_pad, hex_lower. rewrite (proj2 (Z.ltb_ge n 0)) by lia.
  destruct (n =? 0) eqn:Hz; bool_to_prop; [subst; reflexivity|].
  rewrite length_rev. apply zero_pad_hex_rev; [lia|]. apply hex_lower_fuel_enough. lia.
Qed.

Lemma format_06x_hex_split_witness :
  format_06x 0xab01cd = hex_split 6 0xab01cd.
Proof. apply format_06x_hex_split. lia. Defined.

(** The division loop of [format(n, 'x')]
    has finished within the [log2 n + 1] rounds of fuel [hex_lower]
    gives it: any more fuel yields the same digits, and these digits
    denote [n]. *)
Theorem hex_lower_terminates (n : Z) (extra : nat) :
  0 < n ->
  hex_rev (S (Z.to_nat (Z.log2 n)) + extra) n = hex_rev (S (Z.to_nat (Z.log2 n))) n /\
  hex_value 0 (hex_lower n) = Some n.
Proof.
  intros Hn. pose proof (hex_lower_fuel_enough n Hn) as Hf. split.
  - by apply hex_rev_fuel.
  - unfold hex_lower. rewrite (proj2 (Z.eqb_neq n 0)) by lia.
    rewrite hex_rev_spec by lia. f_equal.
Qed.

Lemma hex_lower_terminates_witness :
  hex_rev (S (Z.to_nat (Z.log2 0xab01cd)) + 3) 0xab01cd = hex_rev (S (Z.to_nat (Z.log2 0xab01cd))) 0xab01cd /\
  hex_value 0 (hex_lower 0xab01cd) = Some 0xab01cd.
Proof. apply hex_lower_terminates. lia. Defined.

Lemma color_of_draw_valid (n : Z) :
  0 <= n <= 0xFFFFFF -> valid_color (color_of_draw n) = true.
Proof.
  intros Hn. unfold valid_color, parse_color, color_of_draw.
  rewrite String.list_ascii_of_string_of_list_ascii. simpl.
  by destruct (format_06x_spec n Hn) as [-> ->].
Qed.
