(* ===== verification/Script.v ===== *)
(** * The Streamlit script src/app.py

    Streamlit runs the whole script again on every interaction; what
    survives a run is [st.session_state], here [session]: the last
    clustering result (key ["clustered"]) and the colour of each
    cluster id (key ["colors"]).  A run is [app_run]: it reads the
    widgets ([ui_input], normalised as the widgets do), pops both keys
    on Reset, calls [cluster_polygons] on Run, and draws the clusters,
    colouring each feature through [get_color], which draws a fresh
    random colour for an id it has not seen; rendering the map, folium
    asserts that every tooltip field is a feature property.  The random
    module is the
    sequence [randint] of results of [random.randint(0, 0xFFFFFF)]; the
    run counts the draws it consumes.

    The script is a Section over any engine ([ClusterEngine]).  Its
    lemmas are in ScriptLemmas.v, its properties in ScriptProps.v. *)

From S2P Require Import Prelude HexColor Interface.
From Stdlib Require Import Ascii QArith.
Local Close Scope Q_scope.

(** ** State *)

Record session (G : Type) : Type := mk_session {
  ss_clustered : option (frame G);
  ss_colors : option (gmap value string)
}.
Arguments mk_session {G} _ _.
Arguments ss_clustered {G} _.
Arguments ss_colors {G} _.

Record world (G : Type) : Type := mk_world {
  w_session : session G;
  w_draws : nat
}.
Arguments mk_world {G} _ _.
Arguments w_session {G} _.
Arguments w_draws {G} _.

Definition init_world {G} : world G := mk_world (mk_session None None) 0.

(** The style dict [style_fn] returns. *)
Record style : Type := mk_style {
  fill_color : string; line_color : string; line_weight : Z; fill_opacity : Q
}.

Inductive map_view (G : Type) : Type :=
| NoUpload
| NoResult
| NoClusters
| ClusterMap (center : Q * Q) (styled : list (row G * style)) (tooltip : list string).
Arguments NoUpload {G}.
Arguments NoResult {G}.
Arguments NoClusters {G}.
Arguments ClusterMap {G} _ _ _.

(** An exception that ends the run. *)
Inductive script_error : Type :=
| KeyError (key : string)
| EngineFailure (e : engine_error)
| FoliumAssertion (field : string).

Inductive outcome (G : Type) : Type :=
| Shown (v : map_view G)
| Raised (e : script_error).
Arguments Shown {G} _.
Arguments Raised {G} _.

(** What the user did before this run: the uploaded file (parsed), the
    widget entries (absent when left at their default), the buttons. *)
Record ui_input (G : Type) : Type := mk_ui {
  ui_upload : option (frame G);
  ui_time_choice : option nat;
  ui_cluster_value : option Z;
  ui_unit_choice : option nat;
  ui_min_cluster_size : option Z;
  ui_overlap : option Z;
  ui_run : bool;
  ui_reset : bool
}.
Arguments mk_ui {G} _ _ _ _ _ _ _ _.
Arguments ui_upload {G} _.
Arguments ui_time_choice {G} _.
Arguments ui_cluster_value {G} _.
Arguments ui_unit_choice {G} _.
Arguments ui_min_cluster_size {G} _.
Arguments ui_overlap {G} _.
Arguments ui_run {G} _.
Arguments ui_reset {G} _.

(** ** Widgets *)

(** [st.selectbox(options, index)]: the user's pick, else
    [options[index]], else [None]. *)
Definition selectbox {A} (options : list A) (index : option nat) (choice : option nat)
    : option A :=
  match choice with
  | Some k => options !! k
  | None => index ≫= fun k => options !! k
  end.

(** [st.number_input(min_value, value, step=1)]: never below
    [min_value]. *)
Definition number_input (min_value dflt : Z) (entry : option Z) : Z :=
  match entry with Some v => Z.max min_value v | None => dflt end.

(** [st.slider(min_value, max_value, value, step)]: on the step grid,
    inside the bounds. *)
Definition slider (lo hi dflt step : Z) (entry : option Z) : Z :=
  match entry with
  | Some v => Z.min hi (Z.max lo (lo + step * ((v - lo) / step)))
  | None => dflt
  end.

(** ** The script *)

Section App.
Context {G : Type} `{ClusterEngine G}.
(** [randint k]: the result of the [k]-th call of
    [random.randint(0, 0xFFFFFF)] in the session. *)
Context (randint : nat -> Z).
(** [GeoSeries.centroid] of one geometry, as [(x, y)]. *)
Context (centroid : G -> Q * Q).
(** [Series.astype(str)] on one cell. *)
Context (to_str : value -> string).

Definition set_colors (c : option (gmap value string)) (w : world G) : world G :=
  mk_world (mk_session (ss_clustered (w_session w)) c) (w_draws w).

Definition set_clustered (f : option (frame G)) (w : world G) : world G :=
  mk_world (mk_session f (ss_colors (w_session w))) (w_draws w).

(** [get_color(cid)], lines 12-18. *)
Definition get_color (cid : value) (w : world G) : string * world G :=
  let colors := default ∅ (ss_colors (w_session w)) in
  match colors !! cid with
  | Some c => (c, set_colors (Some colors) w)
  | None =>
      let c := color_of_draw (randint (w_draws w)) in
      (c, mk_world (mk_session (ss_clustered (w_session w)) (Some (<[cid := c]> colors)))
                   (S (w_draws w)))
  end.

(** [datetime_cols], line 46. *)
Definition datetime_cols (gdf : frame G) : list string :=
  col_name <$> filter (fun c => col_kind c = "M"%char \/ col_kind c = "O"%char)
                      (fr_columns gdf).

Definition unit_options : list string := ["seconds"; "minutes"; "hours"; "days"]%string.

(** [unit_multipliers], line 60. *)
Definition unit_multipliers : gmap string Z :=
  list_to_map [("seconds", 1%Z); ("minutes", 60%Z); ("hours", 3600%Z); ("days", 86400%Z)]%string.

(** Reset, lines 89-91: pop ["clustered"] and ["colors"]. *)
Definition reset_handler (w : world G) : world G :=
  mk_world (mk_session None None) (w_draws w).

(** Python's truthiness of [time_key]: [None] and [""] are false. *)
Definition truthy_key (tk : option string) : option string :=
  match tk with Some k => if decide (k = ""%string) then None else Some k | None => None end.

(** Run, lines 93-100. *)
Definition run_handler (gdf : frame G) (time_key : option string) (period mcs ov : Z)
    (w : world G) : result (world G) engine_error :=
  let* clustered := cluster_polygons gdf (truthy_key time_key) period mcs (inject_Z ov) in
  Ok (set_clustered (Some clustered) w).

(** Lines 112-115: the datetime and timedelta columns become strings;
    a missing cell ([NaT]) becomes ["NaT"]. *)
Definition cast_column (c : column) (f : frame G) : frame G :=
  if decide (col_kind c = "M"%char \/ col_kind c = "m"%char) then
    mk_frame ((fun c' => if decide (col_name c' = col_name c)
                         then mk_column (col_name c') "O"%char else c') <$> fr_columns f)
             ((fun r => mk_row (row_geom r)
                (partial_alter (fun v => Some (VStr (default "NaT" (to_str <$> v))))
                   (col_name c) (row_props r))) <$> fr_rows f)
  else f.

Definition cast_time_columns (f : frame G) : frame G :=
  foldl (fun acc c => cast_column c acc) f (fr_columns f).

(** [clustered_map["cluster_id"] >= 0] on one row; a missing value
    (NaN) compares false.  A non-integer value, which no engine meeting
    [ClusterEngineLaws] produces, also counts as noise here, where pandas
    would raise a [TypeError]. *)
Definition not_noise (r : row G) : bool :=
  match row_props r !! "cluster_id"%string with Some (VInt z) => (0 <=? z)%Z | _ => false end.

(** Line 118: drop the noise; a frame without the column raises. *)
Definition drop_noise (f : frame G) : result (frame G) script_error :=
  if has_column f "cluster_id" then Ok (mk_frame (fr_columns f) (filter not_noise (fr_rows f)))
  else Err (KeyError "cluster_id").

Definition mean (xs : list Q) : Q := (fold_right Qplus 0 xs / inject_Z (Z.of_nat (length xs)))%Q.

(** Lines 121-125: [[mean of centroid y, mean of centroid x]]. *)
Definition map_center (f : frame G) : Q * Q :=
  (mean ((fun r => snd (centroid (row_geom r))) <$> fr_rows f),
   mean ((fun r => fst (centroid (row_geom r))) <$> fr_rows f)).

(** [style_fn(feature)], lines 128-135. *)
Definition style_fn (r : row G) (w : world G) : style * world G :=
  let '(c, w') := get_color (prop_get r "cluster_id" (VInt (-1))) w in
  (mk_style c "black" 1 (7 # 10), w').

(** [folium.GeoJson(..., style_function=style_fn)]: each feature is
    styled once, in order. *)
Fixpoint style_all (rs : list (row G)) (w : world G) : list (row G * style) * world G :=
  match rs with
  | [] => ([], w)
  | r :: rs' =>
      let '(s, w1) := style_fn r w in
      let '(styled, w2) := style_all rs' w1 in
      ((r, s) :: styled, w2)
  end.

(** [tooltip_fields], lines 137-139. *)
Definition tooltip_fields (time_key : option string) (f : frame G) : list string :=
  "cluster_id"%string ::
    match truthy_key time_key with
    | Some k => if has_column f k then [k] else []
    | None => []
    end.

(** [gpd.read_file] names the geometry column ["geometry"]; a GeoJSON
    feature of the frame (its [__geo_interface__], which [folium.GeoJson]
    reads at line 141) has every other column as a property. *)
Definition geometry_column : string := "geometry".

Definition geojson_keys (f : frame G) : list string :=
  filter (fun n => n <> geometry_column) (col_name <$> fr_columns f).

(** [GeoJsonTooltip] asserts, when [st_folium] renders the map (line
    147), that each field is a property of the first feature: the first
    field that is not, if any. *)
Definition missing_field (fields keys : list string) : option string :=
  head (filter (fun k => k ∉ keys) fields).

(** Lines 103-149: show the stored result.  folium computes the styles
    (calling [style_fn] on every feature) before it renders the tooltip,
    so the colours are stored when the tooltip's assertion fails. *)
Definition show_results (time_key : option string) (w : world G) : world G * outcome G :=
  match ss_clustered (w_session w) with
  | None => (w, Shown NoResult)
  | Some clustered =>
      match drop_noise (cast_time_columns clustered) with
      | Err e => (w, Raised e)
      | Ok cm =>
          match fr_rows cm with
          | [] => (w, Shown NoClusters)
          | _ =>
              let '(styled, w') := style_all (fr_rows cm) w in
              let tips := tooltip_fields time_key cm in
              match missing_field tips (geojson_keys cm) with
              | Some k => (w', Raised (FoliumAssertion k))
              | None => (w', Shown (ClusterMap (map_center cm) styled tips))
              end
          end
      end
  end.

(** Lines 46-80: the parameters read from the widgets: the time column,
    the period in seconds, the minimum cluster size, the overlap. *)
Definition widget_values (ui : ui_input G) (gdf : frame G)
    : result (option string * Z * Z * Z) script_error :=
  let dcols := datetime_cols gdf in
  let time_key := selectbox dcols (if dcols is [] then None else Some 0) (ui_time_choice ui) in
  let cluster_value := number_input 1 1 (ui_cluster_value ui) in
  let cluster_unit := selectbox unit_options (Some 2) (ui_unit_choice ui) in
  match cluster_unit ≫= fun u => unit_multipliers !! u with
  | None => Err (KeyError (default "None" cluster_unit))
  | Some mult =>
      let cluster_period := (cluster_value * mult)%Z in
      let min_cluster_size := number_input 1 2 (ui_min_cluster_size ui) in
      let overlap_threshold := slider 0 100 0 5 (ui_overlap ui) in
      Ok (time_key, cluster_period, min_cluster_size, overlap_threshold)
  end.

(** One run of the script, lines 36-149. *)
Definition app_run (ui : ui_input G) (w : world G) : world G * outcome G :=
  match ui_upload ui with
  | None => (w, Shown NoUpload)
  | Some gdf =>
      match widget_values ui gdf with
      | Err e => (w, Raised e)
      | Ok (time_key, cluster_period, min_cluster_size, overlap_threshold) =>
          let w1 := if ui_reset ui then reset_handler w else w in
          if ui_run ui then
            match run_handler gdf time_key cluster_period min_cluster_size
                    overlap_threshold w1 with
            | Err e => (w1, Raised (EngineFailure e))
            | Ok w2 => show_results time_key w2
            end
          else show_results time_key w1
      end
  end.
End App.

(** The sessions a user can reach from a fresh one. *)
Inductive app_reachable {G} `{ClusterEngine G} (randint : nat -> Z) (centroid : G -> Q * Q)
    (to_str : value -> string) : world G -> Prop :=
| reach_init : app_reachable randint centroid to_str init_world
| reach_run (ui : ui_input G) (w : world G) :
    app_reachable randint centroid to_str w ->
    app_reachable randint centroid to_str (app_run randint centroid to_str ui w).1.

(** ** Views of the session *)

Section Views.
Context {G : Type}.

Definition colors_of (w : world G) : gmap value string := default ∅ (ss_colors (w_session w)).

(** The colour invariant of a session. *)
Definition colors_ok (w : world G) : Prop :=
  forall cid c, colors_of w !! cid = Some c ->
    valid_color c = true /\ exists z, cid = VInt z /\ (0 <= z)%Z.

(** The stored result, when there is one, has a [cluster_id] column. *)
Definition clustered_ok (w : world G) : Prop :=
  forall f, ss_clustered (w_session w) = Some f -> has_column f "cluster_id" = true.
(** The columns line 114 casts: dtype kind ["M"] or ["m"]. *)
Definition datetime_names (cs : list column) : list string :=
  col_name <$> filter (fun c => col_kind c = "M"%char \/ col_kind c = "m"%char) cs.
End Views.
