(* ===== verification/ScriptLemmas.v ===== *)
(** * Lemmas on the model of src/app.py

    Two Sections: one over any engine (what [get_color], the styling
    pass and the result view do to the session), one over an engine
    meeting [ClusterEngineLaws] (the stored result keeps its
    [cluster_id] column, so the result view never raises); then the
    bounds of the widgets and the success path of a Run. *)

From S2P Require Import Prelude HexColor Interface Script.
From Stdlib Require Import Ascii QArith Lqa.
Local Close Scope Q_scope.

(** ** Means, line 123-124 *)

Lemma sum_bounds (lo hi : Q) (xs : list Q) :
  Forall (fun x => (lo <= x <= hi)%Q) xs ->
  (lo * inject_Z (Z.of_nat (length xs)) <= fold_right Qplus 0 xs <=
   hi * inject_Z (Z.of_nat (length xs)))%Q.
Proof.
  induction 1 as [|x xs Hx _ IH]; cbn [fold_right].
  { change (inject_Z (Z.of_nat (length []))) with 0%Q. lra. }
  change (length (x :: xs)) with (S (length xs)).
  rewrite Nat2Z.inj_succ, <- Z.add_1_r, inject_Z_plus. change (inject_Z 1) with 1%Q.
  destruct Hx, IH. split; lra.
Qed.

(** The mean of values between [lo] and [hi] is between [lo] and [hi]. *)
Lemma mean_bounds (lo hi : Q) (xs : list Q) :
  xs <> [] -> Forall (fun x => (lo <= x <= hi)%Q) xs -> (lo <= mean xs <= hi)%Q.
Proof.
  intros Hne Hb. pose proof (sum_bounds lo hi xs Hb) as [Hl Hh]. unfold mean.
  assert (Hn : (0 < inject_Z (Z.of_nat (length xs)))%Q).
  { destruct xs; [done|]. unfold Qlt. simpl. lia. }
  split; [by apply Qle_shift_div_l|by apply Qle_shift_div_r].
Qed.

(** ** Lemmas *)

Section AppLemmas.
Context {G : Type} `{ClusterEngine G} (randint : nat -> Z) (centroid : G -> Q * Q)
  (to_str : value -> string).

(** The effect of [get_color] in one statement. *)
Lemma get_color_spec (cid : value) (w : world G) :
  let '(c, w') := get_color randint cid w in
  colors_of w' = <[cid := c]> (colors_of w) /\ colors_of w ⊆ colors_of w' /\
  ss_colors (w_session w') <> None /\
  ss_clustered (w_session w') = ss_clustered (w_session w) /\
  match colors_of w !! cid with
  | Some c0 => c = c0 /\ w_draws w' = w_draws w
  | None => c = color_of_draw (randint (w_draws w)) /\ w_draws w' = S (w_draws w)
  end.
Proof.
  unfold get_color, colors_of.
  destruct (default ∅ (ss_colors (w_session w)) !! cid) as [c0|] eqn:Hc; simpl;
    split_and!; try done.
  - by rewrite insert_id.
  - by apply insert_subseteq.
Qed.

Lemma style_fn_spec (r : row G) (w : world G) :
  let '(s, w') := style_fn randint r w in
  colors_of w' = <[prop_get r "cluster_id" (VInt (-1)) := fill_color s]> (colors_of w) /\
  colors_of w ⊆ colors_of w' /\
  ss_clustered (w_session w') = ss_clustered (w_session w) /\
  (colors_of w !! prop_get r "cluster_id" (VInt (-1)) = None ->
     fill_color s = color_of_draw (randint (w_draws w))) /\
  (w_draws w <= w_draws w')%nat.
Proof.
  unfold style_fn. pose proof (get_color_spec (prop_get r "cluster_id" (VInt (-1))) w) as Hg.
  destruct (get_color randint _ w) as [c w'] eqn:Hc. simpl.
  destruct (colors_of w !! _) eqn:Hl; destruct Hg as (? & ? & ? & ? & ? & ?);
    split_and!; try done; try congruence; lia.
Qed.

(** After styling, every styled feature's colour is the one stored
    for its cluster id, and no stored colour was changed. *)
Lemma style_all_colors (rs : list (row G)) (w : world G) :
  let '(styled, w') := style_all randint rs w in
  colors_of w ⊆ colors_of w' /\
  ss_clustered (w_session w') = ss_clustered (w_session w) /\
  fst <$> styled = rs /\
  forall r s, (r, s) ∈ styled ->
    colors_of w' !! prop_get r "cluster_id" (VInt (-1)) = Some (fill_color s).
Proof.
  revert w. induction rs as [|r rs IH]; intros w; simpl; [split_and!; set_solver|].
  pose proof (style_fn_spec r w) as Hs.
  destruct (style_fn randint r w) as [s w1] eqn:Hsf.
  specialize (IH w1). destruct (style_all randint rs w1) as [styled w2].
  destruct Hs as (Hc1 & Hsub1 & Hcl1 & _ & _). destruct IH as (Hsub & Hcl2 & Hfst & Hall).
  split_and!.
  - by etrans.
  - congruence.
  - rewrite fmap_cons, Hfst. done.
  - intros r' s' [[= -> ->]|Hin]%elem_of_cons; [|by apply Hall].
    eapply lookup_weaken; [|exact Hsub]. rewrite Hc1. apply lookup_insert_eq.
Qed.

Lemma set_colors_same (w : world G) :
  ss_colors (w_session w) <> None -> set_colors (Some (colors_of w)) w = w.
Proof. intros Hn. destruct w as [[cl [c|]] d]; [reflexivity|]. by destruct Hn. Qed.

Lemma show_results_colors (tk : option string) (w : world G) :
  colors_of w ⊆ colors_of (show_results randint centroid to_str tk w).1 /\
  ss_clustered (w_session (show_results randint centroid to_str tk w).1) =
    ss_clustered (w_session w).
Proof.
  unfold show_results. destruct (ss_clustered (w_session w)) as [cl|] eqn:Hcl; [|done].
  destruct (drop_noise _) as [cm|e]; [|done].
  destruct (fr_rows cm) as [|r rs] eqn:Hr; [done|].
  pose proof (style_all_colors (r :: rs) w) as Hs.
  destruct (style_all randint (r :: rs) w) as [styled w'].
  destruct Hs as (? & ? & _). destruct (missing_field _ _); (split; [done|]; simpl; congruence).
Qed.

(** The ids whose colour a styling pass stores. *)
Lemma style_all_dom (rs : list (row G)) (w : world G) :
  dom (colors_of (style_all randint rs w).2) =
    dom (colors_of w) ∪ list_to_set ((fun r => prop_get r "cluster_id" (VInt (-1))) <$> rs).
Proof.
  revert w. induction rs as [|r rs IH]; intros w; simpl; [set_solver|].
  pose proof (style_fn_spec r w) as Hs.
  destruct (style_fn randint r w) as [s w1]. destruct Hs as (Hc1 & _).
  specialize (IH w1). destruct (style_all randint rs w1) as [styled w2]. simpl in *.
  rewrite IH, Hc1, dom_insert_L. set_solver.
Qed.

(** The centre of a drawn map is [map_center] of the drawn rows. *)
Lemma show_results_center (tk : option string) (w w' : world G) (center : Q * Q)
    (styled : list (row G * style)) (tips : list string) :
  show_results randint centroid to_str tk w = (w', Shown (ClusterMap center styled tips)) ->
  styled <> [] /\
  center = (mean ((fun r => snd (centroid (row_geom r))) <$> (fst <$> styled)),
            mean ((fun r => fst (centroid (row_geom r))) <$> (fst <$> styled))).
Proof.
  intros Hshow. unfold show_results in Hshow.
  destruct (ss_clustered (w_session w)) as [cl|]; [|done].
  destruct (drop_noise _) as [cm|]; [|done].
  destruct (fr_rows cm) as [|r rs] eqn:Hrows; [done|].
  pose proof (style_all_colors (r :: rs) w) as Hs.
  destruct (style_all randint (r :: rs) w) as [st w2].
  destruct (missing_field _ _); [done|]. injection Hshow as _ <- <- _. destruct Hs as (_ & _ & Hfst & _).
  split; [by intros ->|]. unfold map_center. by rewrite Hfst, Hrows.
Qed.

Lemma show_results_dom (tk : option string) (w w' : world G) (center : Q * Q)
    (styled : list (row G * style)) (tips : list string) :
  show_results randint centroid to_str tk w = (w', Shown (ClusterMap center styled tips)) ->
  dom (colors_of w') =
    dom (colors_of w) ∪ list_to_set ((fun rs => prop_get rs.1 "cluster_id" (VInt (-1))) <$> styled).
Proof.
  intros Hshow. unfold show_results in Hshow.
  destruct (ss_clustered (w_session w)) as [cl|]; [|done].
  destruct (drop_noise _) as [cm|]; [|done].
  destruct (fr_rows cm) as [|r rs]; [done|].
  pose proof (style_all_dom (r :: rs) w) as Hd.
  pose proof (style_all_colors (r :: rs) w) as Hs.
  destruct (style_all randint (r :: rs) w) as [st w2].
  destruct (missing_field _ _); [done|]. injection Hshow as <- _ <- _. destruct Hs as (_ & _ & Hfst & _).
  cbn [snd] in Hd. rewrite Hd, <- Hfst, <- list_fmap_compose. done.
Qed.

Hypothesis Hrand : forall k, (0 <= randint k <= 0xFFFFFF)%Z.

Lemma style_all_ok (rs : list (row G)) (w : world G) :
  Forall (fun r => not_noise r = true) rs -> colors_ok w ->
  colors_ok (style_all randint rs w).2.
Proof.
  revert w. induction rs as [|r rs IH]; intros w Hrs Hok; simpl; [done|].
  apply Forall_cons in Hrs as [Hr Hrs].
  pose proof (style_fn_spec r w) as Hs.
  destruct (style_fn randint r w) as [s w1] eqn:Hsf.
  destruct (style_all randint rs w1) as [styled w2] eqn:Ha.
  change w2 with (styled, w2).2. rewrite <- Ha. apply IH; [done|].
  destruct Hs as (Hc1 & Hsub & _ & Hnew & _).
  intros cid c. rewrite Hc1. destruct (decide (cid = prop_get r "cluster_id" (VInt (-1))))
    as [->|Hne]; [rewrite lookup_insert_eq|rewrite lookup_insert_ne by done; apply Hok].
  intros [= <-]. unfold not_noise, prop_get in *.
  destruct (row_props r !! "cluster_id"%string) as [[z| | | |]|] eqn:Hz; try done.
  bool_to_prop. split; [|exists z; split; [done|lia]].
  destruct (colors_of w !! VInt z) as [c0|] eqn:Hc0.
  - pose proof (lookup_weaken _ _ _ _ Hc0 Hsub) as Hc0'.
    rewrite Hc1, lookup_insert_eq in Hc0'. injection Hc0' as ->.
    by apply (Hok (VInt z)).
  - rewrite Hnew by done. apply color_of_draw_valid, Hrand.
Qed.

Lemma drop_noise_rows (f cm : frame G) :
  drop_noise f = Ok cm -> fr_rows cm = filter not_noise (fr_rows f).
Proof.
  unfold drop_noise. destruct (has_column f _); intros Hd; [|discriminate].
  injection Hd as <-. reflexivity.
Qed.

Lemma show_results_ok (tk : option string) (w : world G) :
  colors_ok w -> colors_ok (show_results randint centroid to_str tk w).1.
Proof.
  intros Hok. unfold show_results. destruct (ss_clustered (w_session w)); [|done].
  destruct (drop_noise _) as [cm|e] eqn:Hd; [|done].
  pose proof (drop_noise_rows _ _ Hd) as Hrows.
  destruct (fr_rows cm) as [|r rs] eqn:Hr; [done|].
  pose proof (style_all_ok (r :: rs) w) as Hs.
  destruct (style_all randint (r :: rs) w) as [styled w'] eqn:Ha.
  assert (Hw : colors_ok w').
  { apply Hs; [|done]. rewrite Hrows. apply Forall_forall.
    intros x [Hx _]%list_elem_of_filter. by apply Is_true_true_1. }
  by destruct (missing_field _ _).
Qed.

Lemma app_run_ok (ui : ui_input G) (w : world G) :
  colors_ok w -> colors_ok (app_run randint centroid to_str ui w).1.
Proof.
  intros Hok. unfold app_run.
  destruct (ui_upload ui) as [gdf|]; [|done].
  destruct (widget_values _ _) as [[[[tk thr] mcs] ov]|]; [|done].
  assert (Hok1 : colors_ok (if ui_reset ui then reset_handler w else w)).
  { destruct (ui_reset ui); [|done]. intros cid c. unfold colors_of. simpl.
    by rewrite lookup_empty. }
  destruct (ui_run ui); [|by apply show_results_ok].
  unfold run_handler. destruct (cluster_polygons _ _ _ _ _); simpl; [|done].
  by apply show_results_ok.
Qed.
End AppLemmas.

(** ** The cast of the datetime columns, lines 112-115 *)

Section CastLemmas.
Context {G : Type} (to_str : value -> string).

Lemma cast_column_kinds (c c' : column) (f : frame G) :
  c' ∈ fr_columns (cast_column to_str c f) ->
  (col_kind c' = "M"%char \/ col_kind c' = "m"%char) ->
  c' ∈ fr_columns f /\
  ((col_kind c = "M"%char \/ col_kind c = "m"%char) -> col_name c' <> col_name c).
Proof.
  unfold cast_column. case_decide as Hc; [|intros Hin _; split; [done|tauto]].
  simpl. intros (c0 & -> & Hin)%list_elem_of_fmap.
  case_decide as Hn; [simpl; intros [? | ?]; discriminate|].
  intros _. split; [done|]. intros _. done.
Qed.

(** Over the columns still to process, every datetime column left is
    one of them. *)
Lemma cast_fold_kinds (cs : list column) (acc : frame G) :
  (forall c', c' ∈ fr_columns acc -> (col_kind c' = "M"%char \/ col_kind c' = "m"%char) ->
     c' ∈ cs) ->
  forall c', c' ∈ fr_columns (foldl (fun acc c => cast_column to_str c acc) acc cs) ->
    ~ (col_kind c' = "M"%char \/ col_kind c' = "m"%char).
Proof.
  revert acc. induction cs as [|c cs IH]; intros acc Hinv c' Hin Hdt; simpl in *.
  - by apply (Hinv c') in Hdt as ?%elem_of_nil.
  - refine (IH _ _ c' Hin Hdt). intros c'' Hc'' Hdt''.
    destruct (cast_column_kinds c c'' acc Hc'' Hdt'') as [Hacc Hne].
    pose proof (Hinv c'' Hacc Hdt'') as [->|?]%elem_of_cons; [|done].
    by destruct (Hne Hdt'').
Qed.

(** The cell of column [c] after [astype(str)]: the string of the value,
    ["NaT"] for a missing one. *)
Definition cast_cell (v : option value) : option value := Some (VStr (default "NaT" (to_str <$> v))).

Lemma cast_column_rows (c : column) (f : frame G) :
  fr_rows (cast_column to_str c f) =
    if decide (col_kind c = "M"%char \/ col_kind c = "m"%char)
    then (fun r => mk_row (row_geom r) (partial_alter cast_cell (col_name c) (row_props r)))
           <$> fr_rows f
    else fr_rows f.
Proof. unfold cast_column. by case_decide. Qed.

(** What the cast does to each row: the geometry and every attribute
    outside the datetime columns are kept, every cell of a datetime
    column becomes a string. *)
Lemma cast_fold_rows (cs : list column) (acc : frame G) (i : nat) (r : row G) :
  fr_rows acc !! i = Some r ->
  exists r', fr_rows (foldl (fun acc c => cast_column to_str c acc) acc cs) !! i = Some r' /\
    row_geom r' = row_geom r /\
    (forall k, k ∉ datetime_names cs -> row_props r' !! k = row_props r !! k) /\
    (forall k, k ∈ datetime_names cs -> exists s, row_props r' !! k = Some (VStr s)).
Proof.
  revert acc r. induction cs as [|c cs IH]; intros acc r Hr; simpl.
  - exists r. split_and!; try done. intros k Hk. by apply elem_of_nil in Hk.
  - set (r1 := if decide (col_kind c = "M"%char \/ col_kind c = "m"%char)
                then mk_row (row_geom r) (partial_alter cast_cell (col_name c) (row_props r))
                else r).
    assert (Hr1 : fr_rows (cast_column to_str c acc) !! i = Some r1).
    { rewrite cast_column_rows. subst r1. case_decide; [|done].
      by rewrite list_lookup_fmap, Hr. }
    destruct (IH _ _ Hr1) as (r' & Hr' & Hg & Hout & Hin). exists r'.
    unfold datetime_names in *. rewrite filter_cons in *.
    split_and!; [done|by rewrite Hg; subst r1; case_decide| |].
    + intros k Hk. rewrite Hout by (case_decide; set_solver). subst r1. case_decide; [|done].
      simpl. rewrite lookup_partial_alter_ne; [done|]. set_solver.
    + intros k Hk. destruct (decide (k ∈ col_name <$> filter
         (fun c => col_kind c = "M"%char \/ col_kind c = "m"%char) cs)) as [Hk'|Hk'];
        [by apply Hin|].
      case_decide as Hc; [|set_solver]. rewrite Hout by done.
      assert (k = col_name c) as -> by set_solver. subst r1. simpl.
      rewrite lookup_partial_alter_eq. by eexists.
Qed.

Lemma cast_column_names (c : column) (f : frame G) :
  col_name <$> fr_columns (cast_column to_str c f) = col_name <$> fr_columns f.
Proof.
  unfold cast_column. case_decide; [|done]. simpl. rewrite <- list_fmap_compose.
  apply list_fmap_ext. intros i c' _. unfold compose. by case_decide.
Qed.

Lemma cast_fold_names (cs : list column) (acc : frame G) :
  col_name <$> fr_columns (foldl (fun acc c => cast_column to_str c acc) acc cs) =
    col_name <$> fr_columns acc.
Proof.
  revert acc. induction cs as [|c cs IH]; intros acc; [done|]. simpl.
  by rewrite IH, cast_column_names.
Qed.

Lemma length_cast_fold (cs : list column) (acc : frame G) :
  length (fr_rows (foldl (fun acc c => cast_column to_str c acc) acc cs)) = length (fr_rows acc).
Proof.
  revert acc. induction cs as [|c cs IH]; intros acc; simpl; [done|].
  rewrite IH, cast_column_rows. case_decide; [apply length_fmap|done].
Qed.
End CastLemmas.

(** ** The session under an engine that meets the interface laws *)

Section SessionLemmas.
Context {G : Type} `{ClusterEngineLaws G} (randint : nat -> Z) (centroid : G -> Q * Q)
  (to_str : value -> string).

Lemma has_column_cast (f : frame G) (k : string) :
  has_column (cast_time_columns to_str f) k = has_column f k.
Proof. unfold has_column, cast_time_columns. by rewrite cast_fold_names. Qed.

(** The unit selectbox always yields a key of [unit_multipliers]. *)
Lemma widget_values_ok (ui : ui_input G) (gdf : frame G) :
  (forall k, ui_unit_choice ui = Some k -> k < 4) ->
  exists vals, widget_values ui gdf = Ok vals.
Proof.
  intros Hk. unfold widget_values.
  destruct (ui_unit_choice ui) as [[|[|[|[|k]]]]|] eqn:Hu; try (eexists; reflexivity).
  specialize (Hk _ eq_refl). lia.
Qed.

Lemma geojson_keys_elem (f : frame G) (k : string) :
  k ∈ geojson_keys f <-> has_column f k = true /\ k <> geometry_column.
Proof.
  unfold geojson_keys, has_column. rewrite list_elem_of_filter, bool_decide_eq_true. tauto.
Qed.

Lemma missing_field_Some (fields keys : list string) (k : string) :
  missing_field fields keys = Some k -> k ∈ fields /\ k ∉ keys.
Proof.
  unfold missing_field. destruct (filter _ fields) as [|x xs] eqn:Hf; [done|].
  intros [= ->]. assert (Hk : k ∈ filter (fun k => k ∉ keys) fields) by (rewrite Hf; left).
  apply list_elem_of_filter in Hk. tauto.
Qed.

(** Of the tooltip's fields, only the geometry column can be missing from
    the features' properties, and only as the time key: ["cluster_id"]
    is a column, and the time key is added only when it is one. *)
Lemma tooltip_missing_geometry (tk : option string) (f : frame G) (k : string) :
  has_column f "cluster_id" = true ->
  missing_field (tooltip_fields tk f) (geojson_keys f) = Some k ->
  k = geometry_column /\ truthy_key tk = Some k.
Proof.
  intros Hcid [Hin Hout]%missing_field_Some. rewrite geojson_keys_elem in Hout.
  unfold tooltip_fields in Hin. apply elem_of_cons in Hin as [->|Hin].
  { destruct Hout. split; [done|]. unfold geometry_column. congruence. }
  destruct (truthy_key tk) as [k'|]; [|by apply elem_of_nil in Hin].
  destruct (has_column f k') eqn:Hk; [|by apply elem_of_nil in Hin].
  apply list_elem_of_singleton in Hin as ->. split; [|done].
  destruct (decide (k' = geometry_column)); [done|]. by destruct Hout.
Qed.

(** With a [cluster_id] column in the stored result, the result view
    raises nothing but folium's assertion on the geometry column, chosen
    as the time key. *)
Lemma show_results_raise (tk : option string) (w : world G) (e : script_error) :
  clustered_ok w -> (show_results randint centroid to_str tk w).2 = Raised e ->
  e = FoliumAssertion geometry_column /\ truthy_key tk = Some geometry_column.
Proof.
  intros Hok. unfold show_results. destruct (ss_clustered (w_session w)) as [cl|] eqn:Hcl;
    [|done].
  unfold drop_noise. rewrite has_column_cast, (Hok cl Hcl).
  destruct (filter _ _) as [|r rs]; [done|]. cbn [fr_rows].
  destruct (style_all randint (r :: rs) w).
  destruct (missing_field _ _) as [k|] eqn:Hm; [|done]. simpl. intros [= <-].
  assert (Hc : has_column (mk_frame (fr_columns (cast_time_columns to_str cl)) (r :: rs))
                 "cluster_id" = true).
  { change (has_column (cast_time_columns to_str cl) "cluster_id" = true).
    rewrite has_column_cast. exact (Hok cl Hcl). }
  destruct (tooltip_missing_geometry tk _ k Hc Hm) as [-> ?]. done.
Qed.

(** The geometry column chosen as the time key: as soon as the stored
    result has a non-noise row, the result view stops at folium's
    assertion, after styling. *)
Lemma show_results_geometry_raise (tk : option string) (w : world G) (f : frame G) :
  ss_clustered (w_session w) = Some f -> has_column f "cluster_id" = true ->
  "cluster_id"%string ∉ datetime_names (fr_columns f) ->
  has_column f geometry_column = true -> truthy_key tk = Some geometry_column ->
  (exists r, r ∈ fr_rows f /\ not_noise r = true) ->
  (show_results randint centroid to_str tk w).2 = Raised (FoliumAssertion geometry_column).
Proof.
  intros Hf Hcid Hdt Hgeo Htk (r & Hr & Hnn). unfold show_results. rewrite Hf.
  unfold drop_noise. rewrite has_column_cast, Hcid.
  apply list_elem_of_lookup in Hr as [i Hi].
  destruct (cast_fold_rows to_str (fr_columns f) f i r Hi) as (r' & Hr' & _ & Hout & _).
  assert (Hin : r' ∈ filter not_noise (fr_rows (cast_time_columns to_str f))).
  { apply list_elem_of_filter. split.
    - unfold not_noise in *. rewrite Hout by done. by apply Is_true_true_2.
    - unfold cast_time_columns. by eapply list_elem_of_lookup_2. }
  destruct (filter _ _) as [|r0 rs] eqn:Hfl; [by apply elem_of_nil in Hin|]. cbn [fr_rows].
  destruct (style_all randint (r0 :: rs) w) as [st w2].
  assert (Hc : forall k, has_column (mk_frame (fr_columns (cast_time_columns to_str f)) (r0 :: rs)) k
                         = has_column f k).
  { intros k. change (has_column (cast_time_columns to_str f) k = has_column f k).
    apply has_column_cast. }
  unfold missing_field, tooltip_fields. rewrite Htk, Hc, Hgeo.
  rewrite filter_cons_False, filter_cons_True, filter_nil; [done| |].
  - rewrite geojson_keys_elem, Hc. unfold geometry_column. intros [_ ?]; done.
  - rewrite geojson_keys_elem, Hc, Hcid. unfold geometry_column. intros []; split; done.
Qed.

Lemma app_run_clustered_ok (ui : ui_input G) (w : world G) :
  clustered_ok w -> clustered_ok (app_run randint centroid to_str ui w).1.
Proof.
  intros Hok. unfold app_run.
  destruct (ui_upload ui) as [gdf|]; [|done].
  destruct (widget_values _ _) as [[[[tk thr] mcs] ov]|]; [|done].
  assert (Hok1 : clustered_ok (if ui_reset ui then reset_handler w else w))
    by (destruct (ui_reset ui); [discriminate|done]).
  destruct (ui_run ui).
  - unfold run_handler. destruct (cluster_polygons _ _ _ _ _) as [f|] eqn:Hc; simpl; [|done].
    intros f'. rewrite (proj2 (show_results_colors _ _ _ _ _)). simpl.
    intros [= <-]. by eapply ce_column.
  - intros f'. rewrite (proj2 (show_results_colors _ _ _ _ _)). apply Hok1.
Qed.

Lemma app_reachable_clustered_ok (w : world G) :
  app_reachable randint centroid to_str w -> clustered_ok w.
Proof.
  induction 1 as [|ui w _ IH]; [discriminate|]. by apply app_run_clustered_ok.
Qed.
End SessionLemmas.

(** ** Lemmas on the widgets and the Run path *)

Lemma unit_multipliers_pos (u : string) (m : Z) :
  unit_multipliers !! u = Some m -> (1 <= m)%Z.
Proof.
  intros Hm%elem_of_list_to_map_2.
  repeat (apply elem_of_cons in Hm as [Hm|Hm]; [injection Hm as _ ->; lia|]).
  by apply elem_of_nil in Hm.
Qed.

Lemma slider_spec (lo hi dflt step : Z) (e : option Z) :
  (0 < step)%Z -> (lo <= dflt <= hi)%Z ->
  (lo <= slider lo hi dflt step e <= hi)%Z /\
  (e <> None -> (hi - lo) mod step = 0 -> (slider lo hi dflt step e - lo) mod step = 0)%Z.
Proof.
  intros Hs Hd. destruct e as [v|]; simpl; [|split; [lia|done]].
  pose proof (Z.div_mod (v - lo) step ltac:(lia)).
  split; [lia|]. intros _ Hhl.
  set (x := (lo + step * ((v - lo) / step))%Z).
  assert (Hx : ((x - lo) mod step = 0)%Z).
  { unfold x. rewrite Z.add_simpl_l, Z.mul_comm. apply Z.mod_mul. lia. }
  destruct (Z.le_gt_cases x lo).
  - rewrite Z.max_l, Z.min_r, Z.sub_diag by lia. reflexivity.
  - rewrite Z.max_r by lia. destruct (Z.le_gt_cases x hi).
    + by rewrite Z.min_r by lia.
    + by rewrite Z.min_l by lia.
Qed.

Lemma widget_values_bounds {G : Type} (ui : ui_input G) (gdf : frame G)
    (tk : option string) (thr mcs ov : Z) :
  widget_values ui gdf = Ok (tk, thr, mcs, ov) ->
  (1 <= thr)%Z /\ (1 <= mcs)%Z /\ (0 <= ov <= 100)%Z /\ (ov mod 5 = 0)%Z.
Proof.
  unfold widget_values. destruct (_ ≫= _) as [mult|] eqn:Hm; [|discriminate].
  intros [= <- <- <- <-].
  apply bind_Some in Hm as (u & _ & Hm). apply unit_multipliers_pos in Hm.
  destruct (slider_spec 0 100 0 5 (ui_overlap ui) ltac:(lia) ltac:(lia)) as [Hb Hmod].
  split_and!; [| |exact (proj1 Hb)|exact (proj2 Hb)|].
  - unfold number_input. destruct (ui_cluster_value ui); nia.
  - unfold number_input. destruct (ui_min_cluster_size ui); lia.
  - destruct (ui_overlap ui) eqn:He; [|reflexivity].
    rewrite <- (Z.sub_0_r (slider 0 100 0 5 _)). apply Hmod; [done|reflexivity].
Qed.

(** The success path of a run with Run: the stored result is the
    engine's answer on the widget values. *)
Lemma app_run_stored {G : Type} `{ClusterEngine G} (randint : nat -> Z)
    (centroid : G -> Q * Q) (to_str : value -> string) (ui : ui_input G) (w w' : world G)
    (gdf : frame G) (v : map_view G) :
  ui_upload ui = Some gdf -> ui_run ui = true ->
  app_run randint centroid to_str ui w = (w', Shown v) ->
  exists tk thr mcs ov f, widget_values ui gdf = Ok (tk, thr, mcs, ov) /\
    ss_clustered (w_session w') = Some f /\
    cluster_polygons gdf (truthy_key tk) thr mcs (inject_Z ov) = Ok f.
Proof.
  intros Hu Hrun Happ. unfold app_run in Happ. rewrite Hu in Happ.
  destruct (widget_values ui gdf) as [[[[tk thr] mcs] ov]|] eqn:Hw; [|discriminate].
  rewrite Hrun in Happ.
  destruct (run_handler _ _ _ _ _ _) as [w2|e] eqn:Hr; [|discriminate].
  unfold run_handler in Hr.
  destruct (cluster_polygons _ _ _ _ _) as [f|] eqn:Hc; [|discriminate].
  injection Hr as <-.
  pose proof (show_results_colors randint centroid to_str tk
                (set_clustered (Some f) (if ui_reset ui then reset_handler w else w))) as [_ Hcl].
  rewrite Happ in Hcl. simpl in Hcl. eauto 10.
Qed.

(** A run with Run that does not end in an engine error has stored the
    engine's answer on the widget values (folium may still raise after). *)
Lemma app_run_run_stored {G : Type} `{ClusterEngine G} (randint : nat -> Z)
    (centroid : G -> Q * Q) (to_str : value -> string) (ui : ui_input G) (w w' : world G)
    (gdf : frame G) (o : outcome G) (tk : option string) (thr mcs ov : Z) :
  ui_upload ui = Some gdf -> ui_run ui = true -> widget_values ui gdf = Ok (tk, thr, mcs, ov) ->
  app_run randint centroid to_str ui w = (w', o) ->
  (forall ee, o <> Raised (EngineFailure ee)) ->
  exists f, ss_clustered (w_session w') = Some f /\
    cluster_polygons gdf (truthy_key tk) thr mcs (inject_Z ov) = Ok f.
Proof.
  intros Hu Hrun Hw Happ Hne. unfold app_run in Happ. rewrite Hu, Hw, Hrun in Happ.
  unfold run_handler in Happ.
  destruct (cluster_polygons _ _ _ _ _) as [f|e] eqn:Hc; [|injection Happ as _ <-; by destruct (Hne e)].
  pose proof (show_results_colors randint centroid to_str tk
                (set_clustered (Some f) (if ui_reset ui then reset_handler w else w))) as [_ Hcl].
  simpl in Happ. rewrite Happ in Hcl. simpl in Hcl. eauto.
Qed.

(** The values lines 46-80 read, in closed form: the selected column
    (the first offered one by default), the period value (at least 1,
    default 1) times the seconds of the unit (default hours), the minimum
    cluster size (at least 1, default 2), the overlap (default 0, else
    the entry on the grid of 5 in [[0, 100]]). *)
Lemma widget_values_closed {G : Type} (ui : ui_input G) (gdf : frame G) :
  (default 2 (ui_unit_choice ui) < 4)%nat ->
  exists m, [1; 60; 3600; 86400]%Z !! default 2 (ui_unit_choice ui) = Some m /\
    widget_values ui gdf =
      Ok (match ui_time_choice ui with
          | Some k => datetime_cols gdf !! k
          | None => head (datetime_cols gdf) end,
          (Z.max 1 (default 1 (ui_cluster_value ui)) * m)%Z,
          Z.max 1 (default 2 (ui_min_cluster_size ui)),
          match ui_overlap ui with
          | Some v => Z.min 100 (Z.max 0 (5 * (v / 5)))
          | None => 0 end)%Z.
Proof.
  intros Hu. unfold widget_values.
  assert (Hsel : selectbox (datetime_cols gdf)
                   (if datetime_cols gdf is [] then None else Some 0) (ui_time_choice ui) =
                 match ui_time_choice ui with
                 | Some k => datetime_cols gdf !! k
                 | None => head (datetime_cols gdf) end).
  { unfold selectbox. destruct (ui_time_choice ui); [done|]. by destruct (datetime_cols gdf). }
  assert (Hcv : number_input 1 1 (ui_cluster_value ui) = Z.max 1 (default 1 (ui_cluster_value ui))%Z).
  { by destruct (ui_cluster_value ui). }
  assert (Hmcs : number_input 1 2 (ui_min_cluster_size ui) =
                 Z.max 1 (default 2 (ui_min_cluster_size ui))%Z).
  { by destruct (ui_min_cluster_size ui). }
  assert (Hov : slider 0 100 0 5 (ui_overlap ui) =
                match ui_overlap ui with
                | Some v => Z.min 100 (Z.max 0 (5 * (v / 5)))
                | None => 0 end%Z).
  { destruct (ui_overlap ui) as [v|]; [|done]. simpl. by rewrite Z.sub_0_r. }
  rewrite Hsel, Hcv, Hmcs, Hov.
  destruct (ui_unit_choice ui) as [[|[|[|[|k]]]]|]; simpl in Hu |- *;
    try (eexists; split; reflexivity). lia.
Qed.
