(* ===== verification/ScriptProps.v ===== *)
(** * Properties of the app src/app.py

    The theorems about the script's behaviour over reruns: colours,
    Reset and Run, the stored result, the widgets, the time-column
    selector; with examples on small frames of [unit] geometries. *)

From S2P Require Import Prelude HexColor Interface Script ScriptLemmas.
From Stdlib Require Import Ascii QArith Lqa.
Local Close Scope Q_scope.

(** ** Example data *)

(** Example data: two rows of cluster 1 and one noise row. *)
Definition ex_row (z : Z) : row unit := mk_row tt {[ "cluster_id"%string := VInt z ]}.

Definition ex_frame : frame unit :=
  mk_frame [mk_column "cluster_id" "i"%char] [ex_row 1; ex_row 1; ex_row (-1)].

(** Two rows of cluster 0 and a noise row: the lowest id the map draws. *)
Definition ex_frame0 : frame unit :=
  mk_frame [mk_column "cluster_id" "i"%char] [ex_row 0; ex_row 0; ex_row (-1)].

Definition ex_world : world unit := mk_world (mk_session (Some ex_frame) None) 0.

Definition ex_randint (k : nat) : Z := ((0x3366cc + Z.of_nat k) mod 0x1000000)%Z.

Definition ex_style : style := mk_style (color_of_draw 0x3366cc) "black" 1 (7 # 10).

(** The engine that rejects every input, for the examples below. *)
Definition ex_failing_engine : ClusterEngine unit := fun _ _ _ _ _ => Err EmptyInput.

(** An engine that returns the frame it is given. *)
Definition ex_echo_engine : ClusterEngine unit := fun f _ _ _ _ => Ok f.

(** Reset and Run on the frame of [ex_frame], through [ex_echo_engine]. *)
Definition ex_rr_out : world unit * outcome unit :=
  @app_run unit ex_echo_engine ex_randint (fun _ => (0, 0)%Q) (fun _ => ""%string)
    (mk_ui (Some ex_frame) None None None None None true true) ex_world.

Definition ex_rr_styled : list (row unit * style) :=
  match ex_rr_out.2 with Shown (ClusterMap _ st _) => st | _ => [] end.

Definition ex_rr_center : Q * Q :=
  match ex_rr_out.2 with Shown (ClusterMap c _ _) => c | _ => (0, 0)%Q end.

Definition ex_rr_tips : list string :=
  match ex_rr_out.2 with Shown (ClusterMap _ _ t) => t | _ => [] end.

(** The result view of [ex_world], every centroid at [(3, 2)]. *)
Definition ex_sr_out : world unit * outcome unit :=
  show_results ex_randint (fun _ => (3 # 1, 2 # 1)%Q) (fun _ => ""%string) None ex_world.

Definition ex_sr_center : Q * Q :=
  match ex_sr_out.2 with Shown (ClusterMap c _ _) => c | _ => (0, 0)%Q end.

Definition ex_sr_styled : list (row unit * style) :=
  match ex_sr_out.2 with Shown (ClusterMap _ st _) => st | _ => [] end.

Definition ex_sr_tips : list string :=
  match ex_sr_out.2 with Shown (ClusterMap _ _ t) => t | _ => [] end.

(** ** Properties of the app *)

(** C24 (get_color_idempotent). Asking [get_color] again for the same
    cluster id returns the same colour and changes nothing: a colour,
    once drawn, is the colour of that id. *)
Theorem get_color_idempotent {G : Type} (randint : nat -> Z) (cid : value) (w : world G) :
  let '(c, w') := get_color randint cid w in get_color randint cid w' = (c, w').
Proof.
  pose proof (get_color_spec randint cid w) as Hs.
  destruct (get_color randint cid w) as [c w'] eqn:Hg.
  destruct Hs as (Hc & _ & Hnone & _ & _).
  unfold get_color. fold (colors_of w'). rewrite Hc, lookup_insert_eq. simpl.
  rewrite <- Hc. by rewrite set_colors_same.
Qed.

(** C11 (cluster_color). On the map, features with the same cluster id
    are drawn in the same colour, the colour the session stores for that
    id after the run. *)
Theorem show_results_cluster_color {G : Type} (randint : nat -> Z) (centroid : G -> Q * Q)
    (to_str : value -> string) (tk : option string) (w w' : world G) (center : Q * Q)
    (styled : list (row G * style)) (tips : list string) (r1 r2 : row G) (s1 s2 : style) :
  show_results randint centroid to_str tk w = (w', Shown (ClusterMap center styled tips)) ->
  (r1, s1) ∈ styled -> (r2, s2) ∈ styled ->
  prop_get r1 "cluster_id" (VInt (-1)) = prop_get r2 "cluster_id" (VInt (-1)) ->
  fill_color s1 = fill_color s2 /\
  colors_of w' !! prop_get r1 "cluster_id" (VInt (-1)) = Some (fill_color s1).
Proof.
  intros Hshow H1 H2 Hid. unfold show_results in Hshow.
  destruct (ss_clustered (w_session w)); [|done].
  destruct (drop_noise _) as [cm|]; [|done].
  destruct (fr_rows cm) as [|r rs]; [done|].
  pose proof (style_all_colors randint (r :: rs) w) as Hs.
  destruct (style_all randint (r :: rs) w) as [st w2].
  destruct (missing_field _ _); [done|]. injection Hshow as <- _ <- _. destruct Hs as (_ & _ & _ & Hall).
  pose proof (Hall _ _ H1) as E1. pose proof (Hall _ _ H2) as E2.
  rewrite Hid in E1 |- *. split; [congruence|done].
Qed.

Lemma show_results_cluster_color_witness :
  fill_color ex_style = fill_color ex_style /\
  colors_of (mk_world (mk_session (Some ex_frame) (Some {[VInt 1 := color_of_draw 0x3366cc]})) 1)
    !! prop_get (ex_row 1) "cluster_id" (VInt (-1)) = Some (fill_color ex_style).
Proof.
  eapply (show_results_cluster_color ex_randint (fun _ => (0, 0)%Q) (fun _ => ""%string)
            None ex_world);
    [vm_compute; reflexivity| | |reflexivity];
    apply elem_of_cons; [left; reflexivity|right; apply elem_of_cons; left; reflexivity].
Defined.

(** C12 (colors_persist). A run without Reset keeps every colour the
    session had: colours are only added. *)
Theorem app_run_colors_persist {G : Type} `{ClusterEngine G} (randint : nat -> Z)
    (centroid : G -> Q * Q) (to_str : value -> string) (ui : ui_input G) (w : world G) :
  ui_reset ui = false ->
  colors_of w ⊆ colors_of (app_run randint centroid to_str ui w).1.
Proof.
  intros Hr. unfold app_run. rewrite Hr.
  destruct (ui_upload ui) as [gdf|]; [|done].
  destruct (widget_values _ _) as [[[[tk thr] mcs] ov]|]; [|done].
  destruct (ui_run ui); [|apply show_results_colors].
  unfold run_handler. destruct (cluster_polygons _ _ _ _ _); simpl; [|done].
  apply (show_results_colors randint centroid to_str _ (set_clustered _ w)).
Qed.

Lemma app_run_colors_persist_witness :
  colors_of ex_world ⊆
  colors_of (@app_run unit ex_failing_engine ex_randint (fun _ => (0, 0)%Q) (fun _ => ""%string)
               (mk_ui (Some ex_frame) None None None None None false false) ex_world).1.
Proof. apply app_run_colors_persist. reflexivity. Defined.

(** C10 (colors_ok). In every session a user can reach, each stored
    colour is a well-formed ["#rrggbb"] string and is keyed by a
    non-negative integer cluster id: noise never gets a colour. *)
Theorem app_reachable_colors_ok {G : Type} `{ClusterEngine G} (randint : nat -> Z)
    (centroid : G -> Q * Q) (to_str : value -> string) (w : world G) :
  (forall k, (0 <= randint k <= 0xFFFFFF)%Z) ->
  app_reachable randint centroid to_str w -> colors_ok w.
Proof.
  intros Hrand Hreach. induction Hreach as [|ui w _ IH].
  - intros cid c. unfold colors_of. simpl. by rewrite lookup_empty.
  - by apply app_run_ok.
Qed.

Lemma app_reachable_colors_ok_witness :
  @colors_ok unit (@app_run unit ex_failing_engine ex_randint (fun _ => (0, 0)%Q)
     (fun _ => ""%string) (mk_ui (Some ex_frame) None None None None None false false)
     init_world).1.
Proof.
  apply (@app_reachable_colors_ok unit ex_failing_engine ex_randint (fun _ => (0, 0)%Q)
           (fun _ => ""%string)).
  - intros k. unfold ex_randint. pose proof (Z.mod_pos_bound (0x3366cc + Z.of_nat k) 0x1000000 ltac:(lia)). lia.
  - apply reach_run, reach_init.
Defined.

(** C6 (engine_errors_only). Against any engine meeting the interface
    laws, a run in a session a user can reach never raises a [KeyError]:
    not that of [clustered_map["cluster_id"]] (line 118), nor that of
    [unit_multipliers[cluster_unit]] (line 61) on a unit the selectbox
    offers.  It raises the engine's own errors, or folium's tooltip
    assertion, and that only for the geometry column. *)
Theorem app_run_engine_errors_only {G : Type} `{ClusterEngineLaws G} (randint : nat -> Z)
    (centroid : G -> Q * Q) (to_str : value -> string) (ui : ui_input G) (w : world G)
    (e : script_error) :
  app_reachable randint centroid to_str w ->
  (forall k, ui_unit_choice ui = Some k -> k < 4) ->
  (app_run randint centroid to_str ui w).2 = Raised e ->
  (exists ee, e = EngineFailure ee) \/ e = FoliumAssertion geometry_column.
Proof.
  intros Hreach Hk Happ. pose proof (app_reachable_clustered_ok _ _ _ _ Hreach) as Hok.
  unfold app_run in Happ. destruct (ui_upload ui) as [gdf|]; [|discriminate].
  destruct (widget_values_ok ui gdf Hk) as [[[[tk thr] mcs] ov] Hw]. rewrite Hw in Happ.
  set (w1 := if ui_reset ui then reset_handler w else w) in Happ.
  assert (Hok1 : clustered_ok w1) by (subst w1; destruct (ui_reset ui); [discriminate|done]).
  destruct (ui_run ui).
  - unfold run_handler in Happ.
    destruct (cluster_polygons _ _ _ _ _) as [f|ee] eqn:Hc; [right|injection Happ as <-; eauto].
    eapply proj1, (show_results_raise randint centroid to_str tk (set_clustered (Some f) w1) e);
      [|exact Happ].
    intros f' [= <-]. by eapply ce_column.
  - right. exact (proj1 (show_results_raise randint centroid to_str tk w1 e Hok1 Happ)).
Qed.

(** C26 (color_collision). [get_color] draws the colour of each new
    cluster id independently of the colours already stored: two
    different clusters drawn one after the other get the same colour
    whenever the two draws coincide, although the page says clusters are
    shown in different colours (line 31). *)
Theorem get_color_collision {G : Type} (randint : nat -> Z) (a b : value) (w : world G) :
  colors_of w !! a = None -> colors_of w !! b = None -> a <> b ->
  randint (S (w_draws w)) = randint (w_draws w) ->
  let '(ca, w1) := get_color randint a w in (get_color randint b w1).1 = ca.
Proof.
  intros Ha Hb Hab Hdraw. pose proof (get_color_spec randint a w) as Hga.
  destruct (get_color randint a w) as [ca w1]. rewrite Ha in Hga.
  destruct Hga as (Hc1 & _ & _ & _ & -> & Hd1).
  pose proof (get_color_spec randint b w1) as Hgb.
  destruct (get_color randint b w1) as [cb w2]. simpl.
  rewrite Hc1, lookup_insert_ne, Hb in Hgb by done.
  destruct Hgb as (_ & _ & _ & _ & -> & _). by rewrite Hd1, Hdraw.
Qed.

Lemma get_color_collision_witness :
  let '(ca, w1) := get_color (fun _ => 0x3366cc%Z) (VInt 0) (@init_world unit) in
  (get_color (fun _ => 0x3366cc%Z) (VInt 1) w1).1 = ca.
Proof. apply get_color_collision; [reflexivity|reflexivity|discriminate|reflexivity]. Defined.

(** C13 (reset_run_colors). Reset and Run in one run start the colours
    afresh: when the map is drawn, the stored colours are exactly those
    of the cluster ids drawn on it. *)
Theorem app_run_reset_run_colors {G : Type} `{ClusterEngine G} (randint : nat -> Z)
    (centroid : G -> Q * Q) (to_str : value -> string) (ui : ui_input G) (w w' : world G)
    (gdf : frame G) (center : Q * Q) (styled : list (row G * style)) (tips : list string) :
  ui_upload ui = Some gdf -> ui_reset ui = true -> ui_run ui = true ->
  app_run randint centroid to_str ui w = (w', Shown (ClusterMap center styled tips)) ->
  dom (colors_of w') =
    list_to_set ((fun rs => prop_get rs.1 "cluster_id" (VInt (-1))) <$> styled).
Proof.
  intros Hu Hr Hrun Happ. unfold app_run in Happ. rewrite Hu in Happ.
  destruct (widget_values ui gdf) as [[[[tk thr] mcs] ov]|]; [|discriminate].
  rewrite Hr, Hrun in Happ. unfold run_handler in Happ.
  destruct (cluster_polygons _ _ _ _ _) as [f|]; [|discriminate].
  rewrite (show_results_dom _ _ _ _ _ _ _ _ _ Happ). unfold colors_of. simpl.
  rewrite dom_empty_L. set_solver.
Qed.

Lemma app_run_reset_run_colors_witness :
  dom (colors_of ex_rr_out.1) =
    list_to_set ((fun rs => prop_get rs.1 "cluster_id" (VInt (-1))) <$> ex_rr_styled).
Proof.
  apply (@app_run_reset_run_colors unit ex_echo_engine ex_randint (fun _ => (0, 0)%Q)
           (fun _ => ""%string) (mk_ui (Some ex_frame) None None None None None true true)
           ex_world ex_rr_out.1 ex_frame ex_rr_center ex_rr_styled ex_rr_tips);
    vm_compute; reflexivity.
Defined.

(** C22 (reset). Reset without Run, whatever the other widgets hold (the
    unit being one the selectbox offers), drops the stored result and
    every colour, and the page then shows no result. *)
Theorem app_run_reset {G : Type} `{ClusterEngine G} (randint : nat -> Z)
    (centroid : G -> Q * Q) (to_str : value -> string) (ui : ui_input G) (w : world G)
    (gdf : frame G) :
  ui_upload ui = Some gdf -> (default 2 (ui_unit_choice ui) < 4)%nat ->
  ui_reset ui = true -> ui_run ui = false ->
  app_run randint centroid to_str ui w =
    (mk_world (mk_session None None) (w_draws w), Shown NoResult).
Proof.
  intros Hu Hc Hr Hrun. destruct (widget_values_closed ui gdf Hc) as (m & _ & Hw).
  unfold app_run. by rewrite Hu, Hw, Hr, Hrun.
Qed.

Lemma app_run_reset_witness :
  @app_run unit ex_failing_engine ex_randint (fun _ => (0, 0)%Q) (fun _ => ""%string)
    (mk_ui (Some ex_frame) (Some 0%nat) (Some 7%Z) (Some 3%nat) None (Some 50%Z) false true)
    ex_world =
  (mk_world (mk_session None None) 0, Shown NoResult).
Proof. apply (app_run_reset _ _ _ _ ex_world ex_frame); simpl; (reflexivity || lia). Defined.

(** C23 (stale_result). A run without Run or Reset leaves the stored
    result as it was, whatever the widgets now say. *)
Theorem app_run_stale_result {G : Type} `{ClusterEngine G} (randint : nat -> Z)
    (centroid : G -> Q * Q) (to_str : value -> string) (ui : ui_input G) (w : world G) :
  ui_run ui = false -> ui_reset ui = false ->
  ss_clustered (w_session (app_run randint centroid to_str ui w).1) = ss_clustered (w_session w).
Proof.
  intros Hrun Hr. unfold app_run. rewrite Hrun, Hr.
  destruct (ui_upload ui) as [gdf|]; [|done].
  destruct (widget_values _ _) as [[[[tk thr] mcs] ov]|]; [|done]. apply show_results_colors.
Qed.

Lemma app_run_stale_result_witness :
  ss_clustered (w_session (@app_run unit ex_failing_engine ex_randint (fun _ => (0, 0)%Q)
     (fun _ => ""%string) (mk_ui (Some ex_frame) (Some 0) (Some 5%Z) (Some 0) (Some 3%Z) (Some 40%Z)
        false false) ex_world).1) = Some ex_frame.
Proof. apply (app_run_stale_result _ _ _ _ ex_world); reflexivity. Defined.

(** C8 (run_result). After a rerun with Run that ends in no engine
    error, on a unit the selectbox offers, the stored result is the
    engine's answer on the uploaded frame, called with the time column
    selected (the first offered one by default, [None] when it is empty),
    the period value (at least 1, default 1) times the seconds of the
    chosen unit (seconds, minutes, hours or days; hours by default), the
    minimum cluster size (at least 1, default 2), and the overlap slider's
    percentage as it is (default 0; an entry is put on the grid of 5 in
    [[0, 100]]). *)
Theorem app_run_result_from_engine {G : Type} `{ClusterEngine G} (randint : nat -> Z)
    (centroid : G -> Q * Q) (to_str : value -> string) (ui : ui_input G) (w w' : world G)
    (gdf : frame G) (o : outcome G) :
  ui_upload ui = Some gdf -> ui_run ui = true -> (default 2 (ui_unit_choice ui) < 4)%nat ->
  app_run randint centroid to_str ui w = (w', o) ->
  (forall ee, o <> Raised (EngineFailure ee)) ->
  exists f m,
    [1; 60; 3600; 86400]%Z !! default 2 (ui_unit_choice ui) = Some m /\
    ss_clustered (w_session w') = Some f /\
    cluster_polygons gdf
      (truthy_key (match ui_time_choice ui with
                   | Some k => datetime_cols gdf !! k
                   | None => head (datetime_cols gdf) end))
      (Z.max 1 (default 1 (ui_cluster_value ui)) * m)%Z
      (Z.max 1 (default 2 (ui_min_cluster_size ui)))%Z
      (inject_Z (match ui_overlap ui with
                 | Some v => Z.min 100 (Z.max 0 (5 * (v / 5)))
                 | None => 0 end)%Z) = Ok f.
Proof.
  intros Hu Hrun Hunit Happ Hne.
  destruct (widget_values_closed ui gdf Hunit) as (m & Hm & Hw).
  destruct (app_run_run_stored randint centroid to_str ui w w' gdf o _ _ _ _ Hu Hrun Hw Happ Hne)
    as (f & Hcl & Hc).
  eauto.
Qed.

(** C5 (rows_labeled). Against any engine meeting the interface laws:
    after a run with Run that raises nothing, the stored result has a
    [cluster_id] column and holds the uploaded rows in their order, each
    with its geometry and attributes and one more attribute
    [cluster_id], either -1 or a non-negative id. *)
Theorem app_run_rows_labeled {G : Type} `{ClusterEngineLaws G} (randint : nat -> Z)
    (centroid : G -> Q * Q) (to_str : value -> string) (ui : ui_input G) (w w' : world G)
    (gdf : frame G) (v : map_view G) :
  ui_upload ui = Some gdf -> ui_run ui = true ->
  app_run randint centroid to_str ui w = (w', Shown v) ->
  exists f, ss_clustered (w_session w') = Some f /\ has_column f "cluster_id" = true /\
    Forall2 (fun r r' => exists z, (z = -1 \/ 0 <= z)%Z /\ row_geom r' = row_geom r /\
               row_props r' = <["cluster_id" := VInt z]> (row_props r))
            (fr_rows gdf) (fr_rows f).
Proof.
  intros Hu Hrun Happ.
  destruct (app_run_stored _ _ _ _ _ _ _ _ Hu Hrun Happ)
    as (tk & thr & mcs & ov & f & _ & Hcl & Hc).
  exists f. split_and!; [done|by eapply ce_column|by eapply ce_rows].
Qed.

(** C19 (cast_types). Lines 112-115 leave no column of dtype kind ["M"]
    or ["m"] in the frame the map draws, and change nothing else but the
    cells of those columns, which all become strings (a missing one
    ["NaT"]): the column names, the
    number of rows, each row's geometry and every other attribute are
    kept. *)
Theorem cast_time_columns_types {G : Type} (to_str : value -> string) (f : frame G) :
  col_name <$> fr_columns (cast_time_columns to_str f) = col_name <$> fr_columns f /\
  (forall c, c ∈ fr_columns (cast_time_columns to_str f) ->
     ~ (col_kind c = "M"%char \/ col_kind c = "m"%char)) /\
  length (fr_rows (cast_time_columns to_str f)) = length (fr_rows f) /\
  forall i r, fr_rows f !! i = Some r ->
    exists r', fr_rows (cast_time_columns to_str f) !! i = Some r' /\
      row_geom r' = row_geom r /\
      (forall k, k ∉ datetime_names (fr_columns f) -> row_props r' !! k = row_props r !! k) /\
      (forall k, k ∈ datetime_names (fr_columns f) -> exists s, row_props r' !! k = Some (VStr s)).
Proof.
  unfold cast_time_columns. split_and!.
  - apply cast_fold_names.
  - apply cast_fold_kinds. by intros c' Hc' _.
  - apply length_cast_fold.
  - intros i r Hr. by apply cast_fold_rows.
Qed.

(** C21 (center_bounds). Lines 121-125 centre the map inside the box of
    the drawn rows' centroids: the centre's latitude lies between the
    least and the greatest centroid y, its longitude between the least
    and the greatest centroid x. *)
Theorem show_results_center_bounds {G : Type} (randint : nat -> Z) (centroid : G -> Q * Q)
    (to_str : value -> string) (tk : option string) (w w' : world G) (center : Q * Q)
    (styled : list (row G * style)) (tips : list string) (loy hiy lox hix : Q) :
  show_results randint centroid to_str tk w = (w', Shown (ClusterMap center styled tips)) ->
  (forall r s, (r, s) ∈ styled ->
     (loy <= snd (centroid (row_geom r)) <= hiy)%Q /\ (lox <= fst (centroid (row_geom r)) <= hix)%Q) ->
  (loy <= center.1 <= hiy)%Q /\ (lox <= center.2 <= hix)%Q.
Proof.
  intros Hshow Hb. destruct (show_results_center _ _ _ _ _ _ _ _ _ Hshow) as [Hne ->].
  assert (Hne' : forall {A} (g : row G -> A), g <$> (fst <$> styled) <> []).
  { intros A g. by destruct styled. }
  split; apply mean_bounds; try apply Hne'; rewrite <- list_fmap_compose;
    apply Forall_fmap, Forall_forall; intros [r s] Hin; apply (Hb r s Hin).
Qed.

Lemma show_results_center_bounds_witness :
  (2 # 1 <= ex_sr_center.1 <= 2 # 1)%Q /\ (3 # 1 <= ex_sr_center.2 <= 3 # 1)%Q.
Proof.
  apply (show_results_center_bounds ex_randint (fun _ => (3 # 1, 2 # 1)%Q) (fun _ => ""%string)
           None ex_world ex_sr_out.1 ex_sr_center ex_sr_styled ex_sr_tips);
    [vm_compute; reflexivity|].
  intros r s _. simpl. split; split; apply Qle_refl.
Defined.

(** Whether a row carries a non-negative integer [cluster_id] is decidable. *)
#[export] Instance cluster_id_nonneg_dec {G} (r : row G) :
  Decision (exists z, row_props r !! "cluster_id"%string = Some (VInt z) /\ (0 <= z)%Z).
Proof.
  destruct (row_props r !! "cluster_id"%string) as [[z| | | |]|] eqn:Hr;
    try (right; intros (z' & Hz & _); congruence).
  destruct (decide (0 <= z)%Z); [left; eauto|right; intros (z' & Hz & ?); simplify_eq; lia].
Defined.

(** C20 (map_rows). The map draws exactly the rows of the stored result
    (after the datetime cast) whose [cluster_id] is an integer [>= 0], in
    their order: noise (-1) is dropped, cluster 0 is kept. *)
Theorem show_results_map_rows {G : Type} (randint : nat -> Z) (centroid : G -> Q * Q)
    (to_str : value -> string) (tk : option string) (w w' : world G) (center : Q * Q)
    (styled : list (row G * style)) (tips : list string) :
  show_results randint centroid to_str tk w = (w', Shown (ClusterMap center styled tips)) ->
  exists cl, ss_clustered (w_session w) = Some cl /\
    fst <$> styled = filter (fun r => exists z, row_props r !! "cluster_id"%string = Some (VInt z) /\
                                               (0 <= z)%Z)
                            (fr_rows (cast_time_columns to_str cl)).
Proof.
  intros Hshow. unfold show_results in Hshow.
  destruct (ss_clustered (w_session w)) as [cl|]; [|done]. exists cl. split; [done|].
  destruct (drop_noise _) as [cm|] eqn:Hd; [|done].
  pose proof (drop_noise_rows _ _ Hd) as Hrows.
  destruct (fr_rows cm) as [|r rs]; [done|].
  pose proof (style_all_colors randint (r :: rs) w) as Hs.
  destruct (style_all randint (r :: rs) w) as [st w2].
  destruct (missing_field _ _); [done|]. injection Hshow as _ _ <- _.
  destruct Hs as (_ & _ & Hfst & _). rewrite Hfst, Hrows.
  apply list_filter_iff. intros x. unfold not_noise.
  destruct (row_props x !! "cluster_id"%string) as [[z| | | |]|];
    split; try (intros (z' & Hz & _); congruence); try done.
  - intros Hz%Is_true_true_1%Z.leb_le. eauto.
  - intros (z' & [= <-] & Hz). apply Is_true_true_2, Z.leb_le. done.
Qed.

Lemma show_results_map_rows_witness :
  exists cl, ss_clustered (w_session (mk_world (mk_session (Some ex_frame0) None) 0)) = Some cl /\
    fst <$> [(ex_row 0, ex_style); (ex_row 0, ex_style)] =
      filter (fun r : row unit => exists z, row_props r !! "cluster_id"%string = Some (VInt z) /\
                                            (0 <= z)%Z)
             (fr_rows (cast_time_columns (fun _ => ""%string) cl)).
Proof.
  eapply (show_results_map_rows ex_randint (fun _ => (0, 0)%Q) (fun _ => ""%string) None).
  vm_compute. reflexivity.
Defined.


(** C25 (time_column_choice). The time-column selector offers every
    column of dtype kind ["O"] (strings, and the geometry column), not
    only datetime columns, and selects the first offered column by
    default. *)
Theorem datetime_cols_object {G : Type} (gdf : frame G) (c : column) :
  c ∈ fr_columns gdf -> col_kind c = "O"%char -> col_name c ∈ datetime_cols gdf.
Proof.
  intros Hc Hk. unfold datetime_cols. apply list_elem_of_fmap_2.
  apply list_elem_of_filter. split; [right; exact Hk|exact Hc].
Qed.

Lemma datetime_cols_object_witness :
  "name"%string ∈ datetime_cols
    (mk_frame [mk_column "name" "O"%char; mk_column "t" "M"%char;
               mk_column "geometry" "O"%char] ([] : list (row unit))) /\
  selectbox ["name"; "t"; "geometry"]%string (Some 0) None = Some "name"%string.
Proof.
  split; [|reflexivity].
  apply (datetime_cols_object _ (mk_column "name" "O"%char)); [left|reflexivity].
Defined.


Lemma app_run_result_from_engine_witness :
  exists f m,
    [1; 60; 3600; 86400]%Z !! default 2 (Some 1%nat) = Some m /\
    ss_clustered (w_session (@app_run unit ex_echo_engine ex_randint (fun _ => (0, 0)%Q)
      (fun _ => ""%string) (mk_ui (Some ex_frame) None (Some 3%Z) (Some 1%nat) None (Some 42%Z)
         true false) init_world).1) = Some f /\
    @cluster_polygons unit ex_echo_engine ex_frame (truthy_key (head (datetime_cols ex_frame)))
      (Z.max 1 (default 1 (Some 3%Z)) * m)%Z (Z.max 1 (default 2 None))%Z
      (inject_Z (Z.min 100 (Z.max 0 (5 * (42 / 5)))))%Z = Ok f.
Proof.
  refine (@app_run_result_from_engine unit ex_echo_engine ex_randint (fun _ => (0, 0)%Q)
            (fun _ => ""%string)
            (mk_ui (Some ex_frame) None (Some 3%Z) (Some 1%nat) None (Some 42%Z) true false)
            init_world _ ex_frame _ eq_refl eq_refl ltac:(simpl; lia) _ _).
  - apply surjective_pairing.
  - vm_compute. intros ee; discriminate.
Defined.
