(* ===== verification/SessionSpec.v ===== *)
(** * An abstract specification of the session, and its refinement

    What the script promises about [st.session_state] across reruns,
    stated without the script: the abstract state is the stored result
    and the colour table; a rerun either keeps the result and only adds
    colours for clusters drawn on the map ([ss_rerun]), or pops both keys
    ([ss_reset]), or stores an engine output and draws it, starting from
    the old colours or, after Reset, from none ([ss_run]).  The theorems
    show that [Script.app_run] is a refinement of this machine: every
    rerun is one abstract step (a simulation with the abstraction
    [abs]), so every session a user can reach is reachable in the
    abstract machine. *)

From S2P Require Import Prelude HexColor Interface Script ScriptLemmas ScriptProps.
From Stdlib Require Import QArith.
Local Close Scope Q_scope.

Section Spec.
Context {G : Type} `{ClusterEngine G} (to_str : value -> string).

Record astate : Type := mk_astate {
  a_result : option (frame G);
  a_colors : gmap value string
}.

(** The cluster ids the result view draws for a stored frame. *)
Definition drawn_ids (f : frame G) : gset value :=
  list_to_set ((fun r => prop_get r "cluster_id" (VInt (-1))) <$>
                 filter not_noise (fr_rows (cast_time_columns to_str f))).

(** A frame the engine can return. *)
Definition engine_output (f : frame G) : Prop :=
  exists gdf tk thr mcs ov, cluster_polygons gdf tk thr mcs (inject_Z ov) = Ok f.

(** Drawing [res] from the colour table [c0] leaves [c']: no colour is
    changed or dropped, and only drawn ids get a colour. *)
Definition draws (res : option (frame G)) (c0 c' : gmap value string) : Prop :=
  c0 ⊆ c' /\ dom c' ⊆ dom c0 ∪ (match res with Some f => drawn_ids f | None => ∅ end).

Inductive session_step : astate -> astate -> Prop :=
| ss_rerun (s : astate) (c' : gmap value string) :
    draws (a_result s) (a_colors s) c' -> session_step s (mk_astate (a_result s) c')
| ss_reset (s : astate) : session_step s (mk_astate None ∅)
| ss_run (s : astate) (f : frame G) (c0 c' : gmap value string) :
    engine_output f -> c0 = a_colors s \/ c0 = ∅ -> draws (Some f) c0 c' ->
    session_step s (mk_astate (Some f) c').
End Spec.

Arguments mk_astate {G} _ _.

(** The abstraction of a concrete session. *)
Definition abs {G : Type} (w : world G) : astate :=
  mk_astate (ss_clustered (w_session w)) (colors_of w).

(** ** The simulation *)

Section Refinement.
Context {G : Type} `{ClusterEngine G} (randint : nat -> Z) (centroid : G -> Q * Q)
  (to_str : value -> string).

Lemma show_results_dom_sub (tk : option string) (w : world G) :
  dom (colors_of (show_results randint centroid to_str tk w).1) ⊆
    dom (colors_of w) ∪
      (match ss_clustered (w_session w) with Some f => drawn_ids to_str f | None => ∅ end).
Proof.
  unfold show_results. destruct (ss_clustered (w_session w)) as [cl|]; [|set_solver].
  destruct (drop_noise _) as [cm|] eqn:Hd; [|set_solver].
  pose proof (drop_noise_rows _ _ Hd) as Hrows.
  destruct (fr_rows cm) as [|r rs] eqn:Hr; [set_solver|].
  pose proof (style_all_dom randint to_str (r :: rs) w) as Hdom.
  destruct (style_all randint (r :: rs) w) as [st w2]. cbn [snd] in Hdom.
  destruct (missing_field _ _); simpl; rewrite Hdom; unfold drawn_ids; rewrite <- Hrows;
    set_solver.
Qed.

(** Showing the stored result is a rerun step. *)
Lemma show_results_step (tk : option string) (w : world G) :
  session_step to_str (abs w) (abs (show_results randint centroid to_str tk w).1).
Proof.
  destruct (show_results_colors randint centroid to_str tk w) as [Hsub Hcl].
  unfold abs at 2. rewrite Hcl. apply (ss_rerun to_str (abs w)).
  split; [done|]. apply show_results_dom_sub.
Qed.

Lemma abs_reset (tk : option string) (w : world G) :
  abs (show_results randint centroid to_str tk (reset_handler w)).1 = mk_astate None ∅.
Proof. reflexivity. Qed.

Lemma app_run_step (ui : ui_input G) (w : world G) :
  session_step to_str (abs w) (abs (app_run randint centroid to_str ui w).1).
Proof.
  assert (Hrefl : session_step to_str (abs w) (abs w)).
  { destruct w as [[cl c] d]. apply (ss_rerun to_str (abs _)). split; [done|set_solver]. }
  unfold app_run. destruct (ui_upload ui) as [gdf|]; [|exact Hrefl].
  destruct (widget_values ui gdf) as [[[[tk thr] mcs] ov]|]; [|exact Hrefl].
  destruct (ui_run ui).
  - unfold run_handler.
    destruct (cluster_polygons gdf _ _ _ _) as [f|e] eqn:Hc; simpl.
    + set (w1 := if ui_reset ui then reset_handler w else w).
      destruct (show_results_colors randint centroid to_str tk (set_clustered (Some f) w1))
        as [Hsub Hcl].
      unfold abs at 2. rewrite Hcl. eapply (ss_run to_str (abs w) f (colors_of w1)).
      * do 5 eexists. exact Hc.
      * subst w1. destruct (ui_reset ui); [right|left]; reflexivity.
      * split; [exact Hsub|]. apply (show_results_dom_sub tk (set_clustered (Some f) w1)).
    + destruct (ui_reset ui); [apply ss_reset|exact Hrefl].
  - destruct (ui_reset ui); [rewrite abs_reset; apply ss_reset|apply show_results_step].
Qed.
End Refinement.

(** ** The refinement *)

(** C9 (session_refinement). The script refines the abstract session
    machine: every session a user can reach through reruns of
    [app_run] is, seen through [abs], reachable from the empty session by
    abstract steps, so the stored result is always an engine output and a
    colour is only ever added for a cluster id that was drawn. *)
Theorem app_reachable_refines {G : Type} `{ClusterEngine G} (randint : nat -> Z)
    (centroid : G -> Q * Q) (to_str : value -> string) (w : world G) :
  app_reachable randint centroid to_str w ->
  rtc (session_step to_str) (abs init_world) (abs w).
Proof.
  induction 1 as [|ui w _ IH]; [done|].
  eapply rtc_r; [exact IH|]. apply app_run_step.
Qed.

Lemma app_reachable_refines_witness :
  rtc (@session_step unit ex_echo_engine (fun _ => ""%string)) (abs (@init_world unit))
    (abs (@app_run unit ex_echo_engine ex_randint (fun _ => (0, 0)%Q) (fun _ => ""%string)
            (mk_ui (Some ex_frame) None None None None None true false) init_world).1).
Proof.
  apply (@app_reachable_refines unit ex_echo_engine ex_randint (fun _ => (0, 0)%Q)).
  apply reach_run, reach_init.
Defined.
