(* ===== verification/Page.v ===== *)
(** * The page a rerun renders

    What the user sees of a rerun of src/app.py, in the order the script
    writes it: the page configuration and title (lines 8-9), the welcome
    text (20-33), the uploader (36), the preview of the upload (42-43),
    the parameter widgets (47-87), the result tables (106-110), the map or
    the info message (141-149), and the footer (151-160).  Streamlit stops
    the script at an uncaught exception and shows it in place of the rest
    of the page, so a page is the elements written before the exception
    and the exception itself ([page], a writer with an exception, built
    with [emit], [raise] and [finish]).  The session effect of
    [script_page] is that of [Script.app_run]: the elements are written
    around the same handlers. *)

From S2P Require Import Prelude HexColor Interface Script ScriptProps.
From Stdlib Require Import QArith.
Local Close Scope Q_scope.

(** ** Elements *)

Inductive element (G : Type) : Type :=
| PageConfig (page_title : string)
| Title (s : string)
| Markdown (s : string)
| Subheader (s : string)
| DataFrame (f : frame G)
| Widget (label : string)
| FoliumMap (center : Q * Q) (styled : list (row G * style)) (tooltip : list string)
| Info (s : string).
Arguments PageConfig {G} _.
Arguments Title {G} _.
Arguments Markdown {G} _.
Arguments Subheader {G} _.
Arguments DataFrame {G} _.
Arguments Widget {G} _.
Arguments FoliumMap {G} _ _ _.
Arguments Info {G} _.

(** The elements written, and the exception that stopped the script. *)
Record page (G : Type) : Type := mk_page {
  pg_out : list (element G);
  pg_exc : option script_error
}.
Arguments mk_page {G} _ _.
Arguments pg_out {G} _.
Arguments pg_exc {G} _.

(** ** The static text *)

Definition welcome_text : string := "
Welcome to the **Spatio-Temporal Polygon Clustering Demo** 🎯  

This tool lets you:
- Upload a **GeoJSON** file with polygons
- Select a **time column** and define the clustering period (seconds, minutes, hours, days)
- Set a **minimum cluster size** (small groups are filtered as noise)
- Set a **minimum overlap percentage** for polygons to be considered neighbors
- Run the analysis and explore the results

Clusters are identified by their spatial overlaps and temporal proximity, and shown in different random colors on an interactive map.  
".

Definition footer_text : string := "
📦 This demo is powered by [**ST-PolygonCluster**](https://github.com/mykolakozyr/ST-PolygonCluster), a lightweight library for spatio-temporal clustering of polygons.  

🔗 Connect with me:  
- [LinkedIn](https://www.linkedin.com/in/mykolakozyr/)  
- [Twitter/X](https://x.com/mykolakozyr)  
    ".

Section Writer.
Context {G : Type}.

Definition emit (els : list (element G)) (rest : page G) : page G :=
  mk_page (els ++ pg_out rest) (pg_exc rest).

(** An uncaught exception: nothing after it is written. *)
Definition raise (e : script_error) : page G := mk_page [] (Some e).

(** [DataFrame.head(n)]. *)
Definition head (n : nat) (f : frame G) : frame G := mk_frame (fr_columns f) (take n (fr_rows f)).
End Writer.

Section Static.
Context {G : Type}.

(** Lines 8-9, 20-33 and 36. *)
Definition page_header : list (element G) :=
  [PageConfig "ST-PolygonCluster Demo"; Title "🌀 Spatio-Temporal Polygon Clustering Demo";
   Markdown welcome_text; Widget "Upload a GeoJSON file"]%string.

(** Lines 151-160, then the end of the script. *)
Definition finish : page G := mk_page [Markdown "---"; Markdown footer_text]%string None.

(** Lines 42-58: the preview and the widgets before [unit_multipliers]. *)
Definition preview (gdf : frame G) : list (element G) :=
  [Subheader "Preview of uploaded data"; DataFrame (head 5 gdf);
   Widget "Select datetime column"; Markdown "**Cluster period length**";
   Widget "Value"; Widget "Unit"]%string.

(** Lines 63-87: the remaining widgets and the buttons. *)
Definition controls : list (element G) :=
  [Widget "Minimum cluster size"; Widget "Minimum overlap (%)";
   Widget "Run analysis"; Widget "Reset"]%string.
End Static.

(** ** The script with its output *)

Section Page.
Context {G : Type} `{ClusterEngine G} (randint : nat -> Z) (centroid : G -> Q * Q)
  (to_str : value -> string).

(** Lines 103-149 and what follows them: the tables of the stored
    result, then the map, the info message, or the exception of
    [show_results]. *)
Definition results_page (time_key : option string) (w : world G) : world G * page G :=
  match ss_clustered (w_session w) with
  | None => (w, finish)
  | Some clustered =>
      let '(w', o) := show_results randint centroid to_str time_key w in
      (w', emit [Subheader "Clustered result (first 10 rows)"; DataFrame (head 10 clustered);
                 Subheader "Clustered Polygons Map"]%string
             (match o with
              | Raised e => raise e
              | Shown (ClusterMap c s t) => emit [FoliumMap c s t] finish
              | Shown _ => emit [Info "No valid clusters to display on map."%string] finish
              end))
  end.

(** The whole script, lines 8-160. *)
Definition script_page (ui : ui_input G) (w : world G) : world G * page G :=
  match ui_upload ui with
  | None => (w, emit page_header finish)
  | Some gdf =>
      match widget_values ui gdf with
      | Err e => (w, emit (page_header ++ preview gdf) (raise e))
      | Ok (time_key, cluster_period, min_cluster_size, overlap_threshold) =>
          let w1 := if ui_reset ui then reset_handler w else w in
          let shown := page_header ++ preview gdf ++ controls in
          if ui_run ui then
            match run_handler gdf time_key cluster_period min_cluster_size
                    overlap_threshold w1 with
            | Err e => (w1, emit shown (raise (EngineFailure e)))
            | Ok w2 => let '(w3, p) := results_page time_key w2 in (w3, emit shown p)
            end
          else let '(w3, p) := results_page time_key w1 in (w3, emit shown p)
      end
  end.
End Page.

(** ** The page and the session *)

(** What [app_run] reports of a page: the exception it raised, if any. *)
Definition exc_of {G} (o : outcome G) : option script_error :=
  match o with Raised e => Some e | Shown _ => None end.

Section PageLemmas.
Context {G : Type} `{ClusterEngine G} (randint : nat -> Z) (centroid : G -> Q * Q)
  (to_str : value -> string).

Lemma pg_exc_emit (els : list (element G)) (p : page G) : pg_exc (emit els p) = pg_exc p.
Proof. done. Qed.

Lemma results_page_show_results (tk : option string) (w : world G) :
  (results_page randint centroid to_str tk w).1 = (show_results randint centroid to_str tk w).1 /\
  pg_exc (results_page randint centroid to_str tk w).2 =
    exc_of (show_results randint centroid to_str tk w).2.
Proof.
  unfold results_page. destruct (ss_clustered (w_session w)) as [cl|] eqn:Hcl.
  - destruct (show_results _ _ _ tk w) as [w' [[]|e]]; done.
  - unfold show_results. by rewrite Hcl.
Qed.
End PageLemmas.

(** The page layer is the script of [app_run]: the
    rerun that renders the page leaves the session exactly as [app_run]
    does, and the page stops at exactly the exception [app_run] raises. *)
Theorem script_page_app_run {G : Type} `{ClusterEngine G} (randint : nat -> Z)
    (centroid : G -> Q * Q) (to_str : value -> string) (ui : ui_input G) (w : world G) :
  (script_page randint centroid to_str ui w).1 = (app_run randint centroid to_str ui w).1 /\
  pg_exc (script_page randint centroid to_str ui w).2 =
    exc_of (app_run randint centroid to_str ui w).2.
Proof.
  unfold script_page, app_run. destruct (ui_upload ui) as [gdf|]; [|done].
  destruct (widget_values ui gdf) as [[[[tk thr] mcs] ov]|e]; [|done].
  destruct (ui_run ui); [destruct (run_handler _ _ _ _ _ _) as [w2|e]; [|done]|].
  all: match goal with |- context [results_page _ _ _ ?tk ?w0] =>
         pose proof (results_page_show_results randint centroid to_str tk w0) as [H1 H2];
         destruct (results_page _ _ _ tk w0) as [w3 p] eqn:? end; simpl in *; by rewrite H2.
Qed.

(** The last element of a page that ran to its end. *)
Definition footer_element {G} : element G := Markdown footer_text.

(** A page ends with the footer exactly when no exception stopped it. *)
Definition ends_ok {G} (p : page G) : Prop :=
  pg_exc p = None <-> last (pg_out p) = Some footer_element.

Section Ending.
Context {G : Type} `{ClusterEngine G} (randint : nat -> Z) (centroid : G -> Q * Q)
  (to_str : value -> string).

Lemma last_app_ne {A} (l1 l2 : list A) : l2 <> [] -> last (l1 ++ l2) = last l2.
Proof.
  intros Hne. destruct l2 as [|x l2] using rev_ind; [done|].
  by rewrite app_assoc, !last_snoc.
Qed.

Lemma emit_ends (els : list (element G)) (p : page G) :
  pg_out p <> [] -> ends_ok p -> ends_ok (emit els p) /\ pg_out (emit els p) <> [].
Proof.
  unfold ends_ok, emit. simpl. intros Hne Hp. rewrite last_app_ne by done.
  split; [done|]. by intros [_ ?]%app_eq_nil.
Qed.

Lemma finish_ends (els : list (element G)) :
  ends_ok (emit els finish) /\ pg_out (emit els finish) <> [].
Proof. apply emit_ends; [done|]. split; done. Qed.

Lemma raise_ends (els : list (element G)) (e : script_error) :
  last els <> Some footer_element -> els <> [] ->
  ends_ok (emit els (raise e)) /\ pg_out (emit els (raise e)) <> [].
Proof. unfold ends_ok, emit. simpl. rewrite app_nil_r. intros Hx Hne. done. Qed.

Lemma results_page_ends (tk : option string) (w : world G) :
  ends_ok (results_page randint centroid to_str tk w).2 /\
  pg_out (results_page randint centroid to_str tk w).2 <> [].
Proof.
  unfold results_page. destruct (ss_clustered (w_session w)) as [cl|]; [|split; done].
  destruct (show_results _ _ _ tk w) as [w' [[]|e]]; simpl;
    try (apply emit_ends; apply finish_ends).
  apply raise_ends; discriminate.
Qed.
End Ending.

(** C17 (page_footer). Streamlit stops a rerun at an uncaught exception:
    the footer of lines 151-160 is the last element of the page exactly
    when the rerun raised nothing, and a page that raised ends with the
    element written just before the exception instead. *)
Theorem script_page_footer {G : Type} `{ClusterEngine G} (randint : nat -> Z)
    (centroid : G -> Q * Q) (to_str : value -> string) (ui : ui_input G) (w : world G) :
  pg_exc (script_page randint centroid to_str ui w).2 = None <->
    last (pg_out (script_page randint centroid to_str ui w).2) = Some footer_element.
Proof.
  unfold script_page. destruct (ui_upload ui) as [gdf|]; [|apply (proj1 (finish_ends _))].
  destruct (widget_values ui gdf) as [[[[tk thr] mcs] ov]|e].
  2: { apply raise_ends; vm_compute; discriminate. }
  destruct (ui_run ui); [destruct (run_handler _ _ _ _ _ _) as [w2|e]|].
  2: { apply raise_ends; vm_compute; discriminate. }
  all: match goal with |- context [results_page _ _ _ ?tk ?w0] =>
         pose proof (results_page_ends randint centroid to_str tk w0) as [He Hne];
         destruct (results_page _ _ _ tk w0) as [w3 p] end; exact (proj1 (emit_ends _ _ Hne He)).
Qed.

(** A Run whose engine call fails: the page shows the header, the preview,
    the widgets and buttons, and stops at the exception, without the
    footer; the preview holds the three rows of [ex_frame]. *)
Example script_page_engine_failure :
  let p := (@script_page unit ex_failing_engine ex_randint (fun _ => (0, 0)%Q)
              (fun _ => ""%string) (mk_ui (Some ex_frame) None None None None None true false)
              ex_world).2 in
  pg_exc p = Some (EngineFailure EmptyInput) /\ last (pg_out p) = Some (Widget "Reset"%string) /\
  pg_out p !! 5%nat = Some (DataFrame ex_frame).
Proof. vm_compute. split_and!; reflexivity. Qed.
