(* ===== verification/Draws.v ===== *)
(** * Draw accounting of [get_color]

    [get_color] (src/app.py lines 12-18) memoises a random colour per
    cluster id: [random.randint] is called only for an id the colour table
    does not hold yet.  This file counts the calls: a styling pass, a
    result view and a whole rerun call [randint] exactly once per distinct
    cluster id on the map that had no colour before ([show_results_draws],
    [app_run_draws]); and in every reachable session each colour of the
    table is the colour of its own draw, different ids owning different
    draws ([draw_indexed], [app_reachable_draw_indexed]). *)

From S2P Require Import Prelude HexColor Interface Script ScriptLemmas ScriptProps.
From Stdlib Require Import QArith.
Local Close Scope Q_scope.

(** The cluster ids of the features a map draws. *)
Definition map_ids {G} (styled : list (row G * style)) : gset value :=
  list_to_set ((fun rs => prop_get rs.1 "cluster_id" (VInt (-1))) <$> styled).

(** Each colour of the table is [color_of_draw (randint k)] for a draw
    [k] already made, and no two ids share a draw. *)
Definition draw_indexed {G} (randint : nat -> Z) (w : world G) : Prop :=
  exists idx : gmap value nat,
    dom idx = dom (colors_of w) /\
    map_Forall (fun cid k => k < w_draws w /\
                  colors_of w !! cid = Some (color_of_draw (randint k))) idx /\
    (forall a b k, idx !! a = Some k -> idx !! b = Some k -> a = b).

Section Counting.
Context {G : Type} (randint : nat -> Z).

Lemma get_color_draws (cid : value) (w : world G) :
  let '(c, w') := get_color randint cid w in
  (w_draws w' + size (colors_of w) = w_draws w + size (colors_of w'))%nat.
Proof.
  pose proof (get_color_spec randint cid w) as Hg.
  destruct (get_color randint cid w) as [c w'].
  destruct Hg as (-> & _ & _ & _ & Hd).
  destruct (colors_of w !! cid) as [c0|] eqn:Hl; destruct Hd as [-> ->].
  - by rewrite insert_id.
  - rewrite map_size_insert_None by done. lia.
Qed.

Lemma style_all_draws (rs : list (row G)) (w : world G) :
  (w_draws (style_all randint rs w).2 + size (colors_of w) =
     w_draws w + size (colors_of (style_all randint rs w).2))%nat.
Proof.
  revert w. induction rs as [|r rs IH]; intros w; [done|]. simpl.
  unfold style_fn. pose proof (get_color_draws (prop_get r "cluster_id" (VInt (-1))) w) as Hg.
  destruct (get_color randint _ w) as [c w1]. specialize (IH w1).
  destruct (style_all randint rs w1) as [styled w2]. simpl in *. lia.
Qed.

(** The draws of a styling pass, counted by ids. *)
Lemma style_all_draws_ids (rs : list (row G)) (w : world G) :
  w_draws (style_all randint rs w).2 =
    (w_draws w + size (map_ids (style_all randint rs w).1 ∖ dom (colors_of w)))%nat.
Proof.
  pose proof (style_all_draws rs w) as Hn.
  pose proof (style_all_colors randint rs w) as Hc.
  pose proof (style_all_dom randint (fun _ => ""%string) rs w) as Hd.
  destruct (style_all randint rs w) as [styled w2]. simpl in *.
  destruct Hc as (_ & _ & Hfst & _).
  assert (Hids : map_ids styled =
            list_to_set ((fun r => prop_get r "cluster_id" (VInt (-1))) <$> rs)).
  { unfold map_ids. rewrite <- Hfst, <- list_fmap_compose. done. }
  rewrite Hids. rewrite <- !size_dom, Hd, size_union_alt in Hn. lia.
Qed.
End Counting.

(** The draws a result view makes: one per id on the map without a
    colour; when folium's tooltip assertion stops the view after the
    styling pass, one per id that pass coloured. *)
Definition view_draws {G} (o : outcome G) (w' : world G) (known : gset value) : nat :=
  match o with
  | Shown (ClusterMap _ styled _) => size (map_ids styled ∖ known)
  | Raised (FoliumAssertion _) => size (dom (colors_of w') ∖ known)
  | _ => 0
  end.

Section Views.
Context {G : Type} `{ClusterEngine G} (randint : nat -> Z) (centroid : G -> Q * Q)
  (to_str : value -> string).

(** The ids a styling pass newly colours are the new ids it styles. *)
Lemma style_all_new_ids (rs : list (row G)) (w : world G) :
  dom (colors_of (style_all randint rs w).2) ∖ dom (colors_of w) =
    map_ids (style_all randint rs w).1 ∖ dom (colors_of w).
Proof.
  pose proof (style_all_colors randint rs w) as Hc.
  pose proof (style_all_dom randint (fun _ => ""%string) rs w) as Hd.
  destruct (style_all randint rs w) as [styled w2]. simpl in *.
  destruct Hc as (_ & _ & Hfst & _).
  unfold map_ids. rewrite Hd, <- Hfst, <- list_fmap_compose. set_solver.
Qed.

Lemma drop_noise_Err (f : frame G) (e : script_error) :
  drop_noise f = Err e -> e = KeyError "cluster_id".
Proof. unfold drop_noise. destruct (has_column f _); congruence. Qed.

Lemma widget_values_Err (ui : ui_input G) (gdf : frame G) (e : script_error) :
  widget_values ui gdf = Err e -> exists k, e = KeyError k.
Proof. unfold widget_values. destruct (_ ≫= _); [discriminate|]. intros [= <-]. eauto. Qed.

Lemma show_results_draws (tk : option string) (w : world G) :
  let '(w', o) := show_results randint centroid to_str tk w in
  w_draws w' = (w_draws w + view_draws o w' (dom (colors_of w)))%nat.
Proof.
  unfold show_results. destruct (ss_clustered (w_session w)) as [cl|]; [|simpl; lia].
  destruct (drop_noise _) as [cm|e] eqn:Hdn; [|by rewrite (drop_noise_Err _ _ Hdn)].
  destruct (fr_rows cm) as [|r rs]; [simpl; lia|].
  pose proof (style_all_draws_ids randint (r :: rs) w) as Hd.
  pose proof (style_all_new_ids (r :: rs) w) as Hn.
  destruct (style_all randint (r :: rs) w) as [styled w']. simpl in Hd, Hn.
  destruct (missing_field _ _); simpl; [rewrite Hn|]; exact Hd.
Qed.

Lemma reset_handler_colors (w : world G) : colors_of (reset_handler w) = ∅.
Proof. done. Qed.
End Views.

(** C14 (draw_count). A rerun calls [random.randint] exactly once for
    each distinct cluster id on the map it draws that had no colour
    before the styling pass (none after a Reset); when folium's tooltip
    assertion stops the page after styling, once per id the styling
    coloured; and not at all when it styles nothing: the memoisation of
    [get_color] is exact. *)
Theorem app_run_draws {G : Type} `{ClusterEngine G} (randint : nat -> Z)
    (centroid : G -> Q * Q) (to_str : value -> string) (ui : ui_input G) (w : world G) :
  let '(w', o) := app_run randint centroid to_str ui w in
  w_draws w' = (w_draws w +
    view_draws o w' (if ui_reset ui then ∅ else dom (colors_of w)))%nat.
Proof.
  unfold app_run. destruct (ui_upload ui) as [gdf|]; [|simpl; lia].
  destruct (widget_values ui gdf) as [[[[tk thr] mcs] ov]|e] eqn:Hw;
    [|by destruct (widget_values_Err _ _ _ Hw) as [k ->]].
  set (w1 := if ui_reset ui then reset_handler w else w).
  assert (Hw1 : w_draws w1 = w_draws w /\
                dom (colors_of w1) = if ui_reset ui then ∅ else dom (colors_of w)).
  { subst w1. destruct (ui_reset ui); [|done]. by rewrite reset_handler_colors, dom_empty_L. }
  destruct Hw1 as [Hd1 Hc1]. rewrite <- Hd1, <- Hc1.
  destruct (ui_run ui); [|apply show_results_draws].
  unfold run_handler. destruct (cluster_polygons gdf _ _ _ _) as [f|e]; [|simpl; lia].
  apply (show_results_draws randint centroid to_str tk (set_clustered (Some f) w1)).
Qed.

Section Indexed.
Context {G : Type} `{ClusterEngine G} (randint : nat -> Z) (centroid : G -> Q * Q)
  (to_str : value -> string).

Lemma draw_indexed_mono (w w' : world G) :
  colors_of w' = colors_of w -> (w_draws w <= w_draws w')%nat ->
  draw_indexed randint w -> draw_indexed randint w'.
Proof.
  intros Hc Hd (idx & Hdom & Hall & Hinj). exists idx. rewrite Hc. split_and!; [done| |done].
  intros cid k Hk. destruct (Hall cid k Hk). split; [lia|done].
Qed.

Lemma get_color_indexed (cid : value) (w : world G) :
  draw_indexed randint w -> draw_indexed randint (get_color randint cid w).2.
Proof.
  intros Hw. pose proof (get_color_spec randint cid w) as Hg.
  destruct (get_color randint cid w) as [c w']. simpl.
  destruct Hg as (Hc & _ & _ & _ & Hd).
  destruct (colors_of w !! cid) as [c0|] eqn:Hl; destruct Hd as [-> Hd].
  { apply (draw_indexed_mono w); [by rewrite Hc, insert_id|lia|done]. }
  destruct Hw as (idx & Hdom & Hall & Hinj).
  assert (Hi : idx !! cid = None) by (apply not_elem_of_dom; rewrite Hdom; by apply not_elem_of_dom).
  exists (<[cid := w_draws w]> idx). rewrite Hc, Hd. split_and!.
  - by rewrite !dom_insert_L, Hdom.
  - apply map_Forall_insert_2; [split; [lia|by rewrite lookup_insert_eq]|].
    intros a k Hk. destruct (Hall a k Hk) as [Hlt Ha].
    assert (a <> cid) by congruence. rewrite lookup_insert_ne by done. split; [lia|done].
  - intros a b k Ha Hb.
    destruct (decide (a = cid)), (decide (b = cid)); subst; simplify_map_eq; try done.
    + destruct (Hall b _ Hb). lia.
    + destruct (Hall a _ Ha). lia.
    + eauto.
Qed.

Lemma style_all_indexed (rs : list (row G)) (w : world G) :
  draw_indexed randint w -> draw_indexed randint (style_all randint rs w).2.
Proof.
  revert w. induction rs as [|r rs IH]; intros w Hw; [done|]. simpl. unfold style_fn.
  pose proof (get_color_indexed (prop_get r "cluster_id" (VInt (-1))) w Hw) as H1.
  destruct (get_color randint _ w) as [c w1]. specialize (IH w1 H1).
  destruct (style_all randint rs w1) as [styled w2]. exact IH.
Qed.

Lemma show_results_indexed (tk : option string) (w : world G) :
  draw_indexed randint w ->
  draw_indexed randint (show_results randint centroid to_str tk w).1.
Proof.
  intros Hw. unfold show_results. destruct (ss_clustered (w_session w)); [|done].
  destruct (drop_noise _) as [cm|]; [|done]. destruct (fr_rows cm) as [|r rs]; [done|].
  pose proof (style_all_indexed (r :: rs) w Hw) as Hs.
  destruct (style_all randint (r :: rs) w). by destruct (missing_field _ _).
Qed.

Lemma app_run_indexed (ui : ui_input G) (w : world G) :
  draw_indexed randint w -> draw_indexed randint (app_run randint centroid to_str ui w).1.
Proof.
  intros Hw. assert (Hw1 : draw_indexed randint (if ui_reset ui then reset_handler w else w)).
  { destruct (ui_reset ui); [|done]. exists ∅. split_and!; [done|apply map_Forall_empty|].
    intros a b k Ha. by rewrite lookup_empty in Ha. }
  unfold app_run. destruct (ui_upload ui) as [gdf|]; [|done].
  destruct (widget_values ui gdf) as [[[[tk thr] mcs] ov]|]; [|done].
  destruct (ui_run ui); [|by apply show_results_indexed].
  unfold run_handler. destruct (cluster_polygons gdf _ _ _ _) as [f|]; [|done].
  by apply show_results_indexed.
Qed.
End Indexed.

(** C15 (colors_from_draws). In every session a user can reach, each
    colour of the table is the colour formatted from one call of
    [random.randint] already made, and different cluster ids own
    different calls: colours are only ever equal when the random module
    returned the same number twice. *)
Theorem app_reachable_draw_indexed {G : Type} `{ClusterEngine G} (randint : nat -> Z)
    (centroid : G -> Q * Q) (to_str : value -> string) (w : world G) :
  app_reachable randint centroid to_str w -> draw_indexed randint w.
Proof.
  induction 1 as [|ui w _ IH].
  - exists ∅. split_and!; [done|apply map_Forall_empty|]. intros a b k Ha. by rewrite lookup_empty in Ha.
  - by apply app_run_indexed.
Qed.

Lemma app_reachable_draw_indexed_witness :
  draw_indexed ex_randint
    (@app_run unit ex_echo_engine ex_randint (fun _ => (0, 0)%Q) (fun _ => ""%string)
       (mk_ui (Some ex_frame) None None None None None true false)
       (@app_run unit ex_echo_engine ex_randint (fun _ => (0, 0)%Q) (fun _ => ""%string)
          (mk_ui (Some ex_frame) None None None None None true true) init_world).1).1.
Proof.
  apply (@app_reachable_draw_indexed unit ex_echo_engine ex_randint (fun _ => (0, 0)%Q)
           (fun _ => ""%string)).
  apply reach_run, reach_run, reach_init.
Defined.

(** On [ex_frame] (two features of cluster 0 and a noise feature) a rerun
    with Run draws once, and the next rerun, which finds the colour,
    draws none. *)
Example app_run_draws_ex :
  let run (reset : bool) (w : world unit) :=
    @app_run unit ex_echo_engine ex_randint (fun _ => (0, 0)%Q) (fun _ => ""%string)
      (mk_ui (Some ex_frame) None None None None None true reset) w in
  w_draws (run true ex_world).1 = 1%nat /\
  w_draws (run false (run true ex_world).1).1 = 1%nat.
Proof. vm_compute. split; reflexivity. Qed.
