(* ===== verification/System.v ===== *)
(** * The app running the engine: end-to-end properties

    [Script.app_run] (src/app.py) instantiated with the engine of the
    specification, [Engine.spec_engine].  The theorems follow one rerun
    of the script in which Run is pressed, from the widget values
    ([Script.widget_values], lines 46-80) through [Script.run_handler]
    (lines 93-100) into the engine, and describe the rows stored in
    [st.session_state["clustered"]] in terms of the uploaded frame only:
    which rows share a cluster, which are noise, and which slider
    settings the engine rejects; and what a Run on the default widgets
    stores and raises, including folium's tooltip assertion when the
    default time column is the geometry column. *)

From S2P Require Import Prelude Labeler LabelPass Geometry Temporal NeighborGraph Interface Engine Script ScriptLemmas ScriptProps.
From Stdlib Require Import Ascii QArith.
Local Close Scope Q_scope.

Section Relation.
Context {G : Type} `{Geometry G}.

(** The neighbor relation a successful run of the app uses: two distinct
    rows whose bounding boxes intersect and whose timestamps in column
    [tk] lie within [thr] seconds of each other. *)
Definition app_neighbor (gdf : frame G) (tk : option string) (thr : Z) (a b : nat) : Prop :=
  a <> b /\ exists ra rb, fr_rows gdf !! a = Some ra /\ fr_rows gdf !! b = Some rb /\
    box_intersects (geom_bbox (row_geom ra)) (geom_bbox (row_geom rb)) = true /\
    time_compatible (row_time tk ra) (row_time tk rb) thr = true.
End Relation.

(** ** Example data: three rectangles, the first two overlapping *)

Definition sys_frame : frame rect :=
  mk_frame [] [mk_row (mk_rect 0 0 2 2) ∅; mk_row (mk_rect 1 0 3 2) ∅;
               mk_row (mk_rect 9 9 10 10) ∅].

Definition sys_ui (overlap : option Z) : ui_input rect :=
  mk_ui (Some sys_frame) None None None None overlap true false.

Definition sys_run (ui : ui_input rect) : world rect * outcome rect :=
  app_run ex_randint (fun _ => (0, 0)%Q) (fun _ => ""%string) ui init_world.

Definition sys_view : map_view rect :=
  match (sys_run (sys_ui None)).2 with Shown v => v | Raised _ => NoUpload end.

Definition sys_stored : frame rect :=
  default sys_frame (ss_clustered (w_session (sys_run (sys_ui None)).1)).

Definition sys_row (i : nat) : row rect :=
  default (mk_row (mk_rect 0 0 0 0) ∅) (fr_rows sys_stored !! i).

(** The same rectangles with a minimum cluster size of 1. *)
Definition sys_ui2 (overlap : option Z) : ui_input rect :=
  mk_ui (Some sys_frame) None None None (Some 1%Z) overlap true false.

Definition sys_frame2 : frame rect := sys_frame.

Definition sys_view2 : map_view rect :=
  match (sys_run (sys_ui2 None)).2 with Shown v => v | Raised _ => NoUpload end.

Definition sys_stored2 : frame rect :=
  default sys_frame (ss_clustered (w_session (sys_run (sys_ui2 None)).1)).

Definition sys_row2 (i : nat) : row rect :=
  default (mk_row (mk_rect 0 0 0 0) ∅) (fr_rows sys_stored2 !! i).

(** Two unit squares sharing one edge, and a far square. *)
Definition touch_frame : frame rect :=
  mk_frame [] [mk_row (mk_rect 0 0 1 1) ∅; mk_row (mk_rect 1 0 2 1) ∅;
               mk_row (mk_rect 5 5 6 6) ∅].

(** The same squares read from a file whose only other column is the
    geometry column (dtype kind ["O"]). *)
Definition geo_frame : frame rect :=
  mk_frame [mk_column "geometry" "O"%char] (fr_rows touch_frame).

Section System.
Context {G : Type} `{GeometryLaws G}.
Context (randint : nat -> Z) (centroid : G -> Q * Q) (to_str : value -> string).

(** ** Lemmas *)

Lemma app_neighbor_edge (gdf : frame G) (tk : option string) (thr : Z) (a b : nat) :
  edge (neighbor_graph (features_of gdf tk) thr 0) a b <-> app_neighbor gdf tk thr a b.
Proof.
  rewrite neighbor_graph_edge. unfold neighbor_rel, app_neighbor, features_of.
  setoid_rewrite list_lookup_fmap. unfold is_neighbor, feature_bbox. simpl.
  split.
  - intros (Hne & fi & fj & Hi & Hj & Hb & Hn). split; [done|].
    destruct (fr_rows gdf !! a) as [ra|], (fr_rows gdf !! b) as [rb|]; try discriminate.
    injection Hi as <-. injection Hj as <-. simpl in *.
    apply andb_prop in Hn as [_ Ht]. eauto 10.
  - intros (Hne & ra & rb & Hi & Hj & Hb & Ht). split; [done|].
    rewrite Hi, Hj. do 2 eexists. split_and!; try reflexivity; simpl; [done|].
    by rewrite overlaps_zero, Ht.
Qed.

Lemma app_reach_iff (gdf : frame G) (tk : option string) (thr : Z) (a b : nat) :
  rtc (app_neighbor gdf tk thr) a b <-> reach (neighbor_graph (features_of gdf tk) thr 0) a b.
Proof. symmetry. apply rtc_iff_rel, app_neighbor_edge. Qed.

(** C3 (overlap_percent). The app passes the overlap slider, a percentage
    from 0 to 100, to the engine unscaled, while the engine accepts a
    fraction in [0, 1]: every Run with the slider off 0 ends in the
    engine's [BadOverlapThreshold] error. *)
Theorem app_run_overlap_rejected (ui : ui_input G) (w : world G) (gdf : frame G)
    (tk : option string) (thr mcs ov : Z) :
  ui_upload ui = Some gdf -> widget_values ui gdf = Ok (tk, thr, mcs, ov) ->
  ui_run ui = true -> ov <> 0%Z ->
  (app_run randint centroid to_str ui w).2 = Raised (EngineFailure (BadOverlapThreshold (inject_Z ov))).
Proof.
  intros Hu Hw Hrun Hov. pose proof (widget_values_bounds ui gdf tk thr mcs ov Hw) as Hb.
  assert (check_params gdf thr mcs (inject_Z ov) = Err (BadOverlapThreshold (inject_Z ov))) as Hp.
  { unfold check_params.
    assert (Qle_bool 0 (inject_Z ov) = true) as -> by
      (apply Qle_bool_iff; change 0%Q with (inject_Z 0); rewrite <- Zle_Qle; lia).
    assert (Qle_bool (inject_Z ov) 1 = false) as ->.
    { apply not_true_iff_false. rewrite Qle_bool_iff. change 1%Q with (inject_Z 1).
      rewrite <- Zle_Qle. Z.div_mod_to_equations; lia. }
    by replace (mcs <? 1)%Z with false by lia. }
  unfold app_run. rewrite Hu, Hw, Hrun. unfold run_handler.
  unfold cluster_polygons, spec_engine, run_engine. by rewrite Hp.
Qed.

(** A Run that ends in a shown page had the overlap slider at 0, and
    stored the input labeled by the engine. *)
Lemma app_run_success (ui : ui_input G) (w w' : world G) (v : map_view G) (gdf : frame G)
    (tk : option string) (thr mcs ov : Z) :
  ui_upload ui = Some gdf -> widget_values ui gdf = Ok (tk, thr, mcs, ov) ->
  ui_run ui = true -> app_run randint centroid to_str ui w = (w', Shown v) ->
  ov = 0%Z /\ check_params gdf thr mcs 0 = Ok tt /\
  ss_clustered (w_session w') = Some (with_labels gdf (engine_labels gdf (truthy_key tk) thr mcs 0)).
Proof.
  intros Hu Hw Hrun Happ.
  destruct (app_run_stored _ _ _ _ _ _ _ _ Hu Hrun Happ)
    as (tk' & thr' & mcs' & ov' & f & Hw' & Hcl & Hc).
  rewrite Hw in Hw'. injection Hw' as <- <- <- <-.
  unfold cluster_polygons, spec_engine in Hc. rewrite run_engine_spec in Hc.
  destruct (check_params gdf thr mcs (inject_Z ov)) as [[]|] eqn:Hp; [|discriminate].
  injection Hc as <-.
  pose proof (widget_values_bounds ui gdf tk thr mcs ov Hw) as Hb.
  pose proof (proj1 (check_params_ok gdf thr mcs (inject_Z ov)) Hp) as (_ & [_ Hov] & _).
  change 1%Q with (inject_Z 1) in Hov. rewrite <- Zle_Qle in Hov.
  assert (ov = 0%Z) as -> by (Z.div_mod_to_equations; lia). done.
Qed.

(** The label a stored row carries, read back from the labeler. *)
Lemma app_run_label (ui : ui_input G) (w w' : world G) (v : map_view G) (gdf f : frame G)
    (tk : option string) (thr mcs ov : Z) (i : nat) (r : row G) (z : Z) :
  ui_upload ui = Some gdf -> widget_values ui gdf = Ok (tk, thr, mcs, ov) ->
  ui_run ui = true -> app_run randint centroid to_str ui w = (w', Shown v) ->
  ss_clustered (w_session w') = Some f -> fr_rows f !! i = Some r ->
  row_props r !! "cluster_id"%string = Some (VInt z) ->
  cluster_labels (neighbor_graph (features_of gdf (truthy_key tk)) thr 0) (Z.to_nat mcs) =
    Ok (engine_labels gdf (truthy_key tk) thr mcs 0) /\
  engine_labels gdf (truthy_key tk) thr mcs 0 !! i = Some z.
Proof.
  intros Hu Hw Hrun Happ Hf Hr Hz.
  destruct (app_run_success ui w w' v gdf tk thr mcs ov Hu Hw Hrun Happ) as (_ & _ & Hcl).
  rewrite Hcl in Hf. injection Hf as <-.
  split; [apply cluster_labels_neighbor_graph|by eapply with_labels_label].
Qed.
(** C1 (same_cluster). After a Run that shows its page, two stored rows
    carry the same non-negative [cluster_id] exactly when a chain of rows
    links them, each consecutive pair with intersecting bounding boxes and
    timestamps within the chosen period: the overlap slider plays no part. *)
Theorem app_run_same_cluster (ui : ui_input G) (w w' : world G) (v : map_view G)
    (gdf f : frame G) (tk : option string) (thr mcs ov : Z) (i j : nat) (ri rj : row G)
    (zi zj : Z) :
  ui_upload ui = Some gdf -> widget_values ui gdf = Ok (tk, thr, mcs, ov) ->
  ui_run ui = true -> app_run randint centroid to_str ui w = (w', Shown v) ->
  ss_clustered (w_session w') = Some f ->
  fr_rows f !! i = Some ri -> fr_rows f !! j = Some rj ->
  row_props ri !! "cluster_id"%string = Some (VInt zi) ->
  row_props rj !! "cluster_id"%string = Some (VInt zj) -> (0 <= zi)%Z ->
  (zi = zj <-> rtc (app_neighbor gdf (truthy_key tk) thr) i j).
Proof.
  intros Hu Hw Hrun Happ Hf Hi Hj Hzi Hzj Hz.
  destruct (app_run_label ui w w' v gdf f tk thr mcs ov i ri zi Hu Hw Hrun Happ Hf Hi Hzi)
    as [Hok Hli].
  destruct (app_run_label ui w w' v gdf f tk thr mcs ov j rj zj Hu Hw Hrun Happ Hf Hj Hzj)
    as [_ Hlj].
  rewrite app_reach_iff. exact (cluster_labels_same_cluster _ _ _ i j zi zj Hok Hli Hlj Hz).
Qed.

(** C2 (noise). After a Run that shows its page, a stored row is noise
    ([cluster_id] -1) exactly when the rows linked to it, itself included,
    are fewer than the minimum cluster size. *)
Theorem app_run_noise (ui : ui_input G) (w w' : world G) (v : map_view G)
    (gdf f : frame G) (tk : option string) (thr mcs ov : Z) (i : nat) (r : row G) (z : Z)
    (C : gset nat) :
  ui_upload ui = Some gdf -> widget_values ui gdf = Ok (tk, thr, mcs, ov) ->
  ui_run ui = true -> app_run randint centroid to_str ui w = (w', Shown v) ->
  ss_clustered (w_session w') = Some f -> fr_rows f !! i = Some r ->
  row_props r !! "cluster_id"%string = Some (VInt z) ->
  (forall x, x ∈ C <-> rtc (app_neighbor gdf (truthy_key tk) thr) i x) ->
  (z = -1 <-> (Z.of_nat (size C) < mcs))%Z.
Proof.
  intros Hu Hw Hrun Happ Hf Hi Hz HC.
  destruct (app_run_label ui w w' v gdf f tk thr mcs ov i r z Hu Hw Hrun Happ Hf Hi Hz)
    as [Hok Hl].
  pose proof (widget_values_bounds ui gdf tk thr mcs ov Hw) as Hb.
  rewrite (cluster_labels_noise _ _ _ i z C Hok Hl); [lia|].
  intros x. rewrite HC. apply app_reach_iff.
Qed.


(** C27 (seed_order). After a Run that shows its page, cluster ids follow
    the order of the uploaded rows: of two stored rows with non-negative
    ids [zi < zj], the cluster of the first holds a row that comes before
    every row of the cluster of the second. *)
Theorem app_run_seed_order (ui : ui_input G) (w w' : world G) (v : map_view G)
    (gdf f : frame G) (tk : option string) (thr mcs ov : Z) (i j : nat) (ri rj : row G)
    (zi zj : Z) :
  ui_upload ui = Some gdf -> widget_values ui gdf = Ok (tk, thr, mcs, ov) ->
  ui_run ui = true -> app_run randint centroid to_str ui w = (w', Shown v) ->
  ss_clustered (w_session w') = Some f ->
  fr_rows f !! i = Some ri -> fr_rows f !! j = Some rj ->
  row_props ri !! "cluster_id"%string = Some (VInt zi) ->
  row_props rj !! "cluster_id"%string = Some (VInt zj) -> (0 <= zi < zj)%Z ->
  exists a, rtc (app_neighbor gdf (truthy_key tk) thr) i a /\
    forall b, rtc (app_neighbor gdf (truthy_key tk) thr) j b -> a < b.
Proof.
  intros Hu Hw Hrun Happ Hf Hi Hj Hzi Hzj Hz.
  destruct (app_run_label ui w w' v gdf f tk thr mcs ov i ri zi Hu Hw Hrun Happ Hf Hi Hzi)
    as [Hok Hli].
  destruct (app_run_label ui w w' v gdf f tk thr mcs ov j rj zj Hu Hw Hrun Happ Hf Hj Hzj)
    as [_ Hlj].
  setoid_rewrite app_reach_iff.
  exact (cluster_labels_seed_order _ _ _ i j zi zj Hok Hli Hlj Hz).
Qed.

(** C28 (dense_ids). After a Run that shows its page, the stored cluster
    ids are dense from 0: for a stored id [z], every id from 0 to [z] is
    the [cluster_id] of some stored row. *)
Theorem app_run_dense_ids (ui : ui_input G) (w w' : world G) (v : map_view G)
    (gdf f : frame G) (tk : option string) (thr mcs ov : Z) (i : nat) (r : row G) (z z' : Z) :
  ui_upload ui = Some gdf -> widget_values ui gdf = Ok (tk, thr, mcs, ov) ->
  ui_run ui = true -> app_run randint centroid to_str ui w = (w', Shown v) ->
  ss_clustered (w_session w') = Some f -> fr_rows f !! i = Some r ->
  row_props r !! "cluster_id"%string = Some (VInt z) -> (0 <= z' <= z)%Z ->
  exists j r', fr_rows f !! j = Some r' /\ row_props r' !! "cluster_id"%string = Some (VInt z').
Proof.
  intros Hu Hw Hrun Happ Hf Hi Hz Hz'.
  destruct (app_run_label ui w w' v gdf f tk thr mcs ov i r z Hu Hw Hrun Happ Hf Hi Hz)
    as [Hok Hl].
  destruct (cluster_labels_dense _ _ _ i z z' Hok Hl Hz') as [j Hj].
  destruct (app_run_success ui w w' v gdf tk thr mcs ov Hu Hw Hrun Happ) as (_ & _ & Hcl).
  rewrite Hcl in Hf. injection Hf as <-.
  exists j. apply with_labels_row; [apply length_engine_labels|exact Hj].
Qed.
(** The widgets at their defaults, lines 47-80: the first offered time
    column, one hour, size 2, overlap 0. *)
Lemma widget_values_defaults (gdf : frame G) (run reset : bool) :
  widget_values (mk_ui (Some gdf) None None None None None run reset) gdf =
    Ok (head (datetime_cols gdf), 3600%Z, 2%Z, 0%Z).
Proof. unfold widget_values, selectbox. simpl. by destruct (datetime_cols gdf). Qed.

(** A Run on the default widgets stores the labeled upload and shows it. *)
Lemma app_run_default (w : world G) (gdf : frame G) (reset : bool) :
  fr_rows gdf <> [] ->
  app_run randint centroid to_str (mk_ui (Some gdf) None None None None None true reset) w =
    show_results randint centroid to_str (head (datetime_cols gdf))
      (set_clustered (Some (with_labels gdf (engine_labels gdf
          (truthy_key (head (datetime_cols gdf))) 3600 2 (inject_Z 0))))
        (if reset then reset_handler w else w)).
Proof.
  intros Hne. unfold app_run. cbn [ui_upload]. rewrite widget_values_defaults.
  cbn [ui_run ui_reset]. unfold run_handler.
  assert (Hp : check_params gdf 3600 2 (inject_Z 0) = Ok tt).
  { apply check_params_ok. split_and!; try lia; try done; by apply Qle_bool_iff. }
  unfold cluster_polygons, spec_engine. by rewrite run_engine_spec, Hp.
Qed.

Lemma truthy_key_Some (tk : option string) (k : string) : truthy_key tk = Some k -> tk = Some k.
Proof. destruct tk as [k'|]; simpl; [case_decide; congruence|done]. Qed.

(** Two distinct rows with intersecting boxes and timestamps within the
    period get one non-negative id from the default minimum size 2. *)
Lemma default_labels_pair (gdf : frame G) (tk : option string) (thr : Z) (i j : nat)
    (ri rj : row G) :
  i <> j -> fr_rows gdf !! i = Some ri -> fr_rows gdf !! j = Some rj ->
  box_intersects (geom_bbox (row_geom ri)) (geom_bbox (row_geom rj)) = true ->
  time_compatible (row_time tk ri) (row_time tk rj) thr = true ->
  exists z, engine_labels gdf tk thr 2 (inject_Z 0) !! i = Some z /\
            engine_labels gdf tk thr 2 (inject_Z 0) !! j = Some z /\ (0 <= z)%Z.
Proof.
  intros Hij Hi Hj Hb Ht.
  pose proof (cluster_labels_neighbor_graph gdf tk thr 2 (inject_Z 0)) as Hok.
  set (adj := neighbor_graph (features_of gdf tk) thr 0) in Hok.
  set (l := engine_labels gdf tk thr 2 (inject_Z 0)) in Hok |- *.
  assert (Hlen : length l = length (fr_rows gdf)) by apply length_engine_labels.
  destruct (lookup_lt_is_Some_2 l i) as [zi Hzi]; [rewrite Hlen; by eapply lookup_lt_Some|].
  destruct (lookup_lt_is_Some_2 l j) as [zj Hzj]; [rewrite Hlen; by eapply lookup_lt_Some|].
  assert (Hreach : reach adj i j).
  { apply rtc_once, app_neighbor_edge. split; [done|]. eauto 10. }
  destruct (cluster_labels_graph _ _ _ Hok) as [Hwf _].
  assert (Hin : i < length adj).
  { unfold adj. rewrite length_neighbor_graph, length_features_of. by eapply lookup_lt_Some. }
  set (C := list_to_set (component adj (replicate (length adj) Unvisited) i).2 : gset nat).
  assert (HC : forall x, x ∈ C <-> reach adj i x).
  { intros x. unfold C. rewrite elem_of_list_to_set. symmetry. by apply reach_members. }
  assert (Hsize : 2 <= size C).
  { assert (Hsub : {[i; j]} ⊆ C).
    { intros x Hx. apply HC. apply elem_of_union in Hx as [->%elem_of_singleton| ->%elem_of_singleton];
        [apply rtc_refl|done]. }
    apply subseteq_size in Hsub. rewrite size_union, !size_singleton in Hsub; [lia|set_solver]. }
  pose proof (cluster_labels_noise _ _ _ i zi C Hok Hzi HC) as Hnoise.
  destruct (cluster_labels_total _ _ _ Hok) as [_ Hrange].
  assert (Hz : (0 <= zi)%Z).
  { destruct (Hrange i zi Hzi) as [->|]; [|done]. simpl in Hnoise. lia. }
  exists zi. split_and!; [done| |done].
  rewrite Hzj. f_equal. symmetry. by apply (cluster_labels_same_cluster _ _ _ i j zi zj Hok Hzi Hzj Hz).
Qed.

(** C16 (default_run_recovers). Whatever state the session is in, with or
    without Reset, a Run on a non-empty upload with the widgets at their
    defaults (the first offered time column, period 1 hour, minimum
    cluster size 2, overlap 0) stores the engine's answer on the upload,
    and the rerun raises nothing but folium's tooltip assertion, which
    happens only when that default time column is the geometry column. *)
Theorem app_run_default_recovers (w : world G) (gdf : frame G) (reset : bool) :
  fr_rows gdf <> [] ->
  exists w' o f,
    app_run randint centroid to_str (mk_ui (Some gdf) None None None None None true reset) w =
      (w', o) /\
    ss_clustered (w_session w') = Some f /\
    cluster_polygons gdf (truthy_key (head (datetime_cols gdf))) 3600 2 (inject_Z 0) = Ok f /\
    (forall e, o = Raised e ->
       e = FoliumAssertion geometry_column /\ head (datetime_cols gdf) = Some geometry_column).
Proof.
  intros Hne. rewrite (app_run_default w gdf reset Hne).
  set (tk := head (datetime_cols gdf)).
  set (f := with_labels gdf (engine_labels gdf (truthy_key tk) 3600 2 (inject_Z 0))).
  set (w2 := set_clustered (Some f) (if reset then reset_handler w else w)).
  pose proof (show_results_colors randint centroid to_str tk w2) as [_ Hcl].
  assert (Hok : clustered_ok w2) by (intros f' [= <-]; apply with_labels_has_column).
  pose proof (show_results_raise randint centroid to_str tk w2) as Hr.
  destruct (show_results randint centroid to_str tk w2) as [w' o].
  exists w', o, f. split_and!; [done|exact Hcl| |].
  - unfold cluster_polygons, spec_engine. rewrite run_engine_spec.
    rewrite (proj2 (check_params_ok gdf 3600 2 (inject_Z 0))); [done|].
    split_and!; try lia; try done; by apply Qle_bool_iff.
  - intros e He. destruct (Hr e Hok He) as [-> Htk]. split; [done|]. by apply truthy_key_Some.
Qed.

(** C4 (touching_clustered). On the default widgets, a Run puts any two
    uploaded rows whose bounding boxes intersect and whose timestamps
    (in the default time column) lie within an hour in one cluster, with
    a non-negative id, whatever their overlap: two polygons that only
    touch, with overlap 0, are clustered together, since 0 is the only
    overlap threshold a Run accepts. *)
Theorem app_run_touching_clustered (w : world G) (gdf : frame G) (reset : bool) (i j : nat)
    (ri rj : row G) :
  i <> j -> fr_rows gdf !! i = Some ri -> fr_rows gdf !! j = Some rj ->
  box_intersects (geom_bbox (row_geom ri)) (geom_bbox (row_geom rj)) = true ->
  time_compatible (row_time (truthy_key (head (datetime_cols gdf))) ri)
                  (row_time (truthy_key (head (datetime_cols gdf))) rj) 3600 = true ->
  exists f z ri' rj',
    ss_clustered (w_session (app_run randint centroid to_str
       (mk_ui (Some gdf) None None None None None true reset) w).1) = Some f /\
    fr_rows f !! i = Some ri' /\ fr_rows f !! j = Some rj' /\
    row_props ri' !! "cluster_id"%string = Some (VInt z) /\
    row_props rj' !! "cluster_id"%string = Some (VInt z) /\ (0 <= z)%Z.
Proof.
  intros Hij Hi Hj Hb Ht.
  assert (Hne : fr_rows gdf <> []) by (intros Hn; rewrite Hn in Hi; discriminate).
  rewrite (app_run_default w gdf reset Hne). rewrite (proj2 (show_results_colors _ _ _ _ _)).
  destruct (default_labels_pair gdf _ 3600 i j ri rj Hij Hi Hj Hb Ht) as (z & Hzi & Hzj & Hz).
  pose proof (length_engine_labels gdf (truthy_key (head (datetime_cols gdf))) 3600 2 (inject_Z 0)) as Hlen.
  destruct (with_labels_row gdf _ i z Hlen Hzi) as (ri' & Hri & Hci).
  destruct (with_labels_row gdf _ j z Hlen Hzj) as (rj' & Hrj & Hcj).
  eexists _, z, ri', rj'. split_and!; [reflexivity|done..].
Qed.

(** C7 (geometry_tooltip). When the first column the time selector
    offers is the geometry column (an upload without a datetime or string
    column before it, line 46), a Run on the default widgets that finds
    two rows with intersecting boxes ends in folium's AssertionError: line
    139 adds the geometry column to the tooltip, and it is not a property
    of the GeoJSON features.  The result stays stored, so the next rerun,
    without Run or Reset, raises again. *)
Theorem app_run_geometry_tooltip (w : world G) (gdf : frame G) (reset : bool) (i j : nat)
    (ri rj : row G) :
  head (datetime_cols gdf) = Some geometry_column ->
  "cluster_id"%string ∉ col_name <$> fr_columns gdf ->
  i <> j -> fr_rows gdf !! i = Some ri -> fr_rows gdf !! j = Some rj ->
  box_intersects (geom_bbox (row_geom ri)) (geom_bbox (row_geom rj)) = true ->
  time_compatible (row_time (Some geometry_column) ri) (row_time (Some geometry_column) rj)
    3600 = true ->
  let '(w', o) := app_run randint centroid to_str
                    (mk_ui (Some gdf) None None None None None true reset) w in
  o = Raised (FoliumAssertion geometry_column) /\
  (app_run randint centroid to_str (mk_ui (Some gdf) None None None None None false false) w').2
    = Raised (FoliumAssertion geometry_column).
Proof.
  intros Hhead Hnocid Hij Hi Hj Hb Ht.
  assert (Hne : fr_rows gdf <> []) by (intros Hn; rewrite Hn in Hi; discriminate).
  assert (Htk : truthy_key (head (datetime_cols gdf)) = Some geometry_column) by
    (rewrite Hhead; reflexivity).
  rewrite (app_run_default w gdf reset Hne). rewrite Htk, Hhead.
  set (f := with_labels gdf (engine_labels gdf (Some geometry_column) 3600 2 (inject_Z 0))).
  set (w2 := set_clustered (Some f) (if reset then reset_handler w else w)).
  destruct (default_labels_pair gdf (Some geometry_column) 3600 i j ri rj Hij Hi Hj Hb Ht)
    as (z & Hzi & _ & Hz).
  assert (Hcid : has_column f "cluster_id" = true) by apply with_labels_has_column.
  assert (Hcols : fr_columns f = fr_columns gdf ++ [cluster_id_column]).
  { unfold f, with_labels, has_column. simpl. by rewrite bool_decide_eq_false_2. }
  assert (Hdt : "cluster_id"%string ∉ datetime_names (fr_columns f)).
  { rewrite Hcols. unfold datetime_names. rewrite filter_app, fmap_app.
    intros [Hin|Hin]%elem_of_app.
    - apply Hnocid. apply list_elem_of_fmap in Hin as (c & -> & Hc%list_elem_of_filter).
      apply list_elem_of_fmap_2, Hc.
    - unfold cluster_id_column in Hin. rewrite filter_cons_False in Hin by (simpl; intros [?|?]; discriminate).
      by apply elem_of_nil in Hin. }
  assert (Hgeo : has_column f geometry_column = true).
  { unfold has_column. apply bool_decide_eq_true. rewrite Hcols, fmap_app. apply elem_of_app. left.
    unfold datetime_cols in Hhead. destruct (filter _ _) as [|c cs] eqn:Hfl; [done|].
    injection Hhead as <-. assert (Hc : c ∈ filter (fun c => col_kind c = "M"%char \/ col_kind c = "O"%char)
                                          (fr_columns gdf)) by (rewrite Hfl; left).
    apply list_elem_of_filter in Hc as [_ Hc]. by apply list_elem_of_fmap_2. }
  assert (Hrow : exists r, r ∈ fr_rows f /\ not_noise r = true).
  { pose proof (length_engine_labels gdf (Some geometry_column) 3600 2 (inject_Z 0)) as Hlen.
    destruct (with_labels_row gdf _ i z Hlen Hzi) as (r & Hr & Hc).
    exists r. split; [by eapply list_elem_of_lookup_2|]. unfold not_noise. rewrite Hc.
    by apply Z.leb_le. }
  pose proof (show_results_geometry_raise randint centroid to_str (Some geometry_column) w2 f
                eq_refl Hcid Hdt Hgeo eq_refl Hrow) as H1.
  pose proof (show_results_colors randint centroid to_str (Some geometry_column) w2) as [_ Hcl].
  destruct (show_results randint centroid to_str (Some geometry_column) w2) as [w' o].
  split; [exact H1|]. simpl in Hcl.
  unfold app_run. cbn [ui_upload ui_run ui_reset]. rewrite widget_values_defaults, Hhead.
  exact (show_results_geometry_raise randint centroid to_str (Some geometry_column) w' f
           Hcl Hcid Hdt Hgeo eq_refl Hrow).
Qed.
End System.



(** ** Witnesses *)

Lemma app_run_same_cluster_witness :
  (0 = 0)%Z <-> rtc (app_neighbor sys_frame (truthy_key None) 3600) 0 1.
Proof.
  apply (app_run_same_cluster ex_randint (fun _ => (0, 0)%Q) (fun _ => ""%string)
           (sys_ui None) init_world (sys_run (sys_ui None)).1 sys_view sys_frame sys_stored
           None 3600 2 0 0 1 (sys_row 0) (sys_row 1) 0 0);
    try (vm_compute; reflexivity); lia.
Defined.

Lemma app_run_noise_witness :
  (-1 = -1)%Z <-> (Z.of_nat (size ({[2%nat]} : gset nat)) < 2)%Z.
Proof.
  apply (app_run_noise ex_randint (fun _ => (0, 0)%Q) (fun _ => ""%string)
           (sys_ui None) init_world (sys_run (sys_ui None)).1 sys_view sys_frame sys_stored
           None 3600 2 0 2 (sys_row 2) (-1) {[2%nat]}); try (vm_compute; reflexivity).
  intros x. rewrite app_reach_iff, reach_members.
  - match goal with |- context [(component ?a ?b ?c).2] =>
      let e := eval vm_compute in (component a b c).2 in change (component a b c).2 with e end.
    set_solver.
  - vm_compute. lia.
  - intros u v' Huv. apply (proj1 (check_graph_ok _) (neighbor_graph_check _ _ _) u v' Huv).
Defined.

Lemma app_run_overlap_rejected_witness :
  (sys_run (sys_ui (Some 25%Z))).2 = Raised (EngineFailure (BadOverlapThreshold (inject_Z 25))).
Proof.
  apply (app_run_overlap_rejected ex_randint (fun _ => (0, 0)%Q) (fun _ => ""%string)
           (sys_ui (Some 25%Z)) init_world sys_frame None 3600 2 25);
    try (vm_compute; reflexivity); lia.
Defined.

Lemma app_run_rows_labeled_witness :
  exists f, ss_clustered (w_session (sys_run (sys_ui None)).1) = Some f /\
    has_column f "cluster_id" = true /\
    Forall2 (fun r r' => exists z, (z = -1 \/ 0 <= z)%Z /\ row_geom r' = row_geom r /\
               row_props r' = <["cluster_id" := VInt z]> (row_props r))
            (fr_rows sys_frame) (fr_rows f).
Proof.
  apply (app_run_rows_labeled ex_randint (fun _ => (0, 0)%Q) (fun _ => ""%string)
           (sys_ui None) init_world (sys_run (sys_ui None)).1 sys_frame sys_view);
    vm_compute; reflexivity.
Defined.

Lemma app_run_seed_order_witness :
  exists a, rtc (app_neighbor sys_frame2 (truthy_key None) 3600) 0 a /\
    forall b, rtc (app_neighbor sys_frame2 (truthy_key None) 3600) 2 b -> a < b.
Proof.
  apply (app_run_seed_order ex_randint (fun _ => (0, 0)%Q) (fun _ => ""%string)
           (sys_ui2 None) init_world (sys_run (sys_ui2 None)).1 sys_view2 sys_frame2
           sys_stored2 None 3600 1 0 0 2 (sys_row2 0) (sys_row2 2) 0 1);
    try (vm_compute; reflexivity); lia.
Defined.

Lemma app_run_dense_ids_witness :
  exists j r', fr_rows sys_stored2 !! j = Some r' /\
    row_props r' !! "cluster_id"%string = Some (VInt 0).
Proof.
  apply (app_run_dense_ids ex_randint (fun _ => (0, 0)%Q) (fun _ => ""%string)
           (sys_ui2 None) init_world (sys_run (sys_ui2 None)).1 sys_view2 sys_frame2
           sys_stored2 None 3600 1 0 2 (sys_row2 2) 1 0);
    try (vm_compute; reflexivity); lia.
Defined.

Lemma app_run_engine_errors_only_witness :
  (exists ee, EngineFailure (BadOverlapThreshold (inject_Z 25)) = EngineFailure ee) \/
  EngineFailure (BadOverlapThreshold (inject_Z 25)) = FoliumAssertion geometry_column.
Proof.
  apply (app_run_engine_errors_only ex_randint (fun _ => (0, 0)%Q) (fun _ => ""%string)
           (sys_ui (Some 25%Z)) init_world); [constructor|discriminate|vm_compute; reflexivity].
Defined.

Lemma app_run_default_recovers_witness :
  exists w' o f,
    sys_run (mk_ui (Some sys_frame) None None None None None true false) = (w', o) /\
    ss_clustered (w_session w') = Some f /\
    cluster_polygons sys_frame (truthy_key (head (datetime_cols sys_frame))) 3600 2 (inject_Z 0)
      = Ok f /\
    (forall e, o = Raised e ->
       e = FoliumAssertion geometry_column /\ head (datetime_cols sys_frame) = Some geometry_column).
Proof.
  apply (app_run_default_recovers ex_randint (fun _ => (0, 0)%Q) (fun _ => ""%string)
           init_world sys_frame false). discriminate.
Defined.

Lemma app_run_touching_clustered_witness :
  exists f z ri' rj',
    ss_clustered (w_session (sys_run (mk_ui (Some touch_frame) None None None None None true false)).1)
      = Some f /\
    fr_rows f !! 0 = Some ri' /\ fr_rows f !! 1 = Some rj' /\
    row_props ri' !! "cluster_id"%string = Some (VInt z) /\
    row_props rj' !! "cluster_id"%string = Some (VInt z) /\ (0 <= z)%Z.
Proof.
  apply (app_run_touching_clustered ex_randint (fun _ => (0, 0)%Q) (fun _ => ""%string)
           init_world touch_frame false 0 1 (mk_row (mk_rect 0 0 1 1) ∅) (mk_row (mk_rect 1 0 2 1) ∅));
    (lia || reflexivity).
Defined.

Lemma app_run_geometry_tooltip_witness :
  let '(w', o) := sys_run (mk_ui (Some geo_frame) None None None None None true false) in
  o = Raised (FoliumAssertion geometry_column) /\
  (app_run ex_randint (fun _ => (0, 0)%Q) (fun _ => ""%string)
     (mk_ui (Some geo_frame) None None None None None false false) w').2
    = Raised (FoliumAssertion geometry_column).
Proof.
  apply (app_run_geometry_tooltip ex_randint (fun _ => (0, 0)%Q) (fun _ => ""%string)
           init_world geo_frame false 0 1 (mk_row (mk_rect 0 0 1 1) ∅) (mk_row (mk_rect 1 0 2 1) ∅));
    (lia || reflexivity || (vm_compute; set_solver)).
Defined.
